(** * OTel Sonifier: ingestion, snapshot, broadcast, analyzer and playback

    A shallow embedding of the collector extension
    ([sonifierextension/extension.go]), of its browser side
    ([web/telemetry-analyzer.js], [web/script.js], [web/rain-engine.js])
    and of the load generator ([otelgen]), with the properties of the
    design document proved, or refuted, on the embedding, followed by
    further properties of the code.

    Conventions.
    - Handlers that run under [s.mu] / [s.wsConnMutex] are atomic steps on
      the extension state.
    - The Go standard library ([encoding/json]), the OTLP [pdata] codecs
      and the websocket transport are not part of the repository: they are
      the fields of two classes, [Codecs] and [Transport], and the few
      facts used about them are Section hypotheses.  Module [RefLib] gives
      one executable instance.
    - A JavaScript number that comes from a payload, or from arithmetic
      on one, is a [num]: NaN, an infinity or a finite rational.  Where
      the source adds, subtracts, multiplies or divides doubles to get a
      duration, a position or a sound, the operation is rounded by
      [round], a field of class [Doubles]; what is used of rounding is
      class [Nearest].  The levels and the activity, which are only
      compared with one another and with thresholds, are scaled without
      rounding; ratios of counters and Go floats are exact rationals [Q].
    - A property that may be absent, or falsy, is an [option].
    - [ws.onmessage] runs its work in a [try] block: a message comes
      with what the block does with it, a [Payload].
    - Random values are arguments: the results of [Math.random()] and of
      [math/rand] are given to the functions that draw them. *)

From Stdlib Require Import QArith Qminmax Qpower Lqa Ascii String.
From stdpp Require Import gmap strings list.

Set Warnings "-register-all,-clear-no-such-hyp".

Open Scope Z_scope.

(** ** Go side: [extension.go] *)

Module Extension.

Abbreviation bytes := (list Byte.byte).
Abbreviation Conn := positive.

(** [net/http] status codes used by the handlers. *)
Definition StatusOK : Z := 200.
Definition StatusNoContent : Z := 204.
Definition StatusMethodNotAllowed : Z := 405.
Definition StatusInternalServerError : Z := 500.
Definition MethodPost : string := "POST".

Record Request := { Method : string; Body : option bytes }.

Record HTTPResponse := { StatusCode : Z; Written : bytes }.

(** The anonymous struct [{Type string; Payload json.RawMessage}]. *)
Record Envelope := { Type_ : string; Payload : bytes }.

(** One call of [conn.WriteMessage]: target, message, and whether it
    returned a nil error. *)
Record WriteCall := { w_conn : Conn; w_message : bytes; w_ok : bool }.

(** The fields of [sonifierExtension] that the handlers touch, plus the
    observable transport effects ([writes], [closed]). *)
Record sonifierExtension := {
  telemetryData : bytes;
  telemetryType : string;
  wsConnections : gmap Conn bool;
  writes : list WriteCall;
  closed : list Conn
}.

(** [newSonifierExtension]: empty buffer, empty type, empty map. *)
Definition newSonifierExtension : sonifierExtension :=
  {| telemetryData := []; telemetryType := ""; wsConnections := ∅;
     writes := []; closed := [] |}.

(** [http.Error]: the status, and the message followed by a newline
    (it prints with [fmt.Fprintln]); the headers it sets are left out. *)
Definition http_Error (msg : string) (code : Z) : HTTPResponse :=
  {| StatusCode := code; Written := String.list_byte_of_string msg ++ [Byte.x0a] |}.

(** *** External libraries

    [Codecs] gathers what the handlers call in [encoding/json] and in the
    OTLP [pdata] packages; [Transport] what they call on websocket
    connections. *)

Class Codecs := {
  (** [json.Valid]. *)
  json_Valid : bytes → bool;
  JSONValue : Type;
  (** [json.Unmarshal(body, &jsonObj) == nil] for a
      [map[string]interface{}] target. *)
  json_Unmarshal : bytes → option (gmap string JSONValue);
  (** [json.Marshal(string(data))]; its error is discarded by the code. *)
  json_Marshal_string : bytes → bytes;
  (** [json.Marshal(response)] / [json.NewEncoder(w).Encode(response)]. *)
  json_Marshal_response : Envelope → option bytes;
  (** [ptraceotlp], [pmetricotlp], [plogotlp]: [UnmarshalProto] into a
      fresh request, and [MarshalJSON]. *)
  TracesRequest : Type;
  MetricsRequest : Type;
  LogsRequest : Type;
  traces_UnmarshalProto : bytes → option TracesRequest;
  traces_MarshalJSON : TracesRequest → option bytes;
  metrics_UnmarshalProto : bytes → option MetricsRequest;
  metrics_MarshalJSON : MetricsRequest → option bytes;
  logs_UnmarshalProto : bytes → option LogsRequest;
  logs_MarshalJSON : LogsRequest → option bytes
}.

Class Transport := {
  (** [conn.WriteMessage(websocket.TextMessage, message)]: [true] when it
      returns no error. *)
  WriteMessage : Conn → bytes → bool;
  (** The order in which [for conn := range s.wsConnections] visits the
      keys; Go leaves it unspecified. *)
  range_order : gmap Conn bool → list Conn
}.

Section Handlers.

Context {codecs : Codecs} {transport : Transport}.

(** *** [broadcastToWebSockets] (lines 303-315) *)

(** Loop body for one connection. *)
Definition broadcast_one (message : bytes) (s : sonifierExtension)
    (conn : Conn) : sonifierExtension :=
  if WriteMessage conn message then
    {| telemetryData := telemetryData s; telemetryType := telemetryType s;
       wsConnections := wsConnections s;
       writes := writes s ++ [{| w_conn := conn; w_message := message; w_ok := true |}];
       closed := closed s |}
  else
    {| telemetryData := telemetryData s; telemetryType := telemetryType s;
       wsConnections := delete conn (wsConnections s);
       writes := writes s ++ [{| w_conn := conn; w_message := message; w_ok := false |}];
       closed := closed s ++ [conn] |}.

Definition broadcastToWebSockets (message : bytes) (s : sonifierExtension)
    : sonifierExtension :=
  foldl (broadcast_one message) s (range_order (wsConnections s)).

(** The record of the single write attempted on [conn]. *)
Definition attempt (message : bytes) (conn : Conn) : WriteCall :=
  {| w_conn := conn; w_message := message; w_ok := WriteMessage conn message |}.

(** *** [handleTelemetry] (lines 130-227) *)

(** A [nil] slice is the empty list: the code only takes [len] of it. *)
Definition or_nil (o : option bytes) : bytes := default [] o.

(** Lines 143-188: the pair [(dataType, jsonData)]. *)
Definition classify (body : bytes) : string * bytes :=
  if json_Valid body then
    match json_Unmarshal body with
    | Some jsonObj =>
        if bool_decide (is_Some (jsonObj !! "resourceSpans")) then ("traces", body)
        else if bool_decide (is_Some (jsonObj !! "resourceMetrics")) then ("metrics", body)
        else if bool_decide (is_Some (jsonObj !! "resourceLogs")) then ("logs", body)
        else ("unknown", body)
    | None => ("unknown", body)
    end
  else
    match traces_UnmarshalProto body with
    | Some tracesReq => ("traces", or_nil (traces_MarshalJSON tracesReq))
    | None =>
      match metrics_UnmarshalProto body with
      | Some metricsReq => ("metrics", or_nil (metrics_MarshalJSON metricsReq))
      | None =>
        match logs_UnmarshalProto body with
        | Some logsReq => ("logs", or_nil (logs_MarshalJSON logsReq))
        | None => ("unknown", body)
        end
      end
    end.

(** Lines 192-196: what is written into the buffer after [Reset]. *)
Definition stored_data (body jsonData : bytes) : bytes :=
  if (0 <? length jsonData)%nat then jsonData else body.

(** Lines 200-207 and 239-249: the [json.RawMessage] of the envelope. *)
Definition raw_payload (data : bytes) : bytes :=
  if json_Valid data then data else json_Marshal_string data.

Definition handleTelemetry (s : sonifierExtension) (r : Request)
    : sonifierExtension * HTTPResponse :=
  if negb (String.eqb (Method r) MethodPost) then
    (s, http_Error "Method not allowed" StatusMethodNotAllowed)
  else
    match Body r with
    | None => (s, http_Error "Error reading request body" StatusInternalServerError)
    | Some body =>
        let '(dataType, jsonData) := classify body in
        let data := stored_data body jsonData in
        let s1 := {| telemetryData := data; telemetryType := dataType;
                     wsConnections := wsConnections s;
                     writes := writes s; closed := closed s |} in
        let response := {| Type_ := dataType; Payload := raw_payload data |} in
        let s2 := match json_Marshal_response response with
                  | Some messageBytes => broadcastToWebSockets messageBytes s1
                  | None => s1
                  end in
        (s2, {| StatusCode := StatusOK; Written := [] |})
    end.

(** *** [handleGetTelemetryData] (lines 229-264) *)

(** The response written for one envelope: the encoded document, or the
    internal-error reply when the encoder fails. *)
Definition write_envelope (response : Envelope) : HTTPResponse :=
  match json_Marshal_response response with
  | Some doc => {| StatusCode := StatusOK; Written := doc ++ [Byte.x0a] |}
  | None => http_Error "Internal Server Error" StatusInternalServerError
  end.

Definition handleGetTelemetryData (s : sonifierExtension) : HTTPResponse :=
  if (length (telemetryData s) =? 0)%nat then
    {| StatusCode := StatusNoContent; Written := [] |}
  else
    write_envelope {| Type_ := telemetryType s;
                      Payload := raw_payload (telemetryData s) |}.

(** *** Runs of the two endpoints

    The handlers hold [s.mu] from their first read of the snapshot to
    their last, so a run is a sequence of whole calls. *)

Inductive Call :=
  | Ingest (r : Request)
  | Pull.

Definition step (s : sonifierExtension) (c : Call) : sonifierExtension * HTTPResponse :=
  match c with
  | Ingest r => handleTelemetry s r
  | Pull => (s, handleGetTelemetryData s)
  end.

(** The state after a sequence of calls. *)
Definition exec (s : sonifierExtension) (cs : list Call) : sonifierExtension :=
  foldl (λ s c, (step s c).1) s cs.

(** *** The design document's normalizer and snapshot store, in its words *)

(** Section 4.1, step 1: classification by top-level marker key. *)
Definition marker_kind (doc : option (gmap string JSONValue)) : string :=
  match doc with
  | Some obj =>
      if bool_decide ("resourceSpans" ∈ dom obj) then "traces"
      else if bool_decide ("resourceMetrics" ∈ dom obj) then "metrics"
      else if bool_decide ("resourceLogs" ∈ dom obj) then "logs"
      else "unknown"
  | None => "unknown"
  end.

(** Section 4.1, steps 2 and 3: an explicit ordered list of decoders;
    the first that decodes wins, and no match is [unknown]. *)
Definition decoders : list (string * (bytes → bool)) :=
  [ ("traces", λ b, bool_decide (is_Some (traces_UnmarshalProto b)));
    ("metrics", λ b, bool_decide (is_Some (metrics_UnmarshalProto b)));
    ("logs", λ b, bool_decide (is_Some (logs_UnmarshalProto b))) ].

Definition first_decoder (body : bytes) : string :=
  match filter (λ d, d.2 body = true) decoders with
  | d :: _ => d.1
  | [] => "unknown"
  end.

Definition spec_kind (body : bytes) : string :=
  if json_Valid body then marker_kind (json_Unmarshal body) else first_decoder body.

(** Section 4.2: the request bodies of the ingestions that reached the
    store, oldest first, and the last of them. *)
Definition ingested (cs : list Call) : list bytes :=
  omap (λ c, match c with
             | Ingest r => if String.eqb (Method r) MethodPost then Body r else None
             | Pull => None
             end) cs.

(** The envelope [(k, p)] that an ingestion of [body] stores, with [p]
    string-wrapped when it is not valid JSON. *)
Definition snapshot_envelope (body : bytes) : Envelope :=
  {| Type_ := (classify body).1;
     Payload := raw_payload (stored_data body (classify body).2) |}.

(** Section 6, envelope wire shape: the payload is the structured
    document, or the raw value wrapped in a string when it is not one. *)
Definition wire_payload (p : bytes) : bytes :=
  if json_Valid p then p else json_Marshal_string p.

(** Section 4.2, [get()]: the current [(kind, payload)] as one envelope
    document and the success status, or the empty-state status when the
    slot is empty.  There is no answer when the envelope has no
    encoding. *)
Definition spec_get (slot : option (string * bytes)) : option HTTPResponse :=
  match slot with
  | Some (k, p) =>
      doc ← json_Marshal_response {| Type_ := k; Payload := wire_payload p |};
      Some {| StatusCode := StatusOK; Written := doc ++ [Byte.x0a] |}
  | None => Some {| StatusCode := StatusNoContent; Written := [] |}
  end.

(** Section 4.2, the [put(k, p)] of the last ingestion of a run: the
    kind of section 4.1 and the document kept for it. *)
Definition last_put (cs : list Call) : option (string * bytes) :=
  (λ body, (spec_kind body, stored_data body (classify body).2)) <$> last (ingested cs).

End Handlers.

(** The four classifications. *)
Definition kinds : list string := ["traces"; "metrics"; "logs"; "unknown"].

Definition post (body : bytes) : Request := {| Method := MethodPost; Body := Some body |}.

End Extension.

(** ** Browser side: JavaScript numbers *)

Module JS.

(** Comparison operators on numbers, as booleans. *)
Definition gt (x y : Q) : bool := negb (Qle_bool x y).
Definition lt (x y : Q) : bool := negb (Qle_bool y x).
Definition le (x y : Q) : bool := Qle_bool x y.
Definition ge (x y : Q) : bool := Qle_bool y x.

(** [opt?.forEach(f)] with the accumulator of the enclosing closure made
    explicit: nothing happens when the array is absent. *)
Definition forEach {A S : Type} (f : S → A → S) (o : option (list A)) (s : S) : S :=
  match o with
  | Some l => foldl f s l
  | None => s
  end.

(** Truthiness of a string-valued property. *)
Definition truthy_string (o : option string) : bool :=
  match o with
  | Some s => negb (String.eqb s "")
  | None => false
  end.

End JS.

(** ** Browser side: numbers that may not be finite *)

Module Num.

(** A number that comes from a payload or from arithmetic on one: NaN,
    an infinity, or a finite value. *)
Inductive num := NaN | NInf | Fin (q : Q) | PInf.

(** The same number, finite values being compared as rationals. *)
Definition same (x y : num) : Prop :=
  match x, y with
  | NaN, NaN | NInf, NInf | PInf, PInf => True
  | Fin a, Fin b => (a == b)%Q
  | _, _ => False
  end.

(** [x <= y], [x < y] and [x > y]: false when an operand is NaN. *)
Definition nle (x y : num) : bool :=
  match x, y with
  | NaN, _ | _, NaN => false
  | NInf, _ | _, PInf => true
  | Fin a, Fin b => Qle_bool a b
  | _, _ => false
  end.

Definition nlt (x y : num) : bool :=
  match x, y with
  | NaN, _ | _, NaN => false
  | NInf, NInf | PInf, PInf => false
  | NInf, _ | _, PInf => true
  | Fin a, Fin b => negb (Qle_bool b a)
  | _, _ => false
  end.

Definition ngt (x y : num) : bool := nlt y x.

(** [Math.max(x, y)] and [Math.min(x, y)]: NaN when an argument is. *)
Definition nmax (x y : num) : num :=
  match x, y with
  | NaN, _ | _, NaN => NaN
  | _, _ => if nle x y then y else x
  end.

Definition nmin (x y : num) : num :=
  match x, y with
  | NaN, _ | _, NaN => NaN
  | _, _ => if nle x y then x else y
  end.

(** [x * c] and [x / c] for a positive constant [c], without rounding:
    used for the levels and the activity, which are only compared with
    one another and with thresholds. *)
Definition times (x : num) (c : Q) : num :=
  match x with
  | Fin a => Fin (a * c)
  | other => other
  end.

Definition over (x : num) (c : Q) : num :=
  match x with
  | Fin a => Fin (a / c)
  | other => other
  end.

(** *** Arithmetic of doubles

    [round q] is the double nearest to the real number [q], an infinity
    when [q] is beyond the range of doubles; a decimal literal of the
    source is the rounding of its value. *)
Class Doubles := {
  round : Q → num;
  (** The nearest single, for what is stored in a [Float32Array]. *)
  round_single : Q → num
}.

Section Arithmetic.

Context {doubles : Doubles}.

Definition nadd (x y : num) : num :=
  match x, y with
  | NaN, _ | _, NaN => NaN
  | PInf, NInf | NInf, PInf => NaN
  | PInf, _ | _, PInf => PInf
  | NInf, _ | _, NInf => NInf
  | Fin a, Fin b => round (a + b)
  end.

Definition nopp (x : num) : num :=
  match x with
  | NaN => NaN
  | NInf => PInf
  | Fin a => Fin (- a)
  | PInf => NInf
  end.

Definition nsub (x y : num) : num := nadd x (nopp y).

(** The infinity of the given sign. *)
Definition signed (positive : bool) : num := if positive then PInf else NInf.

Definition nmul (x y : num) : num :=
  match x, y with
  | NaN, _ | _, NaN => NaN
  | Fin a, Fin b => round (a * b)
  | Fin a, PInf | PInf, Fin a =>
      if Qeq_bool a 0 then NaN else signed (negb (Qle_bool a 0))
  | Fin a, NInf | NInf, Fin a =>
      if Qeq_bool a 0 then NaN else signed (Qle_bool a 0)
  | PInf, PInf | NInf, NInf => PInf
  | PInf, NInf | NInf, PInf => NInf
  end.

(** [x / c] for a positive finite [c]. *)
Definition div_by (x : num) (c : Q) : num :=
  match x with
  | Fin a => round (a / c)
  | other => other
  end.

(** A double stored in a [Float32Array]. *)
Definition to_single (x : num) : num :=
  match x with
  | Fin a => round_single a
  | other => other
  end.

End Arithmetic.

(** What is used of rounding to the nearest double and to the nearest
    single: it keeps the order, it leaves a multiple of 1/1024 alone
    when its numerator fits the significand (so every integer up to
    2^43), and it leaves alone what it returned. *)
Class Nearest (doubles : Doubles) : Prop := {
  round_mono : ∀ a b : Q, (a <= b)%Q → nle (round a) (round b) = true;
  round_small : ∀ k : Z, Z.abs k <= 2 ^ 53 →
    same (round (inject_Z k / 1024)) (Fin (inject_Z k / 1024));
  round_twice : ∀ q y : Q, round q = Fin y → same (round y) (Fin y);
  single_mono : ∀ a b : Q, (a <= b)%Q → nle (round_single a) (round_single b) = true;
  single_small : ∀ k : Z, Z.abs k <= 2 ^ 24 →
    same (round_single (inject_Z k / 1024)) (Fin (inject_Z k / 1024))
}.

(** Arithmetic without rounding error, to run the definitions. *)
Definition no_rounding : Doubles := {| round := Fin; round_single := Fin |}.

End Num.

(** ** Browser side: [telemetry-analyzer.js] *)

Module Analyzer.

Import Num.

(** *** Shape of a decoded payload

    A property that may be missing is an [option].  A timestamp is
    [Some x] when the property is truthy, [x] being the number it
    converts to in the subtraction of line 48; [asDouble] is the number
    the property converts to in the product of lines 95 and 104, and
    [asInt] the result of [parseInt], each when the property is not
    [undefined].  A text that is not numeric converts to NaN. *)

Record Span := {
  traceId : option string;
  status_code : option Z;          (* span.status?.code *)
  kind : option Z;
  startTimeUnixNano : option num;
  endTimeUnixNano : option num
}.

Record ScopeSpans := { spans : option (list Span) }.
Record ResourceSpans := { scopeSpans : option (list ScopeSpans) }.

Record DataPoint := {
  asDouble : option num;
  asInt : option num               (* parseInt(point.asInt) *)
}.

Record Metric := {
  name : string;
  gauge : option (option (list DataPoint));   (* metric.gauge, then .dataPoints *)
  sum : option (option (list DataPoint))      (* metric.sum, then .dataPoints *)
}.

Record ScopeMetrics := { metrics : option (list Metric) }.
Record ResourceMetrics := { scopeMetrics : option (list ScopeMetrics) }.

Record LogRecord := {
  severityText : option string;
  severityNumber : option Z
}.

Record ScopeLogs := { logRecords : option (list LogRecord) }.
Record ResourceLogs := { scopeLogs : option (list ScopeLogs) }.

Record RawTelemetry := {
  resourceSpans : option (list ResourceSpans);
  resourceMetrics : option (list ResourceMetrics);
  resourceLogs : option (list ResourceLogs)
}.

(** *** Results *)

Record TraceItem := { id : string; shortId : string; isError : bool }.

Record TracesResult := {
  count : Z;
  errorRate : Q;
  averageLength : num;
  traceIds : list TraceItem
}.

Record MetricsResult := { cpu : num; memory : num; disk : num; critical : bool }.

Record LogsResult := { logErrorRate : Q; totalCount : Z }.

Record AnalyzedTelemetry := {
  traces : TracesResult;
  metricsOf : MetricsResult;
  logs : LogsResult
}.

(** *** [analyzeTraces] (lines 17-76)

    The locals of the function, and [this.traceDurations].  The
    [traceStartTimes] map is written but never read and is left out. *)

Record TraceAcc := {
  totalTraces : Z;
  errorTraces : Z;
  totalDuration : num;
  traceCount : Z;
  acc_traceIds : list TraceItem;
  traceDurations : list num
}.

Definition is_error_span (span : Span) : bool :=
  bool_decide (status_code span = Some 2).

(** [a / b] guarded by [b > 0], else [0] (lines 63-64, 148). *)
Definition ratio (a b : Z) : Q :=
  if 0 <? b then (inject_Z a / inject_Z b)%Q else 0%Q.

(** [this.traceDurations.slice(-100)] when longer than 100. *)
Definition keep_last_100 (l : list num) : list num :=
  if (100 <? length l)%nat then drop (length l - 100) l else l.

Section Traces.

Context {doubles : Doubles}.

(** Line 48. *)
Definition duration_of (e b : num) : num := div_by (nsub e b) 1000000.

(** Body of the innermost [forEach] (lines 31-58). *)
Definition visit_span (a : TraceAcc) (span : Span) : TraceAcc :=
  let ids :=
    if JS.truthy_string (traceId span) then
      let tid := default "" (traceId span) in
      acc_traceIds a ++ [{| id := tid; shortId := String.substring 0 8 tid;
                            isError := is_error_span span |}]
    else acc_traceIds a in
  let '(durs, total, n) :=
    match endTimeUnixNano span, startTimeUnixNano span with
    | Some e, Some b =>
        let duration := duration_of e b in
        (traceDurations a ++ [duration], nadd (totalDuration a) duration, traceCount a + 1)
    | _, _ => (traceDurations a, totalDuration a, traceCount a)
    end in
  {| totalTraces := totalTraces a + 1;
     errorTraces := if is_error_span span then errorTraces a + 1 else errorTraces a;
     totalDuration := total;
     traceCount := n;
     acc_traceIds := ids;
     traceDurations := durs |}.

Definition visit_scopeSpans (a : TraceAcc) (scopeSpan : ScopeSpans) : TraceAcc :=
  JS.forEach visit_span (spans scopeSpan) a.

Definition visit_resourceSpans (a : TraceAcc) (resourceSpan : ResourceSpans) : TraceAcc :=
  JS.forEach visit_scopeSpans (scopeSpans resourceSpan) a.

(** The locals at line 22, with the [this.traceDurations] of the
    moment. *)
Definition fresh_locals (durations : list num) : TraceAcc :=
  {| totalTraces := 0; errorTraces := 0; totalDuration := Fin 0;
     traceCount := 0; acc_traceIds := []; traceDurations := durations |}.

(** Returns the result and the new [this.traceDurations]. *)
Definition analyzeTraces (durations : list num) (rawTelemetry : RawTelemetry)
    : TracesResult * list num :=
  match resourceSpans rawTelemetry with
  | None =>
      ({| count := 0; errorRate := 0; averageLength := Fin 0; traceIds := [] |}, durations)
  | Some rs =>
      let a := foldl visit_resourceSpans (fresh_locals durations) rs in
      ({| count := totalTraces a;
          errorRate := ratio (errorTraces a) (totalTraces a);
          averageLength := if 0 <? traceCount a
                           then div_by (totalDuration a) (inject_Z (traceCount a))
                           else Fin 0;
          traceIds := acc_traceIds a |},
       keep_last_100 (traceDurations a))
  end.

End Traces.

(** *** [analyzeMetrics] (lines 78-125) *)

Record MetricAcc := { m_cpu : num; m_memory : num; m_disk : num }.

Definition gauge_point (cur : num) (point : DataPoint) : num :=
  match asDouble point with
  | Some d => nmax cur (times d 100)
  | None => cur
  end.

Definition disk_point (cur : num) (point : DataPoint) : num :=
  match asInt point with
  | Some n => nmax cur (nmin (Fin 100) (over n 100))
  | None => cur
  end.

(** Body of the innermost [forEach] (lines 91-117); the three [if]s run
    one after the other. *)
Definition visit_metric (a : MetricAcc) (metric : Metric) : MetricAcc :=
  let cpu1 :=
    match gauge metric with
    | Some dataPoints =>
        if String.eqb (name metric) "system.cpu.utilization"
        then JS.forEach gauge_point dataPoints (m_cpu a) else m_cpu a
    | None => m_cpu a
    end in
  let memory1 :=
    match gauge metric with
    | Some dataPoints =>
        if String.eqb (name metric) "system.memory.utilization"
        then JS.forEach gauge_point dataPoints (m_memory a) else m_memory a
    | None => m_memory a
    end in
  let disk1 :=
    match sum metric with
    | Some dataPoints =>
        if String.eqb (name metric) "system.disk.io"
        then JS.forEach disk_point dataPoints (m_disk a) else m_disk a
    | None => m_disk a
    end in
  {| m_cpu := cpu1; m_memory := memory1; m_disk := disk1 |}.

Definition visit_scopeMetrics (a : MetricAcc) (scopeMetric : ScopeMetrics) : MetricAcc :=
  JS.forEach visit_metric (metrics scopeMetric) a.

Definition visit_resourceMetrics (a : MetricAcc) (resourceMetric : ResourceMetrics)
    : MetricAcc :=
  JS.forEach visit_scopeMetrics (scopeMetrics resourceMetric) a.

Definition analyzeMetrics (rawTelemetry : RawTelemetry) : MetricsResult :=
  match resourceMetrics rawTelemetry with
  | None => {| cpu := Fin 0; memory := Fin 0; disk := Fin 0; critical := false |}
  | Some rm =>
      let a := foldl visit_resourceMetrics
                 {| m_cpu := Fin 0; m_memory := Fin 0; m_disk := Fin 0 |} rm in
      {| cpu := m_cpu a; memory := m_memory a; disk := m_disk a;
         critical := ngt (m_cpu a) (Fin 80) || ngt (m_memory a) (Fin 80)
                     || ngt (m_disk a) (Fin 80) |}
  end.

(** *** [analyzeLogs] (lines 127-151) *)

Definition is_error_log (log : LogRecord) : bool :=
  bool_decide (severityText log = Some "ERROR")
  || bool_decide (severityText log = Some "FATAL")
  || match severityNumber log with
     | Some n => negb (n =? 0) && (17 <=? n)
     | None => false
     end.

(** The pair [(totalLogs, errorLogs)]. *)
Definition visit_log (a : Z * Z) (log : LogRecord) : Z * Z :=
  (fst a + 1, if is_error_log log then snd a + 1 else snd a).

Definition visit_scopeLogs (a : Z * Z) (scopeLog : ScopeLogs) : Z * Z :=
  JS.forEach visit_log (logRecords scopeLog) a.

Definition visit_resourceLogs (a : Z * Z) (resourceLog : ResourceLogs) : Z * Z :=
  JS.forEach visit_scopeLogs (scopeLogs resourceLog) a.

Definition analyzeLogs (rawTelemetry : RawTelemetry) : LogsResult :=
  match resourceLogs rawTelemetry with
  | None => {| logErrorRate := 0; totalCount := 0 |}
  | Some rl =>
      let a := foldl visit_resourceLogs (0, 0) rl in
      {| logErrorRate := ratio (snd a) (fst a); totalCount := fst a |}
  end.

(** [analyzeTelemetry] (lines 9-15), threading [this.traceDurations]. *)
Definition analyzeTelemetry {doubles : Doubles} (durations : list num)
    (rawTelemetry : RawTelemetry) : AnalyzedTelemetry * list num :=
  let '(t, durations') := analyzeTraces durations rawTelemetry in
  ({| traces := t; metricsOf := analyzeMetrics rawTelemetry;
      logs := analyzeLogs rawTelemetry |}, durations').

(** *** The payload as flat lists

    "Every embedded span", "each metric point" and "every record" of
    the design document: the three levels of nesting flattened, a missing
    array counting as empty. *)

Definition all_spans (raw : RawTelemetry) : list Span :=
  rs ← default [] (resourceSpans raw);
  ss ← default [] (scopeSpans rs);
  default [] (spans ss).

Definition all_logs (raw : RawTelemetry) : list LogRecord :=
  rl ← default [] (resourceLogs raw);
  sl ← default [] (scopeLogs rl);
  default [] (logRecords sl).

Definition all_metrics (raw : RawTelemetry) : list Metric :=
  rm ← default [] (resourceMetrics raw);
  sm ← default [] (scopeMetrics rm);
  default [] (metrics sm).

(** How many elements of [l] satisfy [p]. *)
Definition flagged {A : Type} (p : A → bool) (l : list A) : Z :=
  Z.of_nat (length (filter (λ x, p x = true) l)).

(** The [asDouble] values of the gauge points of one metric, if it has
    the given name. *)
Definition gauge_values (n : string) (metric : Metric) : list num :=
  match gauge metric with
  | Some dataPoints =>
      if String.eqb (name metric) n then omap asDouble (default [] dataPoints) else []
  | None => []
  end.

(** The [asInt] values of the sum points of one metric, if it has the
    given name. *)
Definition counter_values (n : string) (metric : Metric) : list num :=
  match sum metric with
  | Some dataPoints =>
      if String.eqb (name metric) n then omap asInt (default [] dataPoints) else []
  | None => []
  end.

(** A utilization scaled to a percentage; a counter divided by the fixed
    divisor and capped. *)
Definition percent (d : num) : num := times d 100.
Definition capped (k : num) : num := nmin (Fin 100) (over k 100).

(** [x] is the greatest of [0] and the values [vs], as [Math.max] has
    it: NaN as soon as one of the values is NaN. *)
Definition greatest_or_zero (x : num) (vs : list num) : Prop :=
  (NaN ∈ vs → x = NaN)
  ∧ (NaN ∉ vs →
     nle (Fin 0) x = true
     ∧ (∀ v, v ∈ vs → nle v x = true)
     ∧ (same x (Fin 0) ∨ ∃ v, v ∈ vs ∧ same x v)).

(** A metrics payload with one gauge point. *)
Definition gauge_payload (n : string) (d : num) : RawTelemetry :=
  {| resourceSpans := None;
     resourceMetrics :=
       Some [ {| scopeMetrics :=
                   Some [ {| metrics :=
                               Some [ {| name := n;
                                         gauge := Some (Some [ {| asDouble := Some d;
                                                                  asInt := None |} ]);
                                         sum := None |} ] |} ] |} ];
     resourceLogs := None |}.

(** A payload with one CPU gauge point at 1.5. *)
Definition overloaded : RawTelemetry :=
  gauge_payload "system.cpu.utilization" (Fin (3 # 2)).

(** A payload whose one disk counter is not numeric. *)
Definition unreadable_counter : RawTelemetry :=
  {| resourceSpans := None;
     resourceMetrics :=
       Some [ {| scopeMetrics :=
                   Some [ {| metrics :=
                               Some [ {| name := "system.disk.io";
                                         gauge := None;
                                         sum := Some (Some [ {| asDouble := None;
                                                                asInt := Some NaN |} ]) |} ] |} ] |} ];
     resourceLogs := None |}.

(** A metrics document with a CPU gauge at 0.6, a memory gauge at 0.3
    and a disk counter at 123456. *)
Definition busy_host : RawTelemetry :=
  let point d k := {| asDouble := d; asInt := k |} in
  {| resourceSpans := None;
     resourceMetrics :=
       Some [ {| scopeMetrics :=
                   Some [ {| metrics :=
                               Some [ {| name := "system.cpu.utilization";
                                         gauge := Some (Some [point (Some (Fin (6 # 10))) None]);
                                         sum := None |};
                                      {| name := "system.memory.utilization";
                                         gauge := Some (Some [point (Some (Fin (3 # 10))) None]);
                                         sum := None |};
                                      {| name := "system.disk.io";
                                         gauge := None;
                                         sum := Some (Some [point None (Some (Fin 123456))]) |}
                                    ] |} ] |} ];
     resourceLogs := None |}.

(** A traces payload with three spans, the second flagged as error. *)
Definition three_spans : RawTelemetry :=
  let span (tid : string) (c : Z) :=
    {| traceId := Some tid; status_code := Some c; kind := Some 1;
       startTimeUnixNano := Some (Fin 1000000);
       endTimeUnixNano := Some (Fin 3000000) |} in
  {| resourceSpans :=
       Some [ {| scopeSpans := Some [ {| spans := Some [ span "0af7651916cd43dd" 0;
                                                         span "1bf7651916cd43dd" 2 ] |} ] |};
              {| scopeSpans := Some [ {| spans := Some [ span "2cf7651916cd43dd" 1 ] |} ] |} ];
     resourceMetrics := None;
     resourceLogs := None |}.

End Analyzer.

(** ** Browser side: [script.js] *)

Module Visualizer.

Import Num Analyzer.

(** The fields of [TelemetryVisualizer] used by the playback queue, the
    rate controller and the level quantizer, plus the presentation
    effects: [presented] lists the arguments of the [createRaindrop]
    calls in call order, [skyTransitions] the sky layers activated by
    [updateSkyGradient], [bloomCount] counts [createErrorBloom] calls. *)
Record TelemetryVisualizer := {
  currentActivity : num;
  traceQueue : list TraceItem;
  basePlaybackRate : Z;
  currentPlaybackRate : Z;
  lastTraceCount : Z;
  targetMetricLevel : Q;
  currentSkyId : string;
  presented : list TraceItem;
  skyTransitions : list string;
  bloomCount : nat
}.

(** The constructor (lines 5-27). *)
Definition new_TelemetryVisualizer : TelemetryVisualizer :=
  {| currentActivity := Fin 0;
     traceQueue := [];
     basePlaybackRate := 20;
     currentPlaybackRate := 20;
     lastTraceCount := 0;
     targetMetricLevel := 0;
     currentSkyId := "sky-low";
     presented := [];
     skyTransitions := [];
     bloomCount := 0 |}.

(** *** [adjustPlaybackRate] (lines 277-300) *)

Definition rate_for_queue (base : Z) (queueLength : Z) : Z :=
  if 200 <? queueLength then 1
  else if 100 <? queueLength then 2
  else if 50 <? queueLength then 5
  else if 20 <? queueLength then 10
  else if queueLength <? 5 then base * 2
  else base.

Definition set_rate (v : TelemetryVisualizer) (rate : Z) : TelemetryVisualizer :=
  {| currentActivity := currentActivity v; traceQueue := traceQueue v;
     basePlaybackRate := basePlaybackRate v; currentPlaybackRate := rate;
     lastTraceCount := lastTraceCount v; targetMetricLevel := targetMetricLevel v;
     currentSkyId := currentSkyId v; presented := presented v;
     skyTransitions := skyTransitions v; bloomCount := bloomCount v |}.

Definition adjustPlaybackRate (v : TelemetryVisualizer) : TelemetryVisualizer :=
  set_rate v (rate_for_queue (basePlaybackRate v) (Z.of_nat (length (traceQueue v)))).

(** *** [startConstantRain] (lines 302-316)

    One run of [playNextTrace]: the new state and the delay handed to
    [setTimeout] for the next run. *)
Definition playNextTrace (v : TelemetryVisualizer) : TelemetryVisualizer * Z :=
  let v1 :=
    match traceQueue v with
    | trace :: rest =>
        {| currentActivity := currentActivity v; traceQueue := rest;
           basePlaybackRate := basePlaybackRate v;
           currentPlaybackRate := currentPlaybackRate v;
           lastTraceCount := lastTraceCount v; targetMetricLevel := targetMetricLevel v;
           currentSkyId := currentSkyId v; presented := presented v ++ [trace];
           skyTransitions := skyTransitions v; bloomCount := bloomCount v |}
    | [] => v
    end in
  (v1, currentPlaybackRate v1).

(** [n] successive ticks, with the delays they scheduled. *)
Fixpoint ticks (n : nat) (v : TelemetryVisualizer) : TelemetryVisualizer * list Z :=
  match n with
  | O => (v, [])
  | S n' =>
      let '(v1, d) := playNextTrace v in
      let '(v2, ds) := ticks n' v1 in
      (v2, d :: ds)
  end.

(** *** [updateSkyGradient] (lines 142-172) *)

Definition sky_for_level (targetLevel : Q) : string :=
  if JS.le targetLevel (1 # 10) then "sky-low"
  else if JS.le targetLevel (3 # 10) then "sky-medium"
  else if JS.le targetLevel (6 # 10) then "sky-high"
  else "sky-stress".

Definition updateSkyGradient (targetLevel : Q) (v : TelemetryVisualizer)
    : TelemetryVisualizer :=
  let targetSkyId := sky_for_level targetLevel in
  if negb (String.eqb targetSkyId (currentSkyId v)) then
    {| currentActivity := currentActivity v; traceQueue := traceQueue v;
       basePlaybackRate := basePlaybackRate v;
       currentPlaybackRate := currentPlaybackRate v;
       lastTraceCount := lastTraceCount v; targetMetricLevel := targetMetricLevel v;
       currentSkyId := targetSkyId; presented := presented v;
       skyTransitions := skyTransitions v ++ [targetSkyId];
       bloomCount := bloomCount v |}
  else v.

(** *** [updateVisualization] (lines 79-140) *)

Definition traceActivity (telemetry : AnalyzedTelemetry) : Q :=
  Qmin (inject_Z (count (traces telemetry)) / 10) 1.

Definition metricActivity (telemetry : AnalyzedTelemetry) : num :=
  nmax (nmax (over (cpu (metricsOf telemetry)) 100) (over (memory (metricsOf telemetry)) 100))
       (over (disk (metricsOf telemetry)) 100).

Definition logActivity (telemetry : AnalyzedTelemetry) : Q :=
  Qmin (inject_Z (totalCount (logs telemetry)) / 10) 1.

Definition newActivity (telemetry : AnalyzedTelemetry) : num :=
  nmax (nmax (Fin (traceActivity telemetry)) (metricActivity telemetry))
       (Fin (logActivity telemetry)).

(** Line 91. *)
Definition smooth (current sample : num) : num :=
  nmax (nmax (times current (95 # 100)) sample) (Fin (1 # 10)).

(** Lines 96-105. *)
Definition detectedLevel (metricActivity : num) : Q :=
  if nlt metricActivity (Fin (2 # 10)) then (1 # 10)
  else if nlt metricActivity (Fin (45 # 100)) then (3 # 10)
  else if nlt metricActivity (Fin (8 # 10)) then (6 # 10)
  else 1.

(** Lines 93-112. *)
Definition lock_level (sample : num) (dataType : string) (v : TelemetryVisualizer)
    : TelemetryVisualizer :=
  if String.eqb dataType "metrics" && ngt sample (Fin 0) then
    let level := detectedLevel sample in
    if negb (Qeq_bool level (targetMetricLevel v)) then
      updateSkyGradient level
        {| currentActivity := currentActivity v; traceQueue := traceQueue v;
           basePlaybackRate := basePlaybackRate v;
           currentPlaybackRate := currentPlaybackRate v;
           lastTraceCount := lastTraceCount v; targetMetricLevel := level;
           currentSkyId := currentSkyId v; presented := presented v;
           skyTransitions := skyTransitions v; bloomCount := bloomCount v |}
    else v
  else v.

(** Lines 120-134. *)
Definition buffer_traces (telemetry : AnalyzedTelemetry) (dataType : string)
    (v : TelemetryVisualizer) : TelemetryVisualizer :=
  if String.eqb dataType "traces" && (0 <? count (traces telemetry)) then
    adjustPlaybackRate
      {| currentActivity := currentActivity v;
         traceQueue := traceQueue v ++ traceIds (traces telemetry);
         basePlaybackRate := basePlaybackRate v;
         currentPlaybackRate := currentPlaybackRate v;
         lastTraceCount := count (traces telemetry);
         targetMetricLevel := targetMetricLevel v;
         currentSkyId := currentSkyId v; presented := presented v;
         skyTransitions := skyTransitions v; bloomCount := bloomCount v |}
  else v.

(** Lines 136-139. *)
Definition bloom (telemetry : AnalyzedTelemetry) (v : TelemetryVisualizer)
    : TelemetryVisualizer :=
  if JS.gt (errorRate (traces telemetry)) (3 # 10)
     || JS.gt (logErrorRate (logs telemetry)) (5 # 10) then
    {| currentActivity := currentActivity v; traceQueue := traceQueue v;
       basePlaybackRate := basePlaybackRate v;
       currentPlaybackRate := currentPlaybackRate v;
       lastTraceCount := lastTraceCount v; targetMetricLevel := targetMetricLevel v;
       currentSkyId := currentSkyId v; presented := presented v;
       skyTransitions := skyTransitions v; bloomCount := S (bloomCount v) |}
  else v.

Definition set_activity (v : TelemetryVisualizer) (a : num) : TelemetryVisualizer :=
  {| currentActivity := a; traceQueue := traceQueue v;
     basePlaybackRate := basePlaybackRate v;
     currentPlaybackRate := currentPlaybackRate v;
     lastTraceCount := lastTraceCount v; targetMetricLevel := targetMetricLevel v;
     currentSkyId := currentSkyId v; presented := presented v;
     skyTransitions := skyTransitions v; bloomCount := bloomCount v |}.

Definition updateVisualization (telemetry : AnalyzedTelemetry) (dataType : string)
    (v : TelemetryVisualizer) : TelemetryVisualizer :=
  let v1 := set_activity v (smooth (currentActivity v) (newActivity telemetry)) in
  let v2 := lock_level (metricActivity telemetry) dataType v1 in
  let v3 := buffer_traces telemetry dataType v2 in
  bloom telemetry v3.


(** *** The design document's rate bands, in its words

    Depth 0-4 doubles the baseline, 5-19 is the baseline, 20-49 is
    faster, 50-99 faster still, 100-200 near the floor, above 200 the
    floor. *)
Definition stated_bands (base : Z) (delay : Z → Z) : Prop :=
  ∃ faster faster_still near_floor floor : Z,
    floor <= near_floor ∧ near_floor <= faster_still
    ∧ faster_still < faster ∧ faster < base
    ∧ ∀ d, 0 <= d →
        delay d = if d <=? 4 then 2 * base
                  else if d <=? 19 then base
                  else if d <=? 49 then faster
                  else if d <=? 99 then faster_still
                  else if d <=? 200 then near_floor
                  else floor.

(** The delay a tick would schedule if it recomputed it from the queue
    length at that tick, before or after its own removal. *)
Definition delay_recomputed_at_tick (v : TelemetryVisualizer) : Prop :=
  let '(v', delay) := playNextTrace v in
  delay = rate_for_queue (basePlaybackRate v) (Z.of_nat (length (traceQueue v')))
  ∨ delay = rate_for_queue (basePlaybackRate v) (Z.of_nat (length (traceQueue v))).

(** *** Sample envelopes *)

(** The analysis of a traces envelope with the given trace ids. *)
Definition trace_batch (ids : list string) : AnalyzedTelemetry :=
  {| traces := {| count := Z.of_nat (length ids); errorRate := 0; averageLength := Fin 0;
                  traceIds := (λ i, {| id := i; shortId := String.substring 0 8 i;
                                       isError := false |}) <$> ids |};
     metricsOf := {| cpu := Fin 0; memory := Fin 0; disk := Fin 0; critical := false |};
     logs := {| logErrorRate := 0; totalCount := 0 |} |}.

(** The analysis of a metrics envelope with the given CPU level. *)
Definition cpu_sample (percent : Q) : AnalyzedTelemetry :=
  {| traces := {| count := 0; errorRate := 0; averageLength := Fin 0; traceIds := [] |};
     metricsOf := {| cpu := Fin percent; memory := Fin 0; disk := Fin 0;
                     critical := JS.gt percent 80 |};
     logs := {| logErrorRate := 0; totalCount := 0 |} |}.

(** Five traces arrive at a fresh visualizer, then one tick runs. *)
Definition after_five_and_a_tick : TelemetryVisualizer :=
  (playNextTrace
     (updateVisualization (trace_batch ["a1"; "b2"; "c3"; "d4"; "e5"]) "traces"
        new_TelemetryVisualizer)).1.

End Visualizer.

(** ** Go side: the websocket endpoint and whole runs of the server *)

Module Hub.

Import Extension.

Section Lifecycle.

Context {codecs : Codecs} {transport : Transport}.

(** [handleWebSocket], lines 275-278: the upgraded connection is added
    to the map. *)
Definition register (conn : Conn) (s : sonifierExtension) : sonifierExtension :=
  {| telemetryData := telemetryData s; telemetryType := telemetryType s;
     wsConnections := <[conn := true]> (wsConnections s);
     writes := writes s; closed := closed s |}.

(** [handleWebSocket], lines 283-289: the deferred cleanup, run when the
    read loop ends; the connection is deleted from the map, then closed. *)
Definition unregister (conn : Conn) (s : sonifierExtension) : sonifierExtension :=
  {| telemetryData := telemetryData s; telemetryType := telemetryType s;
     wsConnections := delete conn (wsConnections s);
     writes := writes s; closed := closed s ++ [conn] |}.

(** What happens at the server: a request on an ingestion route, a
    request on [/telemetry-data], a request on [/ws] (whose upgrade
    succeeds or not), and the end of the read loop of a connection. *)
Inductive Event :=
  | Telemetry (r : Request)
  | GetData
  | Open (conn : Conn) (upgraded : bool)
  | ReadEnds (conn : Conn).

Definition handle (s : sonifierExtension) (e : Event) : sonifierExtension :=
  match e with
  | Telemetry r => (handleTelemetry s r).1
  | GetData => s
  | Open conn upgraded => if upgraded then register conn s else s
  | ReadEnds conn => unregister conn s
  end.

Definition run (s : sonifierExtension) (es : list Event) : sonifierExtension :=
  foldl handle s es.

(** [handleTelemetry], lines 190-197: the snapshot slot is overwritten. *)
Definition store_snapshot (body : bytes) (s : sonifierExtension) : sonifierExtension :=
  {| telemetryData := stored_data body (classify body).2;
     telemetryType := (classify body).1;
     wsConnections := wsConnections s; writes := writes s; closed := closed s |}.

(** The request body of an event that reaches the snapshot store. *)
Definition accepted (e : Event) : option bytes :=
  match e with
  | Telemetry r => if String.eqb (Method r) MethodPost then Body r else None
  | _ => None
  end.

(** The message an accepted body is broadcast as, when the envelope can
    be encoded (lines 209-221). *)
Definition broadcast_message (body : bytes) : option bytes :=
  json_Marshal_response (snapshot_envelope body).

(** The messages a run publishes, oldest first. *)
Definition published (es : list Event) : list bytes :=
  omap (λ e, accepted e ≫= broadcast_message) es.

(** An event that can change the state of the extension. *)
Definition effective (e : Event) : bool :=
  match e with
  | Telemetry r => String.eqb (Method r) MethodPost && bool_decide (is_Some (Body r))
  | GetData => false
  | Open _ upgraded => upgraded
  | ReadEnds _ => true
  end.

End Lifecycle.

(** The write calls made on one connection, and the messages it was
    handed successfully. *)
Definition writes_on (conn : Conn) (s : sonifierExtension) : list WriteCall :=
  filter (λ w, w_conn w = conn) (writes s).

Definition delivered_to (conn : Conn) (s : sonifierExtension) : list bytes :=
  w_message <$> filter (λ w, w_ok w = true) (writes_on conn s).

End Hub.

Module Page.

Import Num Analyzer Visualizer.

(** The visualizer together with the [traceDurations] of its
    [TelemetryAnalyzer]. *)
Record Page := { traceDurationsOf : list num; visualizer : TelemetryVisualizer }.

Definition new_Page : Page :=
  {| traceDurationsOf := []; visualizer := new_TelemetryVisualizer |}.

(** What [ws.onmessage] (lines 53-63) finds in a message, by what its
    [try] block does with it.

    - [NoPayload]: the text does not parse, or parses to [null], or
      [data.payload] is falsy: nothing is analysed.
    - [Document raw]: [data.payload] is truthy and the three analyses
      return, as on the document [raw] (a text or a number has none of
      the three fields).
    - [FailsInTraces visited]: [analyzeTraces] throws a [TypeError]
      inside its loops, after it has dealt with the spans [visited].
      It throws where it reads a property of [null], calls [forEach] on
      a property that is not an array, or calls [substring] on a truthy
      trace id that is not a text: each time before line 49 is reached
      for the span at hand.
    - [FailsAfterTraces raw]: [analyzeTraces] returns as on [raw], then
      [analyzeMetrics] or [analyzeLogs] throws.

    The [catch] block only logs.  The elements that
    [updateVisualization] looks up in the page are taken to exist. *)
Inductive Payload :=
  | NoPayload
  | Document (raw : RawTelemetry)
  | FailsInTraces (visited : list Span)
  | FailsAfterTraces (raw : RawTelemetry).

(** What happens on the page: a websocket message, or the playback timer
    firing. *)
Inductive PageEvent :=
  | Message (payload : Payload) (dataType : string)
  | Timer.

(** A message on which [analyzeTraces], if it is called, gets to the
    trimming of lines 66-68. *)
Definition reaches_trim (e : PageEvent) : Prop :=
  match e with
  | Message (FailsInTraces _) _ => False
  | _ => True
  end.

(** The queue item of a span (lines 34-41 of the analyzer), if it has a
    trace id. *)
Definition span_item (span : Span) : option TraceItem :=
  if JS.truthy_string (traceId span) then
    let tid := default "" (traceId span) in
    Some {| id := tid; shortId := String.substring 0 8 tid; isError := is_error_span span |}
  else None.

(** The items a message puts in the queue. *)
Definition queued_by (e : PageEvent) : list TraceItem :=
  match e with
  | Message (Document raw) dataType =>
      if String.eqb dataType "traces" then omap span_item (all_spans raw) else []
  | _ => []
  end.

(** Whether an analysis makes [updateVisualization] create an error
    bloom (line 137). *)
Definition blooms (telemetry : AnalyzedTelemetry) : bool :=
  JS.gt (errorRate (traces telemetry)) (3 # 10)
  || JS.gt (logErrorRate (logs telemetry)) (5 # 10).

(** The sky layer shown for a positive metrics sample, read off the
    thresholds of lines 97-105 and the layers of lines 146-154. *)
Definition sky_of_sample (sample : num) : string :=
  if nlt sample (Fin (2 # 10)) then "sky-low"
  else if nlt sample (Fin (45 # 100)) then "sky-medium"
  else if nlt sample (Fin (8 # 10)) then "sky-high"
  else "sky-stress".

(** The delays [adjustPlaybackRate] can set for the base delay of the
    constructor. *)
Definition delays : list Z := [1; 2; 5; 10; 20; 40].

(** Every document of a run carries utilization gauges that are at most
    one, and disk counters that are numbers. *)
Definition fractions_only (es : list PageEvent) : Prop :=
  ∀ raw dataType,
    Message (Document raw) dataType ∈ es →
    (∀ d, d ∈ all_metrics raw ≫= gauge_values "system.cpu.utilization"
          ∨ d ∈ all_metrics raw ≫= gauge_values "system.memory.utilization" →
          nle d (Fin 1) = true)
    ∧ NaN ∉ all_metrics raw ≫= counter_values "system.disk.io".

(** A document one of whose utilization gauges or disk counters is not
    a number. *)
Definition unreadable (raw : RawTelemetry) : Prop :=
  NaN ∈ all_metrics raw ≫= gauge_values "system.cpu.utilization"
  ∨ NaN ∈ all_metrics raw ≫= gauge_values "system.memory.utilization"
  ∨ NaN ∈ all_metrics raw ≫= counter_values "system.disk.io".

(** A message that gets to [updateVisualization]. *)
Definition analysed (e : PageEvent) : Prop :=
  match e with
  | Message (Document _) _ => True
  | _ => False
  end.

(** A document with none of the three OTLP fields. *)
Definition no_fields : RawTelemetry :=
  {| resourceSpans := None; resourceMetrics := None; resourceLogs := None |}.

(** *** [createRaindrop] (lines 175-224)

    The element built for one trace: its class, its characters, and its
    position. *)
Record Raindrop := {
  className : string;
  chars : list ascii;
  leftPercent : num;
  startY : num
}.

Section Messages.

Context {doubles : Doubles}.

(** The [try] block of [ws.onmessage]. *)
Definition onmessage (payload : Payload) (dataType : string) (p : Page) : Page :=
  match payload with
  | NoPayload => p
  | Document raw =>
      let '(analyzedTelemetry, durations) := analyzeTelemetry (traceDurationsOf p) raw in
      {| traceDurationsOf := durations;
         visualizer := updateVisualization analyzedTelemetry dataType (visualizer p) |}
  | FailsInTraces visited =>
      {| traceDurationsOf :=
           traceDurations (foldl visit_span (fresh_locals (traceDurationsOf p)) visited);
         visualizer := visualizer p |}
  | FailsAfterTraces raw =>
      {| traceDurationsOf := (analyzeTraces (traceDurationsOf p) raw).2;
         visualizer := visualizer p |}
  end.

Definition page_step (p : Page) (e : PageEvent) : Page :=
  match e with
  | Message payload dataType => onmessage payload dataType p
  | Timer => {| traceDurationsOf := traceDurationsOf p;
                visualizer := (playNextTrace (visualizer p)).1 |}
  end.

Definition page_run (p : Page) (es : list PageEvent) : Page := foldl page_step p es.

(** The duration of a span in milliseconds (line 48 of the analyzer),
    if both its timestamps are truthy. *)
Definition span_duration (span : Span) : option num :=
  match endTimeUnixNano span, startTimeUnixNano span with
  | Some e, Some b => Some (duration_of e b)
  | _, _ => None
  end.

(** The running sum of line 50. *)
Definition total_of (ds : list num) : num := foldl nadd (Fin 0) ds.

(** [r1] and [r2] are the two values of [Math.random()]. *)
Definition createRaindrop (trace : TraceItem) (r1 r2 : Q) : Raindrop :=
  let tid := if String.eqb (id trace) "" then shortId trace else id trace in
  {| className := if isError trace then "raindrop error" else "raindrop ";
     chars := omap (λ i, String.get i tid) (seq 0 (Nat.min (String.length tid) 12));
     leftPercent := nmul (Fin r1) (Fin 95);
     startY := nsub (Fin (- (50))) (nmul (Fin r2) (Fin 100)) |}.

End Messages.

End Page.

(** ** Browser side: [rain-engine.js] and the audio switch *)

Module RainEngine.

Import Num.

(** [audioContext] is the handle of the context, or [null]. *)
Record RainEngine := { audioContext : option nat; isInitialized : bool }.

Definition new_RainEngine : RainEngine := {| audioContext := None; isInitialized := false |}.

(** [initialize] (lines 7-18): [fresh] is the context the constructor
    returns, [None] when it throws. *)
Definition initialize (fresh : option nat) (e : RainEngine) : RainEngine * bool :=
  match fresh with
  | Some ctx => ({| audioContext := Some ctx; isInitialized := true |}, true)
  | None => (e, false)
  end.

(** [stop] (lines 60-66). *)
Definition stop (e : RainEngine) : RainEngine :=
  match audioContext e with
  | Some _ => {| audioContext := None; isInitialized := false |}
  | None => e
  end.

(** The noise burst as stored in the buffer, the cutoff handed to the
    filter and the peak gain handed to the gain node. *)
Record Sound := { samples : list num; frequency : num; volume : num }.

Section Sounds.

Context {doubles : Doubles}.

(** The envelope [1 - i / 1024] of line 34. *)
Definition envelope (i : nat) : num :=
  nsub (Fin 1) (div_by (Fin (inject_Z (Z.of_nat i))) 1024).

(** Line 34 and the store into the [Float32Array], [r] being the value
    of [Math.random()]. *)
Definition noise_sample (r : Q) (i : nat) : num :=
  to_single (nmul (nsub (nmul (Fin r) (Fin 2)) (Fin 1)) (envelope i)).

(** [playRaindropSound] (lines 20-56): [random k] is the value of the
    k-th call of [Math.random()]. *)
Definition playRaindropSound (e : RainEngine) (random : nat → Q) : option Sound :=
  match audioContext e with
  | None => None
  | Some _ =>
      Some {| samples := (λ i, noise_sample (random i) i) <$> seq 0 1024;
              frequency := nadd (Fin 2000) (nmul (Fin (random 1024%nat)) (Fin 3000));
              volume := nadd (round (5 # 100))
                          (nmul (Fin (random 1025%nat)) (round (5 # 100))) |}
  end.

End Sounds.

(** The audio switch of the page: [isAudioEnabled] and the engine. *)
Record Audio := { isAudioEnabled : bool; rainEngine : RainEngine }.

Definition new_Audio : Audio := {| isAudioEnabled := false; rainEngine := new_RainEngine |}.

(** The [change] listener of [initializeUI] ([script.js], lines 29-39). *)
Definition audio_toggle (a : Audio) (change : bool * option nat) : Audio :=
  {| isAudioEnabled := change.1;
     rainEngine := if change.1 then (initialize change.2 (rainEngine a)).1
                   else stop (rainEngine a) |}.

(** The sound of a raindrop that lands ([script.js], lines 211-214). *)
Definition landing_sound {doubles : Doubles} (a : Audio) (random : nat → Q)
    : option Sound :=
  if isAudioEnabled a then playRaindropSound (rainEngine a) random else None.

End RainEngine.

(** ** Load generator: [otelgen]

    One iteration of the trace generator and of the log generator, as
    functions of the values [math/rand] hands out. *)

Module Otelgen.

(** The rates of [Config] the two generators read. *)
Record Config := { ErrorRate : Q; HighSeverity : Q }.

(** The random values of one iteration: [Float64 k] is the result of
    [rand.Float64()] at the [k]-th place of the iteration that calls it,
    [Intn k n] the result of [rand.Intn(n)] at the [k]-th place that
    calls it, [getStatusCode] and [getSeverity] counting as one place
    each. *)
Record Rand := { Float64 : nat → Q; Intn : nat → nat → nat }.

(** What [math/rand] documents of its results: [Float64] is in
    [[0.0, 1.0)], [Intn(n)] in [[0, n)]. *)
Definition in_range (r : Rand) : Prop :=
  (∀ k, (0 <= Float64 r k < 1)%Q) ∧ (∀ k n, (0 < n)%nat → (Intn r k n < n)%nat).

Definition less (x y : Q) : bool := negb (Qle_bool y x).

(** [getStatusCode] (lines 392-399); an index out of range panics. *)
Definition getStatusCode (errorRate float64 : Q) (intn : nat → nat) : option Z :=
  if less float64 errorRate then
    let codes := [400; 401; 403; 404; 500; 502; 503] in
    codes !! intn (length codes)
  else
    let codes := [200; 201; 202; 204] in
    codes !! intn (length codes).

Inductive Severity := SeverityInfo | SeverityWarn | SeverityError | SeverityFatal.

(** [getSeverity] (lines 401-407). *)
Definition getSeverity (highSeverityRate float64 : Q) (intn : nat → nat) : option Severity :=
  if less float64 highSeverityRate then
    let severities := [SeverityWarn; SeverityError; SeverityFatal] in
    severities !! intn (length severities)
  else Some SeverityInfo.

(** The [operations] of [generateTraces] (lines 248-257). *)
Definition operations : list string :=
  ["GET /api/users/{id}"; "POST /api/orders"; "GET /api/products";
   "PUT /api/users/{id}"; "DELETE /api/sessions/{id}"; "GET /api/health";
   "POST /api/auth/login"; "GET /api/metrics"].

(** Lines 271-273: [strings.Index] and the two slices, which panic
    when there is no space. *)
Definition split_operation (operation : string) : option (string * string) :=
  spaceIdx ← String.index 0 " " operation;
  Some (String.substring 0 spaceIdx operation,
        String.substring (spaceIdx + 1)
          (String.length operation - (spaceIdx + 1)) operation).

Inductive Code := codes_Error | codes_Ok.

(** The span one iteration ends: its name, its four attributes, the
    error it records and its status. *)
Record GeneratedSpan := {
  name : string;
  http_method : string;
  http_route : string;
  user_id : nat;
  http_status_code : Z;
  recordedError : option string;
  status : Code
}.

(** The [default] branch of [generateTraces] (lines 266-294), the
    sleeps left out. *)
Definition trace_iteration (config : Config) (r : Rand) : option GeneratedSpan :=
  operation ← operations !! Intn r 0 (length operations);
  parts ← split_operation operation;
  code ← getStatusCode (ErrorRate config) (Float64 r 0) (Intn r 2);
  let failed := less (Float64 r 1) (ErrorRate config) in
  Some {| name := operation;
          http_method := parts.1;
          http_route := parts.2;
          user_id := Intn r 1 1000;
          http_status_code := code;
          recordedError := if failed then Some (operation ++ " failed")%string else None;
          status := if failed then codes_Error else codes_Ok |}.

(** The [messages] of [generateLogs] (lines 339-364). *)
Definition messages (severity : Severity) : list string :=
  match severity with
  | SeverityInfo =>
      ["User authentication successful"; "Database connection established";
       "Cache hit for user profile"; "Background job completed"; "Health check passed"]
  | SeverityWarn =>
      ["Cache miss for key: user_profile_123"; "API rate limit approaching";
       "Memory usage above 80%"; "Slow database query detected"]
  | SeverityError =>
      ["Database connection failed"; "Authentication failed for user";
       "Service timeout occurred"; "Disk space critically low"]
  | SeverityFatal =>
      ["Critical system failure"; "Out of memory error"; "Database corruption detected"]
  end.

Record GeneratedLog := {
  body : string;
  severity : Severity;
  log_user_id : nat;
  request_id : nat
}.

(** The ticker branch of [generateLogs] (lines 373-387). *)
Definition log_iteration (config : Config) (r : Rand) : option GeneratedLog :=
  severity ← getSeverity (HighSeverity config) (Float64 r 0) (Intn r 0);
  let severityMessages := messages severity in
  message ← severityMessages !! Intn r 1 (length severityMessages);
  Some {| body := message; severity := severity;
          log_user_id := Intn r 2 1000; request_id := Intn r 3 (Z.to_nat 100000) |}.

(** A source of random values that always hands out its least value
    but for the given [Float64] results. *)
Definition fixed_rand (floats : nat → Q) : Rand :=
  {| Float64 := floats; Intn := λ _ _, 0%nat |}.

End Otelgen.

(** ** An executable instance of the external libraries

    A small JSON reader (RFC 8259 grammar, one value with surrounding
    white space), a protobuf wire-format scanner and a deterministic
    transport.  It serves to run the handlers on concrete requests; no
    theorem about the handlers depends on it. *)

Module RefLib.

Import Extension.
Open Scope char_scope.

Inductive json :=
  | JNull
  | JBool (b : bool)
  | JNumber (lexeme : string)
  | JString (s : string)
  | JArray (elems : list json)
  | JObject (members : list (string * json)).

Definition is_ws (c : ascii) : bool :=
  Ascii.eqb c " " || Ascii.eqb c "009" || Ascii.eqb c "010" || Ascii.eqb c "013".

Fixpoint skip_ws (s : string) : string :=
  match s with
  | String c r => if is_ws c then skip_ws r else s
  | EmptyString => s
  end.

Definition is_digit (c : ascii) : bool :=
  (48 <=? nat_of_ascii c)%nat && (nat_of_ascii c <=? 57)%nat.

Definition is_hex (c : ascii) : bool :=
  let n := nat_of_ascii c in
  is_digit c || ((65 <=? n)%nat && (n <=? 70)%nat) || ((97 <=? n)%nat && (n <=? 102)%nat).

(** The characters after an opening quote, up to the closing one. *)
Fixpoint read_string (s : string) : option (string * string) :=
  match s with
  | EmptyString => None
  | String "034" r => Some (EmptyString, r)
  | String "\" (String "u" (String a (String b (String c (String d r))))) =>
      if is_hex a && is_hex b && is_hex c && is_hex d then
        '(t, r') ← read_string r;
        Some (String "\" (String "u" (String a (String b (String c (String d t))))), r')
      else None
  | String "\" (String e r) =>
      if Ascii.eqb e "034" || Ascii.eqb e "\" || Ascii.eqb e "/" || Ascii.eqb e "b"
         || Ascii.eqb e "f" || Ascii.eqb e "n" || Ascii.eqb e "r" || Ascii.eqb e "t"
      then '(t, r') ← read_string r; Some (String e t, r')
      else None
  | String "\" EmptyString => None
  | String c r =>
      if (nat_of_ascii c <? 32)%nat then None
      else '(t, r') ← read_string r; Some (String c t, r')
  end.

Fixpoint read_digits (s : string) : string * string :=
  match s with
  | String c r =>
      if is_digit c then let '(d, r') := read_digits r in (String c d, r')
      else (EmptyString, s)
  | EmptyString => (EmptyString, s)
  end.

(** [-? int frac? exp?] *)
Definition read_number (s : string) : option (string * string) :=
  let '(sign, s1) := match s with
                     | String "-" r => ("-"%string, r)
                     | _ => (""%string, s)
                     end in
  let '(int, s2) := read_digits s1 in
  match int with
  | EmptyString => None
  | String "0" (String _ _) => None
  | _ =>
      '(frac, s3) ← match s2 with
                    | String "." r =>
                        let '(d, r') := read_digits r in
                        match d with
                        | EmptyString => None
                        | _ => Some (String "." d, r')
                        end
                    | _ => Some (EmptyString, s2)
                    end;
      '(exp, s4) ← match s3 with
                   | String e r =>
                       if Ascii.eqb e "e" || Ascii.eqb e "E" then
                         let '(sg, r1) := match r with
                                          | String "+" r1 => ("+"%string, r1)
                                          | String "-" r1 => ("-"%string, r1)
                                          | _ => (""%string, r)
                                          end in
                         let '(d, r') := read_digits r1 in
                         match d with
                         | EmptyString => None
                         | _ => Some (String e (sg +:+ d), r')
                         end
                       else Some (EmptyString, s3)
                   | EmptyString => Some (EmptyString, s3)
                   end;
      Some (sign +:+ int +:+ frac +:+ exp, s4)
  end.

Definition read_literal (lit : string) (v : json) (s : string) : option (json * string) :=
  if String.prefix lit s
  then Some (v, String.substring (String.length lit) (String.length s - String.length lit) s)
  else None.

(** Recursive descent; [fuel] bounds the nesting and the number of
    elements, the length of the input is always enough. *)
Fixpoint read_value (fuel : nat) (s : string) : option (json * string) :=
  match fuel with
  | O => None
  | S fuel' =>
      match skip_ws s with
      | String "{" r =>
          match skip_ws r with
          | String "}" r' => Some (JObject [], r')
          | _ => '(ms, r') ← read_members fuel' r; Some (JObject ms, r')
          end
      | String "[" r =>
          match skip_ws r with
          | String "]" r' => Some (JArray [], r')
          | _ => '(es, r') ← read_elements fuel' r; Some (JArray es, r')
          end
      | String "034" r => '(t, r') ← read_string r; Some (JString t, r')
      | String "t" _ => read_literal "true" (JBool true) (skip_ws s)
      | String "f" _ => read_literal "false" (JBool false) (skip_ws s)
      | String "n" _ => read_literal "null" JNull (skip_ws s)
      | s' => '(n, r') ← read_number s'; Some (JNumber n, r')
      end
  end
with read_elements (fuel : nat) (s : string) : option (list json * string) :=
  match fuel with
  | O => None
  | S fuel' =>
      '(v, r) ← read_value fuel' s;
      match skip_ws r with
      | String "," r' => '(vs, r'') ← read_elements fuel' r'; Some (v :: vs, r'')
      | String "]" r' => Some ([v], r')
      | _ => None
      end
  end
with read_members (fuel : nat) (s : string) : option (list (string * json) * string) :=
  match fuel with
  | O => None
  | S fuel' =>
      match skip_ws s with
      | String "034" r =>
          '(k, r1) ← read_string r;
          match skip_ws r1 with
          | String ":" r2 =>
              '(v, r3) ← read_value fuel' r2;
              match skip_ws r3 with
              | String "," r4 => '(ms, r5) ← read_members fuel' r4; Some ((k, v) :: ms, r5)
              | String "}" r4 => Some ([(k, v)], r4)
              | _ => None
              end
          | _ => None
          end
      | _ => None
      end
  end.

Definition parse (data : bytes) : option json :=
  let s := String.string_of_list_byte data in
  '(v, r) ← read_value (S (String.length s)) s;
  match skip_ws r with
  | EmptyString => Some v
  | _ => None
  end.

Definition Valid (data : bytes) : bool := bool_decide (is_Some (parse data)).

(** A JSON object fills the map (a later duplicate key wins), [null]
    leaves it empty, any other value is an error. *)
Definition Unmarshal (data : bytes) : option (gmap string json) :=
  match parse data with
  | Some (JObject ms) => Some (list_to_map (reverse ms))
  | Some JNull => Some ∅
  | _ => None
  end.

Definition hex_digit (n : nat) : ascii :=
  ascii_of_nat (if (n <? 10)%nat then 48 + n else 87 + n).

Fixpoint quote_chars (s : string) : string :=
  match s with
  | EmptyString => EmptyString
  | String c r =>
      let n := nat_of_ascii c in
      if Ascii.eqb c "034" || Ascii.eqb c "\" then String "\" (String c (quote_chars r))
      else if (n <? 32)%nat then
        String "\" (String "u" (String "0" (String "0"
          (String (hex_digit (n / 16)) (String (hex_digit (n mod 16)) (quote_chars r))))))
      else String c (quote_chars r)
  end.

Definition Marshal_string (data : bytes) : bytes :=
  String.list_byte_of_string
    (String "034" (quote_chars (String.string_of_list_byte data)) +:+ String "034" EmptyString).

(** A text in which every apostrophe stands for a double quote. *)
Fixpoint requote (s : string) : string :=
  match s with
  | EmptyString => EmptyString
  | String c r => String (if Ascii.eqb c "'" then "034" else c) (requote r)
  end.

Definition Marshal_response (response : Envelope) : option bytes :=
  if Valid (Payload response) then
    Some (String.list_byte_of_string
            (requote "{'type':'" +:+ Type_ response +:+ requote "','payload':")
          ++ Payload response ++ String.list_byte_of_string "}")
  else None.

Close Scope char_scope.

(** *** Protobuf wire format *)

(** Base-128 varint, least significant group first, at most [n] bytes. *)
Fixpoint read_varint (n : nat) (shift : Z) (data : bytes) : option (Z * bytes) :=
  match n, data with
  | S n', b :: r =>
      let v := Z.of_N (Byte.to_N b) in
      if v <? 128 then Some (Z.shiftl v shift, r)
      else '(hi, r') ← read_varint n' (shift + 7) r;
           Some (Z.lor (Z.shiftl (Z.land v 127) shift) hi, r')
  | _, _ => None
  end.

Record Field := { number : Z; wire : Z; content : bytes }.

Definition split_at (n : nat) (data : bytes) : option (bytes * bytes) :=
  if (n <=? length data)%nat then Some (take n data, drop n data) else None.

(** The value of one field, by wire type: varint, 64-bit, length
    delimited, 32-bit.  Groups and unknown wire types are errors. *)
Definition read_content (wt : Z) (r : bytes) : option (bytes * bytes) :=
  if wt =? 0 then '(_, r1) ← read_varint 10 0 r; Some (take (length r - length r1) r, r1)
  else if wt =? 1 then split_at 8 r
  else if wt =? 2 then '(len, r1) ← read_varint 10 0 r; split_at (Z.to_nat len) r1
  else if wt =? 5 then split_at 4 r
  else None.

Fixpoint scan (fuel : nat) (data : bytes) : option (list Field) :=
  match data, fuel with
  | [], _ => Some []
  | _, O => None
  | _, S fuel' =>
      '(tag, r) ← read_varint 10 0 data;
      let num := Z.shiftr tag 3 in
      let wt := Z.land tag 7 in
      if num <=? 0 then None
      else '(c, r') ← read_content wt r;
           fs ← scan fuel' r';
           Some ({| number := num; wire := wt; content := c |} :: fs)
  end.

(** An export request: field 1 is the repeated resource entry, itself a
    message; other fields are skipped.  The decoded request keeps the
    encoded entries. *)
Definition entry_ok (f : Field) : bool :=
  if number f =? 1
  then (wire f =? 2) && bool_decide (is_Some (scan (length (content f)) (content f)))
  else true.

Definition UnmarshalProto (data : bytes) : option (list bytes) :=
  fs ← scan (length data) data;
  if forallb entry_ok fs
  then Some (content <$> filter (λ f, number f = 1) fs)
  else None.

Fixpoint empty_objects (n : nat) : string :=
  match n with
  | O => ""
  | 1%nat => "{}"
  | S n' => "{}," +:+ empty_objects n'
  end.

(** One empty JSON object per resource entry under the marker key. *)
Definition MarshalJSON (marker : string) (req : list bytes) : option bytes :=
  Some (String.list_byte_of_string
          (match req with
           | [] => "{}"
           | _ => requote "{'" +:+ marker +:+ requote "':[" +:+ empty_objects (length req) +:+ "]}"
           end)).

Definition codecs : Codecs :=
  {| json_Valid := Valid;
     JSONValue := json;
     json_Unmarshal := Unmarshal;
     json_Marshal_string := Marshal_string;
     json_Marshal_response := Marshal_response;
     TracesRequest := list bytes;
     MetricsRequest := list bytes;
     LogsRequest := list bytes;
     traces_UnmarshalProto := UnmarshalProto;
     traces_MarshalJSON := MarshalJSON "resourceSpans";
     metrics_UnmarshalProto := UnmarshalProto;
     metrics_MarshalJSON := MarshalJSON "resourceMetrics";
     logs_UnmarshalProto := UnmarshalProto;
     logs_MarshalJSON := MarshalJSON "resourceLogs" |}.

(** Writes to the connections listed in [broken] fail; the map is visited
    in key order. *)
Definition transport (broken : list Conn) : Transport :=
  {| WriteMessage := λ conn _, negb (bool_decide (conn ∈ broken));
     range_order := λ m, (map_to_list m).*1 |}.

(** The bytes of a text, apostrophes standing for double quotes. *)
Definition text (s : string) : bytes := String.list_byte_of_string (requote s).

(** An extension with three subscribers and an empty snapshot. *)
Definition hub : sonifierExtension :=
  {| telemetryData := []; telemetryType := "";
     wsConnections := {[ 1%positive := true; 2%positive := true; 3%positive := true ]};
     writes := []; closed := [] |}.

End RefLib.

(** * Properties of the Go side *)

Module ExtensionFacts.

Import Extension.

Section Normalizer.

Context {codecs : Codecs} {transport : Transport}.

(** The broadcast loop touches neither the buffer nor the type. *)
Lemma broadcast_fold_snapshot message l s :
  telemetryData (foldl (broadcast_one message) s l) = telemetryData s
  ∧ telemetryType (foldl (broadcast_one message) s l) = telemetryType s.
Proof.
  revert s. induction l as [|conn l IH]; intros s; [done|].
  cbn [foldl]. destruct (IH (broadcast_one message s conn)) as [-> ->].
  unfold broadcast_one. by destruct (WriteMessage conn message).
Qed.

Lemma broadcast_snapshot message s :
  telemetryData (broadcastToWebSockets message s) = telemetryData s
  ∧ telemetryType (broadcastToWebSockets message s) = telemetryType s.
Proof. apply broadcast_fold_snapshot. Qed.

(** What a POST with a readable body leaves in the snapshot slot. *)
Lemma handleTelemetry_post s body :
  ∃ s', handleTelemetry s (post body) = (s', {| StatusCode := StatusOK; Written := [] |})
    ∧ telemetryType s' = (classify body).1
    ∧ telemetryData s' = stored_data body (classify body).2.
Proof.
  unfold handleTelemetry, post. cbn.
  destruct (classify body) as [dataType jsonData]. cbn.
  eexists. split; [reflexivity|].
  destruct (json_Marshal_response _) as [messageBytes|]; [|done].
  by destruct (broadcast_snapshot messageBytes
    {| telemetryData := stored_data body jsonData; telemetryType := dataType;
       wsConnections := wsConnections s; writes := writes s; closed := closed s |})
    as [-> ->].
Qed.

Lemma classify_kind body : (classify body).1 = spec_kind body.
Proof.
  unfold classify, spec_kind, marker_kind, first_decoder, decoders.
  destruct (json_Valid body).
  - destruct (json_Unmarshal body) as [obj|]; [|done].
    rewrite !(bool_decide_ext _ _ (elem_of_dom obj _)).
    by repeat case_bool_decide.
  - rewrite !filter_cons, filter_nil. cbn.
    destruct (traces_UnmarshalProto body), (metrics_UnmarshalProto body),
      (logs_UnmarshalProto body); repeat case_decide; try done;
      repeat match goal with
             | H : bool_decide _ = true |- _ => apply bool_decide_eq_true in H
             | H : ¬ (bool_decide _ = true) |- _ => rewrite bool_decide_eq_true in H
             | H : is_Some None |- _ => by destruct H
             | H : ¬ is_Some (Some _) |- _ => by destruct H
             end.
Qed.

Lemma spec_kind_in_kinds body : spec_kind body ∈ kinds.
Proof.
  unfold spec_kind, marker_kind, first_decoder, decoders, kinds.
  destruct (json_Valid body).
  - destruct (json_Unmarshal body); repeat case_bool_decide; set_solver.
  - rewrite !filter_cons, filter_nil. repeat case_decide; cbn; set_solver.
Qed.

Lemma stored_data_same body : stored_data body body = body.
Proof. unfold stored_data. by destruct (0 <? length body)%nat. Qed.

(** Valid JSON is stored unchanged. *)
Lemma classify_json_raw body :
  json_Valid body = true → stored_data body (classify body).2 = body.
Proof.
  intros Hv. unfold classify. rewrite Hv.
  destruct (json_Unmarshal body); repeat case_bool_decide; apply stored_data_same.
Qed.

(** An [unknown] classification always keeps the request body. *)
Lemma classify_unknown_raw body :
  (classify body).1 = "unknown" → stored_data body (classify body).2 = body.
Proof.
  destruct (json_Valid body) eqn:Hv; [intros _; by apply classify_json_raw|].
  unfold classify. rewrite Hv.
  destruct (traces_UnmarshalProto body); [done|].
  destruct (metrics_UnmarshalProto body); [done|].
  destruct (logs_UnmarshalProto body); [done|].
  intros _. apply stored_data_same.
Qed.

(** C1. Normalization is total: a POST of any byte sequence is answered
    with status 200, and leaves in the snapshot a kind among traces,
    metrics, logs, unknown together with a payload.  The kind is the
    design document's: valid JSON is classified by its top-level marker
    key, anything else by the first of the traces, metrics, logs
    decoders that accepts it, and [unknown] when none does, in which
    case the payload is the raw request body. *)
Theorem handleTelemetry_total (s : sonifierExtension) (body : bytes) :
  ∃ s', handleTelemetry s (post body) = (s', {| StatusCode := StatusOK; Written := [] |})
    ∧ telemetryType s' ∈ kinds
    ∧ telemetryType s' = spec_kind body
    ∧ telemetryData s' = stored_data body (classify body).2
    ∧ (json_Valid body = true → telemetryData s' = body)
    ∧ (json_Valid body = false → first_decoder body = "unknown" → telemetryData s' = body)
    ∧ (telemetryType s' = "unknown" → telemetryData s' = body).
Proof.
  destruct (handleTelemetry_post s body) as (s' & Hrun & Hty & Hdata).
  exists s'. rewrite Hty, Hdata, classify_kind.
  split_and!; [done|apply spec_kind_in_kinds|done|done|..].
  - apply classify_json_raw.
  - intros Hv Hnone. apply classify_unknown_raw.
    rewrite classify_kind. unfold spec_kind. by rewrite Hv.
  - intros Hk. apply classify_unknown_raw. by rewrite classify_kind.
Qed.

End Normalizer.

Section EmptyPayload.

Context {codecs : Codecs} {transport : Transport}.

(** [encoding/json]: the empty input is not a JSON text. *)
Hypothesis empty_not_json : json_Valid [] = false.
(** [pdata]: the empty input is the encoding of an export request with
    no resource spans. *)
Hypothesis empty_decodes_as_traces : is_Some (traces_UnmarshalProto []).

(** C10. A POST of the zero-length payload is classified traces, not
    unknown: it is not valid JSON, the traces decoder, tried first,
    accepts it, and the first decoder that accepts wins. *)
Theorem empty_payload_is_traces (s : sonifierExtension) :
  telemetryType (handleTelemetry s (post [])).1 = "traces"
  ∧ first_decoder [] = "traces"
  ∧ (handleTelemetry s (post [])).2 = {| StatusCode := StatusOK; Written := [] |}.
Proof.
  destruct empty_decodes_as_traces as [req Hreq].
  assert (spec_kind [] = "traces") as Hk.
  { rewrite <- classify_kind. unfold classify. by rewrite empty_not_json, Hreq. }
  destruct (handleTelemetry_post s []) as (s' & -> & Hty & _).
  cbn. rewrite Hty, classify_kind. split_and!; [done| |done].
  revert Hk. unfold spec_kind. by rewrite empty_not_json.
Qed.

End EmptyPayload.

Section SnapshotStore.

Context {codecs : Codecs} {transport : Transport}.

(** [encoding/json]: the empty input is not a JSON text. *)
Hypothesis empty_not_json : json_Valid [] = false.
(** [pdata]: the empty input decodes as an empty export request, and
    the JSON rendering of that request is not empty. *)
Hypothesis empty_request_renders :
  ∃ req doc, traces_UnmarshalProto [] = Some req
             ∧ traces_MarshalJSON req = Some doc ∧ doc ≠ [].

(** A non-empty body never leaves the buffer empty, whatever the
    codecs do. *)
Lemma stored_nonempty_body body : body ≠ [] → stored_data body (classify body).2 ≠ [].
Proof.
  intros Hbody. unfold stored_data. by destruct (classify body).2 as [|c l].
Qed.

(** No ingestion leaves the buffer empty. *)
Lemma stored_nonempty body : stored_data body (classify body).2 ≠ [].
Proof using empty_not_json empty_request_renders.
  destruct body as [|b body]; [|by apply stored_nonempty_body].
  destruct empty_request_renders as (req & doc & Hreq & Hdoc & Hne).
  unfold classify. rewrite empty_not_json, Hreq, Hdoc. cbn.
  unfold stored_data. by destruct doc.
Qed.

(** [encoding/json]: the encoding of a Go string is a JSON text. *)
Hypothesis marshal_string_valid : ∀ data, json_Valid (json_Marshal_string data) = true.
(** [encoding/json]: a struct whose [RawMessage] field holds a JSON text
    has an encoding. *)
Hypothesis valid_payload_encodes :
  ∀ k p, json_Valid p = true →
         is_Some (json_Marshal_response {| Type_ := k; Payload := p |}).

Lemma wire_payload_valid p : json_Valid (wire_payload p) = true.
Proof using marshal_string_valid.
  unfold wire_payload. destruct (json_Valid p) eqn:Hp; [done|apply marshal_string_valid].
Qed.

(** A pull on a slot that holds something. *)
Lemma pull_slot s :
  telemetryData s ≠ [] →
  Some (handleGetTelemetryData s) = spec_get (Some (telemetryType s, telemetryData s))
  ∧ StatusCode (handleGetTelemetryData s) = StatusOK.
Proof using marshal_string_valid valid_payload_encodes.
  intros Hdata. unfold handleGetTelemetryData, spec_get, write_envelope.
  destruct (telemetryData s) as [|b data] eqn:Hd; [done|]. cbn [length Nat.eqb].
  change (raw_payload (b :: data)) with (wire_payload (b :: data)).
  destruct (valid_payload_encodes (telemetryType s) (wire_payload (b :: data))
              (wire_payload_valid _)) as [doc ->].
  done.
Qed.

(** The snapshot slot after a run: empty until the first ingestion,
    then what the last ingestion stored. *)
Lemma exec_snapshot cs :
  match last (ingested cs) with
  | Some body =>
      telemetryType (exec newSonifierExtension cs) = (classify body).1
      ∧ telemetryData (exec newSonifierExtension cs) = stored_data body (classify body).2
  | None => telemetryData (exec newSonifierExtension cs) = []
  end.
Proof.
  induction cs as [|c cs IH] using rev_ind; [done|].
  unfold exec in *. rewrite foldl_snoc. set (s := foldl _ _ cs) in *.
  unfold ingested in *. rewrite omap_app.
  destruct c as [[method [body|]]|]; cbn [step fst omap list_omap Method Body].
  - destruct (String.eqb method MethodPost) eqn:Hm.
    + apply String.eqb_eq in Hm as ->. rewrite last_snoc.
      destruct (handleTelemetry_post s body) as (s' & Hrun & Hty & Hdata).
      unfold post in Hrun. by rewrite Hrun.
    + rewrite app_nil_r. unfold handleTelemetry. cbn [Method]. by rewrite Hm.
  - unfold handleTelemetry. cbn [Method Body].
    destruct (String.eqb method MethodPost); by rewrite app_nil_r.
  - by rewrite app_nil_r.
Qed.

(** C2. The pull endpoint returns the pair stored by the last
    ingestion: after any run of ingestions and pulls from the start, a
    pull answers with status 200 and the one-line envelope document of
    the kind and payload that the most recent ingestion stored, the
    payload as it is when it is a JSON text and wrapped in a JSON string
    otherwise; it answers with the no-content status, and nothing else,
    exactly when nothing has been ingested yet.  The same holds for the
    pair found in the slot after an ingestion in any state.  A pull
    leaves the slot as it is, so every pull up to the next ingestion
    gives the same answer. *)
Theorem pull_returns_last_ingested (cs : list Call) :
  Some (handleGetTelemetryData (exec newSonifierExtension cs)) = spec_get (last_put cs)
  ∧ StatusCode (handleGetTelemetryData (exec newSonifierExtension cs))
    = (if bool_decide (ingested cs = []) then StatusNoContent else StatusOK)
  ∧ (∀ s body,
       let s' := (handleTelemetry s (post body)).1 in
       Some (handleGetTelemetryData s') = spec_get (Some (telemetryType s', telemetryData s'))
       ∧ StatusCode (handleGetTelemetryData s') = StatusOK)
  ∧ (∀ s, (step s Pull).1 = s).
Proof using All.
  pose proof (exec_snapshot cs) as H. unfold last_put.
  split; [|split; [|split]].
  - destruct (last (ingested cs)) as [body|]; cbn [fmap option_fmap option_map].
    + destruct H as [Hty Hdata]. rewrite <- classify_kind, <- Hty, <- Hdata.
      apply pull_slot. rewrite Hdata. apply stored_nonempty.
    + unfold handleGetTelemetryData. by rewrite H.
  - destruct (last (ingested cs)) as [body|] eqn:Hlast.
    + rewrite bool_decide_eq_false_2 by (by intros Hnil; rewrite Hnil in Hlast).
      apply pull_slot. destruct H as [_ ->]. apply stored_nonempty.
    + apply last_None in Hlast. rewrite bool_decide_eq_true_2 by done.
      unfold handleGetTelemetryData. by rewrite H.
  - intros s body. cbn zeta. apply pull_slot.
    destruct (handleTelemetry_post s body) as (s1 & Hrun & _ & Hdata).
    rewrite Hrun. cbn [fst]. rewrite Hdata. apply stored_nonempty.
  - done.
Qed.

End SnapshotStore.

Section BroadcastHub.

Context {codecs : Codecs} {transport : Transport}.

(** Go: a [range] over a map from which only the current key is
    deleted visits every key exactly once. *)
Hypothesis range_visits_each_key_once :
  ∀ m : gmap Conn bool, range_order m ≡ₚ (map_to_list m).*1.

Lemma broadcast_one_fields message s conn :
  writes (broadcast_one message s conn) = writes s ++ [attempt message conn]
  ∧ closed (broadcast_one message s conn)
    = closed s ++ (if WriteMessage conn message then [] else [conn])
  ∧ wsConnections (broadcast_one message s conn)
    = if WriteMessage conn message then wsConnections s
      else delete conn (wsConnections s).
Proof.
  unfold broadcast_one, attempt.
  destruct (WriteMessage conn message); cbn; by rewrite ?app_nil_r.
Qed.

Lemma broadcast_fold message l s :
  let s' := foldl (broadcast_one message) s l in
  writes s' = writes s ++ (attempt message <$> l)
  ∧ closed s' = closed s ++ filter (λ c, WriteMessage c message = false) l
  ∧ ∀ c, wsConnections s' !! c
         = if decide (c ∈ l ∧ WriteMessage c message = false) then None
           else wsConnections s !! c.
Proof.
  revert s. induction l as [|conn l IH]; intros s; cbn zeta.
  - cbn [foldl]. rewrite !app_nil_r. split_and!; [done..|].
    intros c. case_decide as H; [|done]. destruct H as [H _]. by apply elem_of_nil in H.
  - cbn [foldl]. destruct (IH (broadcast_one message s conn)) as (Hw & Hc & Hm).
    destruct (broadcast_one_fields message s conn) as (E1 & E2 & E3).
    rewrite Hw, Hc, E1, E2. rewrite fmap_cons, filter_cons, <- !app_assoc.
    split_and!; [done| |].
    { destruct (WriteMessage conn message); by case_decide. }
    intros c. rewrite Hm, E3.
    destruct (decide (c = conn)) as [->|Hne].
    + destruct (WriteMessage conn message) eqn:Hok.
      * rewrite !decide_False; [done|intros [_ ?]; congruence..].
      * rewrite (decide_True (P := conn ∈ conn :: l ∧ _)) by (split; [set_solver|done]).
        case_decide; [done|]. by rewrite lookup_delete_eq.
    + assert ((if WriteMessage conn message then wsConnections s
               else delete conn (wsConnections s)) !! c = wsConnections s !! c) as ->.
      { destruct (WriteMessage conn message); [done|]. by rewrite lookup_delete_ne. }
      apply decide_ext. set_solver.
Qed.

(** C3. [publish] attempts one write of the envelope on every
    subscriber registered when it is called, each exactly once (no
    retry).  The outcome of a write depends on that subscriber alone:
    a failed write closes and removes that subscriber and no other, the
    remaining subscribers stay registered, and the call, which has no
    error result, also leaves the ingestion response at status 200.
    With no subscriber the call changes nothing. *)
Theorem broadcast_fault_isolation (message : bytes) (s : sonifierExtension) :
  let s' := broadcastToWebSockets message s in
  (∃ order,
      order ≡ₚ elements (dom (wsConnections s))
      ∧ writes s' = writes s ++ (attempt message <$> order)
      ∧ closed s' = closed s ++ filter (λ c, WriteMessage c message = false) order)
  ∧ wsConnections s'
    = filter (λ kv, WriteMessage kv.1 message = true) (wsConnections s)
  ∧ telemetryData s' = telemetryData s
  ∧ telemetryType s' = telemetryType s
  ∧ (wsConnections s = ∅ → s' = s)
  ∧ (∀ body, (handleTelemetry s (post body)).2
             = {| StatusCode := StatusOK; Written := [] |}).
Proof using range_visits_each_key_once.
  intros s'. subst s'. unfold broadcastToWebSockets.
  pose proof (range_visits_each_key_once (wsConnections s)) as Hperm.
  destruct (broadcast_fold message (range_order (wsConnections s)) s) as (Hw & Hc & Hm).
  cbn zeta in *. split_and!.
  - exists (range_order (wsConnections s)). split_and!; [|done..].
    rewrite Hperm. apply NoDup_Permutation.
    + apply NoDup_fst_map_to_list.
    + apply NoDup_elements.
    + intros c. rewrite elem_of_elements, elem_of_dom, list_elem_of_fmap. split.
      * intros ([c' b] & -> & Hin). exists b. by apply elem_of_map_to_list.
      * intros [b Hb]. exists (c, b). split; [done|]. by apply elem_of_map_to_list.
  - apply map_eq. intros c. rewrite Hm, map_lookup_filter.
    destruct (wsConnections s !! c) as [b|] eqn:Hlook; cbn.
    + assert (c ∈ range_order (wsConnections s)) as Hin.
      { rewrite Hperm. apply list_elem_of_fmap. exists (c, b). split; [done|].
        by apply elem_of_map_to_list. }
      destruct (WriteMessage c message) eqn:Hok.
      * rewrite decide_False by (intros [_ ?]; done).
        by rewrite option_guard_True.
      * rewrite decide_True by done. by rewrite option_guard_False.
    + by case_decide.
  - apply broadcast_fold_snapshot.
  - apply broadcast_fold_snapshot.
  - intros Hempty.
    assert (range_order (wsConnections s) = []) as ->.
    { apply Permutation_nil_r. by rewrite Hperm, Hempty, map_to_list_empty. }
    done.
  - intros body. by destruct (handleTelemetry_post s body) as (s1 & -> & _).
Qed.

End BroadcastHub.

(** *** The theorems at work on the executable instance *)

Section Instances.

Import RefLib.

Lemma handleTelemetry_total_witness :
  ∃ s', handleTelemetry (codecs := codecs) (transport := transport [2%positive])
          hub (post (text "{'resourceMetrics':[]}"))
        = (s', {| StatusCode := StatusOK; Written := [] |})
    ∧ telemetryType s' = "metrics"
    ∧ telemetryData s' = text "{'resourceMetrics':[]}".
Proof.
  destruct (handleTelemetry_total (codecs := codecs) (transport := transport [2%positive])
              hub (text "{'resourceMetrics':[]}"))
    as (s' & Hrun & _ & Hty & _ & Hjson & _).
  exists s'. split_and!; [exact Hrun|rewrite Hty; vm_compute; reflexivity|].
  apply Hjson. vm_compute. reflexivity.
Defined.

Lemma empty_payload_is_traces_witness :
  json_Valid (Codecs := codecs) [] = false
  ∧ is_Some (traces_UnmarshalProto (Codecs := codecs) [])
  ∧ telemetryType
      (handleTelemetry (codecs := codecs) (transport := transport []) hub (post [])).1
    = "traces".
Proof.
  assert (json_Valid (Codecs := codecs) [] = false) as H1 by (vm_compute; reflexivity).
  assert (is_Some (traces_UnmarshalProto (Codecs := codecs) [])) as H2
    by (exists []; vm_compute; reflexivity).
  split_and!; [exact H1|exact H2|].
  exact (proj1 (empty_payload_is_traces (codecs := codecs) (transport := transport [])
                  H1 H2 hub)).
Defined.

(** The reader accepts what [Marshal_string] writes. *)
Lemma read_string_plain (c : ascii) (t : string) :
  Ascii.eqb c "034" = false → Ascii.eqb c "\" = false →
  read_string (String c t)
  = if (nat_of_ascii c <? 32)%nat then None
    else '(t', r') ← read_string t; Some (String c t', r').
Proof. destruct c as [[] [] [] [] [] [] [] []]; intros H1 H2; try done. Qed.

Lemma append_cons (c : ascii) (x y : string) : String c x +:+ y = String c (x +:+ y).
Proof. reflexivity. Qed.

Lemma read_quoted (s rest : string) :
  ∃ t, read_string (quote_chars s +:+ String "034" rest) = Some (t, rest).
Proof.
  induction s as [|c s [t IH]]; [by eexists|].
  cbn [quote_chars].
  destruct (Ascii.eqb c "034" || Ascii.eqb c "\") eqn:Hq.
  - apply orb_true_iff in Hq as [Hq|Hq]; apply Ascii.eqb_eq in Hq as ->;
      eexists; rewrite !append_cons; cbn; rewrite IH; reflexivity.
  - apply orb_false_iff in Hq as [H1 H2].
    destruct (nat_of_ascii c <? 32)%nat eqn:Hn.
    + destruct c as [[] [] [] [] [] [] [] []]; try done;
        eexists; rewrite !append_cons; cbn; rewrite IH; reflexivity.
    + eexists. rewrite append_cons, read_string_plain, Hn, IH by done. reflexivity.
Qed.

Lemma Marshal_string_Valid (data : bytes) : Valid (Marshal_string data) = true.
Proof.
  unfold Valid, parse, Marshal_string. apply bool_decide_eq_true_2.
  rewrite String.string_of_list_byte_of_string.
  destruct (read_quoted (String.string_of_list_byte data) "") as [t Ht].
  rewrite append_cons. cbn. rewrite Ht. by eexists.
Qed.

Lemma pull_returns_last_ingested_witness :
  json_Valid (Codecs := codecs) [] = false
  ∧ (∀ data, json_Valid (Codecs := codecs)
               (json_Marshal_string (Codecs := codecs) data) = true)
  ∧ handleGetTelemetryData (codecs := codecs)
      (exec (codecs := codecs) (transport := transport []) newSonifierExtension
         [Pull; Ingest (post (text "hello")); Ingest (post (text "{'resourceLogs':[]}")); Pull])
    = {| StatusCode := StatusOK;
         Written := text "{'type':'logs','payload':{'resourceLogs':[]}}" ++ [Byte.x0a] |}
  ∧ handleGetTelemetryData (codecs := codecs)
      (exec (codecs := codecs) (transport := transport []) newSonifierExtension
         [Ingest (post (text "{'resourceLogs':[]}")); Ingest (post (text "hello")); Pull; Pull])
    = {| StatusCode := StatusOK;
         Written := text "{'type':'unknown','payload':'hello'}" ++ [Byte.x0a] |}.
Proof.
  assert (json_Valid (Codecs := codecs) [] = false) as H1 by (vm_compute; reflexivity).
  assert (∃ req doc, traces_UnmarshalProto (Codecs := codecs) [] = Some req
                     ∧ traces_MarshalJSON (Codecs := codecs) req = Some doc ∧ doc ≠ [])
    as H2 by (exists [], (text "{}"); split_and!; [vm_compute; reflexivity..|discriminate]).
  assert (∀ data, json_Valid (Codecs := codecs)
                    (json_Marshal_string (Codecs := codecs) data) = true) as H3
    by exact Marshal_string_Valid.
  assert (∀ k p, json_Valid (Codecs := codecs) p = true →
                 is_Some (json_Marshal_response (Codecs := codecs)
                            {| Type_ := k; Payload := p |})) as H4.
  { intros k p Hp. cbn. unfold Marshal_response. cbn [Payload].
    cbn in Hp. rewrite Hp. by eexists. }
  split_and!; [exact H1|exact H3|..].
  - apply (inj Some).
    rewrite (proj1 (pull_returns_last_ingested (codecs := codecs) (transport := transport [])
                      H1 H2 H3 H4 _)).
    vm_compute. reflexivity.
  - apply (inj Some).
    rewrite (proj1 (pull_returns_last_ingested (codecs := codecs) (transport := transport [])
                      H1 H2 H3 H4 _)).
    vm_compute. reflexivity.
Defined.

Lemma broadcast_fault_isolation_witness :
  (∀ m : gmap Conn bool,
      range_order (Transport := transport [2%positive]) m ≡ₚ (map_to_list m).*1)
  ∧ wsConnections
      (broadcastToWebSockets (transport := transport [2%positive]) (text "{}") hub)
    = {[ 1%positive := true; 3%positive := true ]}.
Proof.
  assert (∀ m : gmap Conn bool,
            range_order (Transport := transport [2%positive]) m ≡ₚ (map_to_list m).*1)
    as H by (intros m; reflexivity).
  split; [exact H|].
  destruct (broadcast_fault_isolation (codecs := codecs) (transport := transport [2%positive])
              H (text "{}") hub) as (_ & -> & _).
  vm_compute. reflexivity.
Defined.

End Instances.

End ExtensionFacts.

(** * Properties of the numbers *)

Module NumFacts.

Import Num.

(** Case analysis on every number of the context, then on every
    comparison of rationals, leaving goals of linear arithmetic. *)
Ltac num_cases :=
  repeat match goal with x : num |- _ => destruct x end;
  cbn in *; try done.

Ltac to_Q :=
  repeat match goal with
         | H : Qle_bool _ _ = true |- _ => apply Qle_bool_iff in H
         | H : Qle_bool _ _ = false |- _ =>
             apply not_true_iff_false in H; rewrite Qle_bool_iff in H; apply Qnot_le_lt in H
         | H : negb _ = true |- _ => apply negb_true_iff in H
         | H : negb _ = false |- _ => apply negb_false_iff in H
         | |- Qle_bool _ _ = true => apply Qle_bool_iff
         | |- Qle_bool _ _ = false =>
             apply not_true_iff_false; rewrite Qle_bool_iff; apply Qlt_not_le
         | |- negb _ = true => apply negb_true_iff
         | |- negb _ = false => apply negb_false_iff
         end.

Ltac num_solve :=
  num_cases; repeat (case_match; simplify_eq; cbn in *); try done; to_Q; try done; try lra.

#[export] Instance same_equivalence : Equivalence same.
Proof.
  split.
  - intros x. num_solve.
  - intros x y H. num_solve.
  - intros x y z H1 H2. num_solve.
Qed.

Lemma nle_Fin (a b : Q) : nle (Fin a) (Fin b) = true ↔ (a <= b)%Q.
Proof. apply Qle_bool_iff. Qed.

Lemma nlt_Fin (a b : Q) : nlt (Fin a) (Fin b) = true ↔ (a < b)%Q.
Proof.
  cbn. rewrite negb_true_iff, <- not_true_iff_false, Qle_bool_iff.
  split; [apply Qnot_le_lt|apply Qlt_not_le].
Qed.

#[export] Instance nle_proper : Proper (same ==> same ==> eq) nle.
Proof.
  intros x x' Hx y y' Hy. apply eq_true_iff_eq.
  destruct x, x', y, y'; cbn in *; try done. rewrite !Qle_bool_iff. by rewrite Hx, Hy.
Qed.

#[export] Instance nlt_proper : Proper (same ==> same ==> eq) nlt.
Proof.
  intros x x' Hx y y' Hy. apply eq_true_iff_eq.
  destruct x, x', y, y'; cbn in *; try done.
  rewrite !negb_true_iff, <- !not_true_iff_false, !Qle_bool_iff. by rewrite Hx, Hy.
Qed.

#[export] Instance ngt_proper : Proper (same ==> same ==> eq) ngt.
Proof. intros x x' Hx y y' Hy. unfold ngt. by rewrite Hx, Hy. Qed.

#[export] Instance nmax_proper : Proper (same ==> same ==> same) nmax.
Proof.
  intros x x' Hx y y' Hy. unfold nmax.
  rewrite (nle_proper x x' Hx y y' Hy).
  destruct x, x', y, y'; cbn in *; try done; by case_match.
Qed.

#[export] Instance nmin_proper : Proper (same ==> same ==> same) nmin.
Proof.
  intros x x' Hx y y' Hy. unfold nmin.
  rewrite (nle_proper x x' Hx y y' Hy).
  destruct x, x', y, y'; cbn in *; try done; by case_match.
Qed.

#[export] Instance times_proper : Proper (same ==> Qeq ==> same) times.
Proof. intros x x' Hx c c' Hc. destruct x, x'; cbn in *; try done. by rewrite Hx, Hc. Qed.

#[export] Instance over_proper : Proper (same ==> Qeq ==> same) over.
Proof. intros x x' Hx c c' Hc. destruct x, x'; cbn in *; try done. by rewrite Hx, Hc. Qed.

#[export] Instance Fin_proper : Proper (Qeq ==> same) Fin.
Proof. by intros a b H. Qed.

(** ** Order *)

Lemma nle_refl (x : num) : x ≠ NaN → nle x x = true.
Proof. intros H. num_solve. Qed.

Lemma nle_trans (x y z : num) : nle x y = true → nle y z = true → nle x z = true.
Proof. intros H1 H2. num_solve. Qed.

Lemma nle_antisym (x y : num) : nle x y = true → nle y x = true → same x y.
Proof. intros H1 H2. num_solve. Qed.

Lemma nle_not_NaN (x y : num) : nle x y = true → x ≠ NaN ∧ y ≠ NaN.
Proof. intros H. num_solve. Qed.

Lemma nlt_not_NaN (x y : num) : nlt x y = true → x ≠ NaN ∧ y ≠ NaN.
Proof. intros H. num_solve. Qed.

Lemma nle_total (x y : num) : x ≠ NaN → y ≠ NaN → nle x y = true ∨ nle y x = true.
Proof.
  intros Hx Hy. destruct x, y; cbn; try done; try (by left); try (by right).
  destruct (Qlt_le_dec q q0) as [Hlt|Hle].
  - left. apply Qle_bool_iff. lra.
  - right. by apply Qle_bool_iff.
Qed.

Lemma nlt_nle (x y : num) : nlt x y = true → nle x y = true.
Proof. intros H. num_solve. Qed.

Lemma nle_nlt_trans (x y z : num) : nle x y = true → nlt y z = true → nlt x z = true.
Proof. intros H1 H2. num_solve. Qed.

Lemma nlt_nle_trans (x y z : num) : nlt x y = true → nle y z = true → nlt x z = true.
Proof. intros H1 H2. num_solve. Qed.

Lemma nlt_false_nle (x y : num) : x ≠ NaN → y ≠ NaN → nlt x y = false → nle y x = true.
Proof. intros Hx Hy H. num_solve. Qed.

Lemma nle_nlt_false (x y : num) : nle y x = true → nlt x y = false.
Proof. intros H. num_solve. Qed.

(** ** Greatest and least of two *)

Lemma nmax_NaN_l (y : num) : nmax NaN y = NaN.
Proof. done. Qed.

Lemma nmax_NaN_r (x : num) : nmax x NaN = NaN.
Proof. by destruct x. Qed.

Lemma nmax_is_NaN (x y : num) : nmax x y = NaN ↔ x = NaN ∨ y = NaN.
Proof.
  split.
  - destruct x, y; cbn; try (by left); try (by right); try done; by case_match.
  - intros [->| ->]; [done|apply nmax_NaN_r].
Qed.

Lemma nmax_cases (x y : num) :
  x ≠ NaN → y ≠ NaN →
  (nmax x y = y ∧ nle x y = true) ∨ (nmax x y = x ∧ nle y x = true).
Proof.
  intros Hx Hy. destruct (nle x y) eqn:Hle.
  - left. split; [|done]. unfold nmax. rewrite Hle. by destruct x, y.
  - right. split.
    + unfold nmax. rewrite Hle. by destruct x, y.
    + destruct (nle_total x y Hx Hy) as [H|H]; [congruence|done].
Qed.

Lemma nmax_le_l (x y : num) : x ≠ NaN → y ≠ NaN → nle x (nmax x y) = true.
Proof.
  intros Hx Hy. destruct (nmax_cases x y Hx Hy) as [[-> H]|[-> H]]; [done|by apply nle_refl].
Qed.

Lemma nmax_le_r (x y : num) : x ≠ NaN → y ≠ NaN → nle y (nmax x y) = true.
Proof.
  intros Hx Hy. destruct (nmax_cases x y Hx Hy) as [[-> H]|[-> H]]; [by apply nle_refl|done].
Qed.

Lemma nmax_lub (x y z : num) :
  nle x z = true → nle y z = true → nle (nmax x y) z = true.
Proof.
  intros Hx Hy. destruct (nle_not_NaN _ _ Hx) as [Nx _], (nle_not_NaN _ _ Hy) as [Ny _].
  by destruct (nmax_cases x y Nx Ny) as [[-> _]|[-> _]].
Qed.


Lemma nmax_take (x y : num) : nle x y = true → nmax x y = y.
Proof. intros H. unfold nmax. rewrite H. by destruct x, y. Qed.

Lemma nmin_is_NaN (x y : num) : nmin x y = NaN ↔ x = NaN ∨ y = NaN.
Proof.
  split.
  - destruct x, y; cbn; try (by left); try (by right); try done; by case_match.
  - intros [->| ->]; [done|by destruct x].
Qed.

Lemma nmin_le_l (x y : num) : x ≠ NaN → y ≠ NaN → nle (nmin x y) x = true.
Proof.
  intros Hx Hy. unfold nmin. destruct (nle x y) eqn:Hle.
  - destruct x, y; try done; by apply nle_refl.
  - destruct (nle_total x y Hx Hy) as [H|H]; [congruence|]. by destruct x, y.
Qed.

(** ** Scaling by a positive constant *)

Lemma times_is_NaN (x : num) (c : Q) : times x c = NaN ↔ x = NaN.
Proof. by destruct x. Qed.

Lemma over_is_NaN (x : num) (c : Q) : over x c = NaN ↔ x = NaN.
Proof. by destruct x. Qed.

Lemma times_mono (x y : num) (c : Q) :
  (0 < c)%Q → nle x y = true → nle (times x c) (times y c) = true.
Proof.
  intros Hc H. destruct x, y; cbn in *; try done. to_Q.
  apply Qmult_le_compat_r; lra.
Qed.

Lemma over_mono (x y : num) (c : Q) :
  (0 < c)%Q → nle x y = true → nle (over x c) (over y c) = true.
Proof.
  intros Hc H. destruct x, y; cbn in *; try done. to_Q.
  apply Qmult_le_compat_r; [done|]. apply Qlt_le_weak, Qinv_lt_0_compat, Hc.
Qed.



(** ** The greatest of a list *)

Lemma foldl_nmax_NaN (vs : list num) : foldl nmax NaN vs = NaN.
Proof. induction vs as [|v vs IH]; [done|]. done. Qed.

Lemma foldl_nmax_greatest (vs : list num) (x0 : num) :
  x0 ≠ NaN →
  let x := foldl nmax x0 vs in
  (NaN ∈ vs → x = NaN)
  ∧ (NaN ∉ vs →
     nle x0 x = true ∧ (∀ v, v ∈ vs → nle v x = true) ∧ (x = x0 ∨ x ∈ vs)).
Proof.
  revert x0. induction vs as [|v vs IH]; intros x0 Hx0; cbn zeta.
  - cbn. split; [by intros H%elem_of_nil|]. intros _.
    split_and!; [by apply nle_refl| |by left]. by intros v H%elem_of_nil.
  - cbn [foldl]. assert (v = NaN ∨ v ≠ NaN) as [->|Hv] by (destruct v; [by left|by right..]).
    + rewrite nmax_NaN_r, foldl_nmax_NaN. split; [done|]. intros H. contradict H. apply elem_of_cons. by left.
    + assert (nmax x0 v ≠ NaN) as Hm by (rewrite nmax_is_NaN; tauto).
      destruct (IH (nmax x0 v) Hm) as [Hnan Hgreat]. split.
      * intros Hin. apply Hnan. apply elem_of_cons in Hin as [Hin|Hin]; [by destruct Hv|done].
      * intros Hnot. destruct Hgreat as (Hle & Hall & Hmem).
        { intros Hin. apply Hnot, elem_of_cons. by right. }
        split_and!.
        -- apply (nle_trans _ (nmax x0 v)); [by apply nmax_le_l|exact Hle].
        -- intros w Hw. apply elem_of_cons in Hw as [->|Hw]; [|by apply Hall].
           apply (nle_trans _ (nmax x0 v)); [by apply nmax_le_r|exact Hle].
        -- destruct Hmem as [Heq|Hin]; [|by right; apply elem_of_cons; right].
           rewrite Heq.
           destruct (nmax_cases x0 v Hx0 Hv) as [[Hmax _]|[Hmax _]];
             rewrite Hmax; [right; apply elem_of_cons; by left|by left].
Qed.

Lemma NaN_in_or_not (vs : list num) : NaN ∈ vs ∨ NaN ∉ vs.
Proof.
  induction vs as [|v vs [IH|IH]].
  - right. by intros H%elem_of_nil.
  - left. apply elem_of_cons. by right.
  - destruct v; [left; apply elem_of_cons; by left|right..];
      intros [H|H]%elem_of_cons; done.
Qed.

(** The greatest of 0 and a list is NaN exactly when the list holds
    NaN. *)
Lemma foldl_nmax_is_NaN (vs : list num) : foldl nmax (Fin 0) vs = NaN ↔ NaN ∈ vs.
Proof.
  destruct (foldl_nmax_greatest vs (Fin 0)) as [Hnan Hgreat]; [done|].
  split; [|exact Hnan]. intros Heq.
  destruct (NaN_in_or_not vs) as [Hin|Hnot]; [done|].
  destruct (Hgreat Hnot) as (Hle & _). rewrite Heq in Hle. done.
Qed.

(** ** Sums *)

Section Sums.

Context {doubles : Doubles}.

Lemma nadd_NaN_r (x : num) : nadd x NaN = NaN.
Proof. by destruct x. Qed.

Lemma foldl_nadd_NaN (ds : list num) : foldl nadd NaN ds = NaN.
Proof. by induction ds. Qed.

Lemma foldl_nadd_has_NaN (ds : list num) (x : num) : NaN ∈ ds → foldl nadd x ds = NaN.
Proof.
  revert x. induction ds as [|d ds IH]; intros x Hin; [by apply elem_of_nil in Hin|].
  cbn [foldl]. apply elem_of_cons in Hin as [<-|Hin]; [|by apply IH].
  by rewrite nadd_NaN_r, foldl_nadd_NaN.
Qed.

End Sums.

(** ** Rounding *)

Section Rounding.

Context {doubles : Doubles} {nearest : Nearest doubles}.

#[export] Instance round_proper : Proper (Qeq ==> same) round.
Proof.
  intros a b H. apply nle_antisym; apply round_mono; rewrite H; apply Qle_refl.
Qed.

#[export] Instance single_proper : Proper (Qeq ==> same) round_single.
Proof.
  intros a b H. apply nle_antisym; apply single_mono; rewrite H; apply Qle_refl.
Qed.

Lemma round_integer (n : Z) :
  Z.abs n <= 2 ^ 43 → same (round (inject_Z n)) (Fin (inject_Z n)).
Proof.
  intros Hn.
  assert (inject_Z (n * 1024) / 1024 == inject_Z n)%Q as Heq.
  { rewrite inject_Z_mult. field. }
  rewrite <- Heq. apply round_small. lia.
Qed.

(** A value between two doubles rounds to a finite value between
    them. *)
Lemma round_within (lo hi q : Q) :
  same (round lo) (Fin lo) → same (round hi) (Fin hi) → (lo <= q <= hi)%Q →
  ∃ y, round q = Fin y ∧ (lo <= y <= hi)%Q.
Proof.
  intros Hlo Hhi [H1 H2].
  pose proof (round_mono lo q H1) as L. pose proof (round_mono q hi H2) as U.
  rewrite (nle_proper _ _ Hlo _ _ (reflexivity _)) in L.
  rewrite (nle_proper _ _ (reflexivity _) _ _ Hhi) in U.
  destruct (round q) as [| |y|]; cbn in *; try done.
  exists y. split; [done|]. to_Q. done.
Qed.

Lemma single_within (lo hi q : Q) :
  same (round_single lo) (Fin lo) → same (round_single hi) (Fin hi) → (lo <= q <= hi)%Q →
  ∃ y, round_single q = Fin y ∧ (lo <= y <= hi)%Q.
Proof.
  intros Hlo Hhi [H1 H2].
  pose proof (single_mono lo q H1) as L. pose proof (single_mono q hi H2) as U.
  rewrite (nle_proper _ _ Hlo _ _ (reflexivity _)) in L.
  rewrite (nle_proper _ _ (reflexivity _) _ _ Hhi) in U.
  destruct (round_single q) as [| |y|]; cbn in *; try done.
  exists y. split; [done|]. to_Q. done.
Qed.

Lemma round_nonneg (q : Q) : (0 <= q)%Q → nle (Fin 0) (round q) = true.
Proof.
  intros Hq. pose proof (round_mono 0 q Hq) as H.
  by rewrite (nle_proper _ _ (round_integer 0 ltac:(done)) _ _ (reflexivity _)) in H.
Qed.

(** Sums and quotients of numbers that are not negative. *)
Lemma nadd_nonneg (x y : num) :
  nle (Fin 0) x = true → nle (Fin 0) y = true → nle (Fin 0) (nadd x y) = true.
Proof.
  intros Hx Hy. destruct x as [| |a|], y as [| |b|]; cbn in *; try done.
  to_Q. apply round_nonneg. lra.
Qed.

Lemma div_by_nonneg (x : num) (c : Q) :
  (0 < c)%Q → nle (Fin 0) x = true → nle (Fin 0) (div_by x c) = true.
Proof.
  intros Hc Hx. destruct x as [| |a|]; cbn in *; try done. to_Q.
  apply round_nonneg. apply Qle_shift_div_l; [done|]. lra.
Qed.

Lemma foldl_nadd_nonneg (ds : list num) (x : num) :
  nle (Fin 0) x = true → Forall (λ d, nle (Fin 0) d = true) ds →
  nle (Fin 0) (foldl nadd x ds) = true.
Proof.
  intros Hx Hds. revert x Hx. induction Hds as [|d ds Hd _ IH]; intros x Hx; [done|].
  cbn [foldl]. apply IH. by apply nadd_nonneg.
Qed.

End Rounding.

(** Arithmetic without rounding has these properties. *)
#[export] Instance no_rounding_nearest : Nearest no_rounding.
Proof.
  split; cbn.
  - intros a b H. by apply Qle_bool_iff.
  - intros k _. reflexivity.
  - intros q y [= ->]. reflexivity.
  - intros a b H. by apply Qle_bool_iff.
  - intros k _. reflexivity.
Qed.

End NumFacts.

(** * Properties of the analyzer *)

Module AnalyzerFacts.

Import Num NumFacts Analyzer.

(** ** Loops over nested arrays *)

Lemma forEach_foldl {A S : Type} (f : S → A → S) (o : option (list A)) (s : S) :
  JS.forEach f o s = foldl f s (default [] o).
Proof. by destruct o. Qed.

Lemma foldl_bind {A B S : Type} (f : S → B → S) (g : A → list B) (l : list A) (s : S) :
  foldl f s (l ≫= g) = foldl (λ s x, foldl f s (g x)) s l.
Proof.
  revert s. induction l as [|x l IH]; intros s; [done|].
  by rewrite bind_cons, foldl_app, IH.
Qed.

Lemma foldl_same {A S : Type} (f g : S → A → S) (l : list A) (s : S) :
  (∀ s x, f s x = g s x) → foldl f s l = foldl g s l.
Proof.
  intros Hfg. revert s. induction l as [|x l IH]; intros s; [done|].
  cbn. by rewrite Hfg, IH.
Qed.

Lemma visit_all_logs (raw : RawTelemetry) (a : Z * Z) :
  foldl visit_resourceLogs a (default [] (resourceLogs raw))
  = foldl visit_log a (all_logs raw).
Proof.
  unfold all_logs. rewrite foldl_bind. apply foldl_same. intros s rl.
  unfold visit_resourceLogs. rewrite forEach_foldl, foldl_bind.
  apply foldl_same. intros s' sl. unfold visit_scopeLogs. by rewrite forEach_foldl.
Qed.

Lemma visit_all_metrics (raw : RawTelemetry) (a : MetricAcc) :
  foldl visit_resourceMetrics a (default [] (resourceMetrics raw))
  = foldl visit_metric a (all_metrics raw).
Proof.
  unfold all_metrics. rewrite foldl_bind. apply foldl_same. intros s rm.
  unfold visit_resourceMetrics. rewrite forEach_foldl, foldl_bind.
  apply foldl_same. intros s' sm. unfold visit_scopeMetrics. by rewrite forEach_foldl.
Qed.

(** ** Counters *)

Lemma flagged_cons {A : Type} (p : A → bool) (x : A) (l : list A) :
  flagged p (x :: l) = (if p x then 1 else 0) + flagged p l.
Proof.
  unfold flagged. rewrite filter_cons. destruct (p x); cbn [length].
  - rewrite decide_True by done. cbn [length]. lia.
  - rewrite decide_False by done. lia.
Qed.

Lemma flagged_bounds {A : Type} (p : A → bool) (l : list A) :
  0 <= flagged p l <= Z.of_nat (length l).
Proof. unfold flagged. pose proof (length_filter (λ x, p x = true) l). lia. Qed.

Lemma log_counters (l : list LogRecord) (a : Z * Z) :
  (foldl visit_log a l).1 = a.1 + Z.of_nat (length l)
  ∧ (foldl visit_log a l).2 = a.2 + flagged is_error_log l.
Proof.
  revert a. induction l as [|log l IH]; intros a.
  - unfold flagged. cbn. lia.
  - cbn [foldl]. destruct (IH (visit_log a log)) as [-> ->].
    rewrite flagged_cons. unfold visit_log.
    destruct (is_error_log log); cbn [fst snd length]; lia.
Qed.

(** ** Ratios *)

Lemma ratio_spec (e t : Z) :
  0 <= t → (ratio e t == if t =? 0 then 0 else inject_Z e / inject_Z t)%Q.
Proof.
  intros Ht. unfold ratio.
  destruct (Z.ltb_spec 0 t), (Z.eqb_spec t 0); try lia; reflexivity.
Qed.

Lemma ratio_unit_interval (e t : Z) :
  0 <= e <= t → (0 <= ratio e t <= 1)%Q.
Proof.
  intros [He Het]. unfold ratio. destruct (Z.ltb_spec 0 t) as [Ht|Ht].
  - assert (0 < inject_Z t)%Q as Hpos by (unfold Qlt; cbn; lia).
    split.
    + apply Qle_shift_div_l; [exact Hpos|]. rewrite Qmult_0_l.
      unfold Qle. cbn. lia.
    + apply Qle_shift_div_r; [exact Hpos|]. rewrite Qmult_1_l.
      unfold Qle. cbn. lia.
  - split; [apply Qle_refl|]. by unfold Qle.
Qed.

(** ** Error rates *)

Section ErrorRates.

Context {doubles : Doubles}.

(** The three nested [forEach] of [analyzeTraces] visit [all_spans]. *)
Lemma visit_all_spans (raw : RawTelemetry) (a : TraceAcc) :
  foldl visit_resourceSpans a (default [] (resourceSpans raw))
  = foldl visit_span a (all_spans raw).
Proof.
  unfold all_spans. rewrite foldl_bind. apply foldl_same. intros s rs.
  unfold visit_resourceSpans. rewrite forEach_foldl, foldl_bind.
  apply foldl_same. intros s' ss. unfold visit_scopeSpans. by rewrite forEach_foldl.
Qed.

Lemma span_counters (l : list Span) (a : TraceAcc) :
  totalTraces (foldl visit_span a l) = totalTraces a + Z.of_nat (length l)
  ∧ errorTraces (foldl visit_span a l) = errorTraces a + flagged is_error_span l.
Proof.
  revert a. induction l as [|span l IH]; intros a.
  - unfold flagged. cbn. lia.
  - cbn [foldl]. destruct (IH (visit_span a span)) as [-> ->].
    rewrite flagged_cons. unfold visit_span.
    destruct (endTimeUnixNano span), (startTimeUnixNano span), (is_error_span span);
      cbn [totalTraces errorTraces length]; lia.
Qed.

(** C7. The trace and the log error rates lie in [[0,1]]; each equals
    errors/total when the total is positive and 0 when it is 0, the
    total being the number of spans (of log records) in the payload and
    the errors those flagged as such.  A payload of three spans with
    one flagged gives count 3 and error rate 1/3. *)
Theorem error_rates (durations : list num) (raw : RawTelemetry) :
  let t := (analyzeTraces durations raw).1 in
  let l := analyzeLogs raw in
  let total := Z.of_nat (length (all_spans raw)) in
  let errors := flagged is_error_span (all_spans raw) in
  let records := Z.of_nat (length (all_logs raw)) in
  let bad := flagged is_error_log (all_logs raw) in
  count t = total
  ∧ (errorRate t == if total =? 0 then 0 else inject_Z errors / inject_Z total)%Q
  ∧ (0 <= errorRate t <= 1)%Q
  ∧ totalCount l = records
  ∧ (logErrorRate l == if records =? 0 then 0 else inject_Z bad / inject_Z records)%Q
  ∧ (0 <= logErrorRate l <= 1)%Q
  ∧ (total = 3 → errors = 1 → count t = 3 ∧ (errorRate t == 1 # 3)%Q).
Proof.
  intros t l total errors records bad.
  assert (count t = total ∧ errorRate t = ratio errors total) as [Hcount Hrate].
  { subst t total errors. unfold analyzeTraces, all_spans.
    destruct (resourceSpans raw) as [rs|] eqn:Hrs; [|done]. cbn [fst count errorRate].
    pose proof (visit_all_spans raw) as Hflat. rewrite Hrs in Hflat. cbn [default] in Hflat.
    rewrite Hflat. unfold all_spans. rewrite Hrs. cbn [default].
    match goal with |- context [foldl visit_span ?a ?l] =>
      destruct (span_counters l a) as [-> ->] end.
    cbn [totalTraces errorTraces]. by rewrite !Z.add_0_l. }
  assert (totalCount l = records ∧ logErrorRate l = ratio bad records) as [Hlcount Hlrate].
  { subst l records bad. unfold analyzeLogs, all_logs.
    destruct (resourceLogs raw) as [rl|] eqn:Hrl; [|done]. cbn [totalCount logErrorRate].
    pose proof (visit_all_logs raw) as Hflat. rewrite Hrl in Hflat. cbn [default] in Hflat.
    rewrite Hflat. unfold all_logs. rewrite Hrl. cbn [default].
    match goal with |- context [foldl visit_log ?a ?l] =>
      destruct (log_counters l a) as [-> ->] end.
    cbn [fst snd]. by rewrite !Z.add_0_l. }
  pose proof (flagged_bounds is_error_span (all_spans raw)) as Hb.
  pose proof (flagged_bounds is_error_log (all_logs raw)) as Hlb.
  rewrite Hrate, Hlrate.
  split_and!; try done.
  - apply ratio_spec. subst total. lia.
  - apply ratio_unit_interval. done.
  - apply ratio_unit_interval. done.
  - apply ratio_spec. subst records. lia.
  - apply ratio_unit_interval. done.
  - apply ratio_unit_interval. done.
  - intros H3 H1. split; [congruence|]. by rewrite H3, H1.
Qed.

End ErrorRates.

Lemma error_rates_witness :
  let t := (analyzeTraces (doubles := no_rounding) [] three_spans).1 in
  Z.of_nat (length (all_spans three_spans)) = 3
  ∧ flagged is_error_span (all_spans three_spans) = 1
  ∧ count t = 3 ∧ (errorRate t == 1 # 3)%Q.
Proof.
  assert (Z.of_nat (length (all_spans three_spans)) = 3) as H3 by reflexivity.
  assert (flagged is_error_span (all_spans three_spans) = 1) as H1 by reflexivity.
  split_and!; [exact H3|exact H1|..];
    apply (error_rates (doubles := no_rounding) [] three_spans); assumption.
Defined.

(** ** Resource levels *)

Lemma gauge_points_max (cur : num) (points : list DataPoint) :
  foldl gauge_point cur points = foldl nmax cur (percent <$> omap asDouble points).
Proof.
  revert cur. induction points as [|point points IH]; intros cur; [done|].
  cbn [foldl omap list_omap]. rewrite IH. unfold gauge_point.
  by destruct (asDouble point).
Qed.

Lemma disk_points_max (cur : num) (points : list DataPoint) :
  foldl disk_point cur points = foldl nmax cur (capped <$> omap asInt points).
Proof.
  revert cur. induction points as [|point points IH]; intros cur; [done|].
  cbn [foldl omap list_omap]. rewrite IH. unfold disk_point.
  by destruct (asInt point).
Qed.

(** One metric updates each level by the maximum with its own values. *)
Lemma visit_metric_levels (a : MetricAcc) (metric : Metric) :
  m_cpu (visit_metric a metric)
  = foldl nmax (m_cpu a) (percent <$> gauge_values "system.cpu.utilization" metric)
  ∧ m_memory (visit_metric a metric)
    = foldl nmax (m_memory a) (percent <$> gauge_values "system.memory.utilization" metric)
  ∧ m_disk (visit_metric a metric)
    = foldl nmax (m_disk a) (capped <$> counter_values "system.disk.io" metric).
Proof.
  unfold visit_metric, gauge_values, counter_values. cbn [m_cpu m_memory m_disk].
  split_and!.
  - destruct (gauge metric) as [dataPoints|]; [|done].
    destruct (String.eqb (name metric) _); [|done].
    by rewrite forEach_foldl, gauge_points_max.
  - destruct (gauge metric) as [dataPoints|]; [|done].
    destruct (String.eqb (name metric) _); [|done].
    by rewrite forEach_foldl, gauge_points_max.
  - destruct (sum metric) as [dataPoints|]; [|done].
    destruct (String.eqb (name metric) _); [|done].
    by rewrite forEach_foldl, disk_points_max.
Qed.

Lemma visit_metrics_levels (ms : list Metric) (a : MetricAcc) :
  m_cpu (foldl visit_metric a ms)
  = foldl nmax (m_cpu a) (percent <$> (ms ≫= gauge_values "system.cpu.utilization"))
  ∧ m_memory (foldl visit_metric a ms)
    = foldl nmax (m_memory a) (percent <$> (ms ≫= gauge_values "system.memory.utilization"))
  ∧ m_disk (foldl visit_metric a ms)
    = foldl nmax (m_disk a) (capped <$> (ms ≫= counter_values "system.disk.io")).
Proof.
  revert a. induction ms as [|metric ms IH]; intros a; [done|].
  cbn [foldl]. destruct (IH (visit_metric a metric)) as (-> & -> & ->).
  destruct (visit_metric_levels a metric) as (-> & -> & ->).
  by rewrite !bind_cons, !fmap_app, !foldl_app.
Qed.

(** The three levels as greatest elements, and the flag. *)
Lemma levels_as_folds (raw : RawTelemetry) :
  let m := analyzeMetrics raw in
  cpu m = foldl nmax (Fin 0)
            (percent <$> (all_metrics raw ≫= gauge_values "system.cpu.utilization"))
  ∧ memory m = foldl nmax (Fin 0)
                 (percent <$> (all_metrics raw ≫= gauge_values "system.memory.utilization"))
  ∧ disk m = foldl nmax (Fin 0)
               (capped <$> (all_metrics raw ≫= counter_values "system.disk.io"))
  ∧ critical m = ngt (cpu m) (Fin 80) || ngt (memory m) (Fin 80) || ngt (disk m) (Fin 80).
Proof.
  cbn zeta. unfold analyzeMetrics, all_metrics.
  destruct (resourceMetrics raw) as [rm|] eqn:Hrm; [|done].
  cbn [cpu memory disk critical].
  pose proof (visit_all_metrics raw) as Hflat. rewrite Hrm in Hflat. cbn [default] in Hflat.
  rewrite Hflat. unfold all_metrics. rewrite Hrm. cbn [default].
  match goal with |- context [foldl visit_metric ?a ?l] =>
    destruct (visit_metrics_levels l a) as (-> & -> & ->) end.
  done.
Qed.

Lemma foldl_nmax_from_zero (vs : list num) : greatest_or_zero (foldl nmax (Fin 0) vs) vs.
Proof.
  destruct (foldl_nmax_greatest vs (Fin 0)) as [Hnan Hgreat]; [done|].
  split; [exact Hnan|]. intros Hnot.
  destruct (Hgreat Hnot) as (Hle & Hall & Hmem). split_and!; [done..|].
  destruct Hmem as [->|Hin]; [by left|]. right. by eexists.
Qed.

Lemma percent_is_NaN (vs : list num) : NaN ∈ percent <$> vs ↔ NaN ∈ vs.
Proof.
  rewrite list_elem_of_fmap. split.
  - intros (d & Hd & Hin). symmetry in Hd. apply times_is_NaN in Hd. by subst.
  - intros Hin. by exists NaN.
Qed.

Lemma capped_is_NaN (vs : list num) : NaN ∈ capped <$> vs ↔ NaN ∈ vs.
Proof.
  rewrite list_elem_of_fmap. split.
  - intros (d & Hd & Hin). symmetry in Hd. unfold capped in Hd. apply nmin_is_NaN in Hd as [Hd|Hd]; [done|].
    apply over_is_NaN in Hd. by subst.
  - intros Hin. by exists NaN.
Qed.

Lemma percent_le (d : num) : nle d (Fin 1) = true → nle (percent d) (Fin 100) = true.
Proof. intros H. destruct d; cbn in *; try done. to_Q. lra. Qed.

Lemma capped_le (k : num) : k ≠ NaN → nle (capped k) (Fin 100) = true.
Proof.
  intros H. apply nmin_le_l; [done|]. by rewrite over_is_NaN.
Qed.

(** A level made of fractions lies in [[0,100]]; so does one made of
    counters that are numbers. *)
Lemma gauge_level_within (x : num) (vs : list num) :
  greatest_or_zero x (percent <$> vs) →
  (∀ d, d ∈ vs → nle d (Fin 1) = true) →
  nle (Fin 0) x = true ∧ nle x (Fin 100) = true.
Proof.
  intros [_ Hgreat] Hle.
  destruct Hgreat as (Hpos & _ & Hmemb).
  { rewrite percent_is_NaN. intros Hin. by specialize (Hle _ Hin). }
  split; [done|]. destruct Hmemb as [Hz|(v & Hv & Heq)].
  - by rewrite (nle_proper _ _ Hz _ _ (reflexivity _)).
  - rewrite (nle_proper _ _ Heq _ _ (reflexivity _)).
    apply list_elem_of_fmap in Hv as (d & -> & Hd). by apply percent_le, Hle.
Qed.

Lemma counter_level_within (x : num) (vs : list num) :
  greatest_or_zero x (capped <$> vs) → NaN ∉ vs →
  nle (Fin 0) x = true ∧ nle x (Fin 100) = true.
Proof.
  intros [_ Hgreat] Hnot.
  destruct Hgreat as (Hpos & _ & Hmemb); [by rewrite capped_is_NaN|].
  split; [done|]. destruct Hmemb as [Hz|(v & Hv & Heq)].
  - by rewrite (nle_proper _ _ Hz _ _ (reflexivity _)).
  - rewrite (nle_proper _ _ Heq _ _ (reflexivity _)).
    apply list_elem_of_fmap in Hv as (k & -> & Hk). apply capped_le.
    intros ->. by apply Hnot.
Qed.

(** A level is NaN exactly when one of its observed values is. *)
Lemma levels_NaN (raw : RawTelemetry) :
  let m := analyzeMetrics raw in
  (cpu m = NaN ↔ NaN ∈ all_metrics raw ≫= gauge_values "system.cpu.utilization")
  ∧ (memory m = NaN ↔ NaN ∈ all_metrics raw ≫= gauge_values "system.memory.utilization")
  ∧ (disk m = NaN ↔ NaN ∈ all_metrics raw ≫= counter_values "system.disk.io").
Proof.
  destruct (levels_as_folds raw) as (Hcpu & Hmem & Hdisk & _). cbn zeta in *.
  rewrite Hcpu, Hmem, Hdisk, !foldl_nmax_is_NaN, !percent_is_NaN, capped_is_NaN. done.
Qed.

(** C6, as the code has it.  The cpu and memory levels are the greatest
    of 0 and the observed gauge values times 100, not capped: they lie in
    [[0,100]] when no observed gauge value exceeds 1.  The disk level is
    the greatest of 0 and the observed counter values divided by 100 and
    capped at 100: it lies in [[0,100]] when every counter value is a
    number.  A level is NaN as soon as one of its observed values is NaN.
    The critical flag is set exactly when one of the three levels exceeds
    80, which a level that is NaN does not. *)
Theorem metric_levels (raw : RawTelemetry) :
  let m := analyzeMetrics raw in
  let cpus := all_metrics raw ≫= gauge_values "system.cpu.utilization" in
  let mems := all_metrics raw ≫= gauge_values "system.memory.utilization" in
  let disks := all_metrics raw ≫= counter_values "system.disk.io" in
  greatest_or_zero (cpu m) (percent <$> cpus)
  ∧ greatest_or_zero (memory m) (percent <$> mems)
  ∧ greatest_or_zero (disk m) (capped <$> disks)
  ∧ (NaN ∈ cpus → cpu m = NaN)
  ∧ (NaN ∈ mems → memory m = NaN)
  ∧ (NaN ∈ disks → disk m = NaN)
  ∧ (NaN ∉ disks → nle (Fin 0) (disk m) = true ∧ nle (disk m) (Fin 100) = true)
  ∧ (critical m = true
     ↔ ngt (cpu m) (Fin 80) = true ∨ ngt (memory m) (Fin 80) = true
       ∨ ngt (disk m) (Fin 80) = true)
  ∧ ((∀ d, d ∈ cpus → nle d (Fin 1) = true) →
     nle (Fin 0) (cpu m) = true ∧ nle (cpu m) (Fin 100) = true)
  ∧ ((∀ d, d ∈ mems → nle d (Fin 1) = true) →
     nle (Fin 0) (memory m) = true ∧ nle (memory m) (Fin 100) = true).
Proof.
  intros m cpus mems disks.
  destruct (levels_as_folds raw) as (Hcpu & Hmem & Hdisk & Hcrit).
  fold m cpus mems disks in Hcpu, Hmem, Hdisk, Hcrit.
  pose proof (foldl_nmax_from_zero (percent <$> cpus)) as Gcpu.
  pose proof (foldl_nmax_from_zero (percent <$> mems)) as Gmem.
  pose proof (foldl_nmax_from_zero (capped <$> disks)) as Gdisk.
  rewrite <- Hcpu in Gcpu. rewrite <- Hmem in Gmem. rewrite <- Hdisk in Gdisk.
  split_and!; [done..| | | | | | |].
  - intros Hin. apply Gcpu. by apply percent_is_NaN.
  - intros Hin. apply Gmem. by apply percent_is_NaN.
  - intros Hin. apply Gdisk. by apply capped_is_NaN.
  - by apply counter_level_within.
  - rewrite Hcrit, !orb_true_iff. tauto.
  - by apply gauge_level_within.
  - by apply gauge_level_within.
Qed.

Lemma metric_levels_witness :
  let cpus := all_metrics busy_host ≫= gauge_values "system.cpu.utilization" in
  let disks := all_metrics busy_host ≫= counter_values "system.disk.io" in
  let m := analyzeMetrics busy_host in
  (∀ d, d ∈ cpus → nle d (Fin 1) = true)
  ∧ (NaN ∉ disks)
  ∧ (NaN ∈ all_metrics unreadable_counter ≫= counter_values "system.disk.io")
  ∧ (nle (Fin 0) (cpu m) = true ∧ nle (cpu m) (Fin 100) = true)
  ∧ (nle (Fin 0) (disk m) = true ∧ nle (disk m) (Fin 100) = true)
  ∧ disk (analyzeMetrics unreadable_counter) = NaN.
Proof.
  intros cpus disks m.
  assert (∀ d, d ∈ cpus → nle d (Fin 1) = true) as Hcpus.
  { intros d Hd. vm_compute in Hd. apply list_elem_of_singleton in Hd as ->. by vm_compute. }
  assert (NaN ∉ disks) as Hdisks.
  { intros Hd. vm_compute in Hd. by apply list_elem_of_singleton in Hd. }
  assert (NaN ∈ all_metrics unreadable_counter ≫= counter_values "system.disk.io") as Hnan.
  { vm_compute. apply list_elem_of_singleton. reflexivity. }
  destruct (metric_levels busy_host) as (_ & _ & _ & _ & _ & _ & Hdisk & _ & Hcpu & _).
  destruct (metric_levels unreadable_counter) as (_ & _ & _ & _ & _ & Hbad & _).
  exact (conj Hcpus (conj Hdisks (conj Hnan
           (conj (Hcpu Hcpus) (conj (Hdisk Hdisks) (Hbad Hnan)))))).
Defined.

(** C6 as stated fails: a CPU gauge point at 1.5 gives a cpu level of
    150, and a disk counter that is not numeric gives a disk level that
    is not a number. *)
Lemma cpu_level_above_100 :
  same (cpu (analyzeMetrics overloaded)) (Fin 150)
  ∧ nle (cpu (analyzeMetrics overloaded)) (Fin 100) = false
  ∧ disk (analyzeMetrics unreadable_counter) = NaN
  ∧ nle (disk (analyzeMetrics unreadable_counter)) (Fin 100) = false.
Proof. by vm_compute. Qed.

End AnalyzerFacts.

(** * Properties of the visualizer *)

Module VisualizerFacts.

Import Num NumFacts Analyzer Visualizer.

(** ** Rate controller *)

(** Case analysis on every threshold comparison of the goal, then linear
    arithmetic. *)
Ltac by_bands :=
  repeat match goal with
         | |- context [(?a <=? ?b)%nat] => destruct (Nat.leb_spec a b)
         | |- context [?a <? ?b] => destruct (Z.ltb_spec a b)
         end; lia.

Lemma rate_for_queue_bands (base : Z) (n : nat) :
  rate_for_queue base (Z.of_nat n)
  = if (n <=? 4)%nat then 2 * base
    else if (n <=? 20)%nat then base
    else if (n <=? 50)%nat then 10
    else if (n <=? 100)%nat then 5
    else if (n <=? 200)%nat then 2
    else 1.
Proof.
  unfold rate_for_queue. by_bands.
Qed.

(** C4 as stated fails. The bands of the design document do not fit: a
    queue of 20 is still played at the baseline delay, which the
    document puts in the faster band. *)
Lemma stated_bands_fail_at_20 :
  ¬ stated_bands 20 (rate_for_queue 20) ∧ rate_for_queue 20 20 = 20.
Proof.
  split; [|reflexivity].
  intros (faster & faster_still & near_floor & floor & _ & _ & _ & Hlt & Hbands).
  specialize (Hbands 20 ltac:(lia)). vm_compute in Hbands. lia.
Qed.

Lemma lock_level_rate sample dataType v :
  currentPlaybackRate (lock_level sample dataType v) = currentPlaybackRate v
  ∧ traceQueue (lock_level sample dataType v) = traceQueue v
  ∧ basePlaybackRate (lock_level sample dataType v) = basePlaybackRate v
  ∧ presented (lock_level sample dataType v) = presented v
  ∧ currentActivity (lock_level sample dataType v) = currentActivity v.
Proof.
  unfold lock_level, updateSkyGradient.
  destruct (String.eqb dataType "metrics" && ngt sample (Fin 0)); [|done].
  destruct (negb (Qeq_bool _ _)); [|done].
  cbn [currentSkyId]. by destruct (negb (String.eqb _ _)).
Qed.

Lemma bloom_fields telemetry v :
  currentPlaybackRate (bloom telemetry v) = currentPlaybackRate v
  ∧ traceQueue (bloom telemetry v) = traceQueue v
  ∧ basePlaybackRate (bloom telemetry v) = basePlaybackRate v
  ∧ presented (bloom telemetry v) = presented v
  ∧ currentActivity (bloom telemetry v) = currentActivity v
  ∧ targetMetricLevel (bloom telemetry v) = targetMetricLevel v
  ∧ currentSkyId (bloom telemetry v) = currentSkyId v
  ∧ skyTransitions (bloom telemetry v) = skyTransitions v.
Proof. unfold bloom. by destruct (_ || _). Qed.

Lemma buffer_traces_fields telemetry dataType v :
  currentActivity (buffer_traces telemetry dataType v) = currentActivity v
  ∧ targetMetricLevel (buffer_traces telemetry dataType v) = targetMetricLevel v
  ∧ currentSkyId (buffer_traces telemetry dataType v) = currentSkyId v
  ∧ skyTransitions (buffer_traces telemetry dataType v) = skyTransitions v
  ∧ presented (buffer_traces telemetry dataType v) = presented v
  ∧ basePlaybackRate (buffer_traces telemetry dataType v) = basePlaybackRate v.
Proof. unfold buffer_traces. by destruct (_ && _). Qed.

(** What the arrival of a non-empty traces envelope does to the queue and
    to the stored delay. *)
Lemma traces_arrival telemetry v :
  0 < count (traces telemetry) →
  let v' := updateVisualization telemetry "traces" v in
  traceQueue v' = traceQueue v ++ traceIds (traces telemetry)
  ∧ currentPlaybackRate v'
    = rate_for_queue (basePlaybackRate v)
        (Z.of_nat (length (traceQueue v ++ traceIds (traces telemetry)))).
Proof.
  intros Hcount v'. subst v'. unfold updateVisualization.
  destruct (bloom_fields telemetry
    (buffer_traces telemetry "traces"
       (lock_level (metricActivity telemetry) "traces"
          (set_activity v (smooth (currentActivity v) (newActivity telemetry))))))
    as (-> & -> & _).
  unfold buffer_traces. cbn [String.eqb Ascii.eqb Bool.eqb andb].
  apply Z.ltb_lt in Hcount as ->.
  by unfold lock_level.
Qed.

(** Any other envelope leaves the queue and the stored delay alone. *)
Lemma other_arrival telemetry dataType v :
  dataType ≠ "traces" ∨ count (traces telemetry) <= 0 →
  let v' := updateVisualization telemetry dataType v in
  traceQueue v' = traceQueue v ∧ currentPlaybackRate v' = currentPlaybackRate v.
Proof.
  intros Hother v'. subst v'. unfold updateVisualization.
  destruct (bloom_fields telemetry
    (buffer_traces telemetry dataType
       (lock_level (metricActivity telemetry) dataType
          (set_activity v (smooth (currentActivity v) (newActivity telemetry))))))
    as (-> & -> & _).
  assert (String.eqb dataType "traces" && (0 <? count (traces telemetry)) = false) as Hskip.
  { apply andb_false_iff. destruct Hother as [Hty|Hcount].
    - left. by apply String.eqb_neq.
    - right. by apply Z.ltb_ge. }
  unfold buffer_traces. rewrite Hskip.
  by destruct (lock_level_rate (metricActivity telemetry) dataType
          (set_activity v (smooth (currentActivity v) (newActivity telemetry))))
    as (-> & -> & _).
Qed.

(** C4, as the code has it. The delay is a non-increasing step function
    of the queue depth with bands 0-4 (double the baseline), 5-20
    (baseline), 21-50 (10 ms), 51-100 (5 ms), 101-200 (2 ms) and above
    200 (1 ms, the floor).  A burst that takes the queue from empty to
    300 sets the floor delay at once. *)
Theorem rate_bands (base : Z) (n m : nat) :
  rate_for_queue base (Z.of_nat n)
  = (if (n <=? 4)%nat then 2 * base
     else if (n <=? 20)%nat then base
     else if (n <=? 50)%nat then 10
     else if (n <=? 100)%nat then 5
     else if (n <=? 200)%nat then 2
     else 1)
  ∧ (10 <= base → (n ≤ m)%nat →
     rate_for_queue base (Z.of_nat m) <= rate_for_queue base (Z.of_nat n))
  ∧ (∀ v, (200 < length (traceQueue v))%nat →
          currentPlaybackRate (adjustPlaybackRate v) = 1)
  ∧ (∀ v telemetry,
        traceQueue v = [] → 0 < count (traces telemetry) →
        length (traceIds (traces telemetry)) = 300%nat →
        currentPlaybackRate (updateVisualization telemetry "traces" v) = 1).
Proof.
  split_and!.
  - apply rate_for_queue_bands.
  - intros Hbase Hnm. rewrite !rate_for_queue_bands.
    by_bands.
  - intros v Hlen. unfold adjustPlaybackRate. cbn [currentPlaybackRate set_rate].
    rewrite rate_for_queue_bands.
    by_bands.
  - intros v telemetry Hempty Hcount Hlen.
    destruct (traces_arrival telemetry v Hcount) as [_ ->].
    by rewrite Hempty, app_nil_l, Hlen.
Qed.

Lemma rate_bands_witness :
  (10 <= 20) ∧ (3 ≤ 250)%nat
  ∧ rate_for_queue 20 (Z.of_nat 250) <= rate_for_queue 20 (Z.of_nat 3)
  ∧ currentPlaybackRate
      (updateVisualization (trace_batch (replicate 300 "4bf92f3577b34da6")) "traces"
         new_TelemetryVisualizer) = 1.
Proof.
  assert (10 <= 20) as Hbase by lia.
  assert (3 ≤ 250)%nat as Hnm by lia.
  destruct (rate_bands 20 3 250) as (_ & Hmono & _ & Hburst).
  split_and!; [exact Hbase|exact Hnm|by apply Hmono|].
  apply Hburst; [reflexivity|reflexivity|].
  cbn [traces traceIds trace_batch]. by rewrite length_fmap, length_replicate.
Defined.

(** ** Playback queue *)

(** C5 as stated fails. The delay of a tick is not recomputed at the
    tick: after five traces have arrived and one has been played, the
    next tick schedules the delay computed on arrival (20), while the
    queue length at the tick, before (4) or after (3) the removal, calls
    for 40. *)
Lemma tick_reuses_arrival_delay :
  ¬ delay_recomputed_at_tick after_five_and_a_tick
  ∧ (playNextTrace after_five_and_a_tick).2 = 20
  ∧ rate_for_queue 20 4 = 40 ∧ rate_for_queue 20 3 = 40.
Proof.
  split_and!; [|reflexivity..].
  unfold delay_recomputed_at_tick. vm_compute. intros [H|H]; discriminate H.
Qed.

Lemma playNextTrace_step (v : TelemetryVisualizer) :
  traceQueue (playNextTrace v).1 = drop 1 (traceQueue v)
  ∧ presented (playNextTrace v).1 = presented v ++ take 1 (traceQueue v)
  ∧ currentPlaybackRate (playNextTrace v).1 = currentPlaybackRate v
  ∧ basePlaybackRate (playNextTrace v).1 = basePlaybackRate v
  ∧ (playNextTrace v).2 = currentPlaybackRate v.
Proof.
  unfold playNextTrace. destruct (traceQueue v) as [|trace rest] eqn:Hq; cbn.
  - by rewrite Hq, app_nil_r.
  - by rewrite drop_0.
Qed.

Lemma ticks_run (n : nat) (v : TelemetryVisualizer) :
  traceQueue (ticks n v).1 = drop n (traceQueue v)
  ∧ presented (ticks n v).1 = presented v ++ take n (traceQueue v)
  ∧ currentPlaybackRate (ticks n v).1 = currentPlaybackRate v
  ∧ (ticks n v).2 = replicate n (currentPlaybackRate v).
Proof.
  revert v. induction n as [|n IH]; intros v.
  - cbn. by rewrite drop_0, app_nil_r.
  - cbn [ticks]. destruct (playNextTrace_step v) as (Hq & Hr & Hc & _ & Hd).
    destruct (playNextTrace v) as [v1 d]. cbn [fst snd] in *.
    destruct (IH v1) as (Hq' & Hr' & Hc' & Hd').
    destruct (ticks n v1) as [v2 ds]. cbn [fst snd] in *.
    rewrite Hq', Hr', Hc', Hd', Hq, Hr, Hc, Hd.
    split_and!; [|..|done|done].
    + by rewrite drop_drop.
    + rewrite <- app_assoc. f_equal.
      destruct (traceQueue v); cbn; by rewrite ?take_nil, ?drop_0.
Qed.

(** C5, as the code has it. A tick on a non-empty queue removes exactly
    one item, the oldest, and hands it to presentation; over any number
    of ticks the items are presented in arrival order.  A tick does not
    recompute the delay: it schedules the next tick with the stored
    delay and leaves it unchanged.  The stored delay is recomputed from
    the queue length when a non-empty traces envelope arrives, whose
    items are appended at the back of the queue. *)
Theorem playback_fifo (v : TelemetryVisualizer) (n : nat) :
  match traceQueue v with
  | [] => (playNextTrace v).1 = v
  | trace :: rest =>
      traceQueue (playNextTrace v).1 = rest
      ∧ presented (playNextTrace v).1 = presented v ++ [trace]
  end
  ∧ (playNextTrace v).2 = currentPlaybackRate v
  ∧ currentPlaybackRate (playNextTrace v).1 = currentPlaybackRate v
  ∧ traceQueue (ticks n v).1 = drop n (traceQueue v)
  ∧ presented (ticks n v).1 = presented v ++ take n (traceQueue v)
  ∧ (ticks n v).2 = replicate n (currentPlaybackRate v)
  ∧ (∀ telemetry,
        0 < count (traces telemetry) →
        let v' := updateVisualization telemetry "traces" v in
        traceQueue v' = traceQueue v ++ traceIds (traces telemetry)
        ∧ currentPlaybackRate v'
          = rate_for_queue (basePlaybackRate v) (Z.of_nat (length (traceQueue v'))))
  ∧ (∀ telemetry dataType,
        dataType ≠ "traces" ∨ count (traces telemetry) <= 0 →
        let v' := updateVisualization telemetry dataType v in
        traceQueue v' = traceQueue v ∧ currentPlaybackRate v' = currentPlaybackRate v).
Proof.
  destruct (playNextTrace_step v) as (Hq & Hr & Hc & _ & Hd).
  destruct (ticks_run n v) as (Tq & Tr & _ & Td).
  split_and!; try done.
  - unfold playNextTrace. by destruct (traceQueue v).
  - intros telemetry Hcount v'.
    destruct (traces_arrival telemetry v Hcount) as [Hqueue Hrate].
    subst v'. by rewrite Hrate, Hqueue.
  - intros telemetry dataType Hother. by apply other_arrival.
Qed.

Lemma playback_fifo_witness :
  let v := updateVisualization (trace_batch ["a1"; "b2"; "c3"]) "traces"
             new_TelemetryVisualizer in
  0 < count (traces (trace_batch ["d4"]))
  ∧ id <$> presented (ticks 2 v).1 = ["a1"; "b2"]
  ∧ id <$> traceQueue (updateVisualization (trace_batch ["d4"]) "traces" v)
    = ["a1"; "b2"; "c3"; "d4"].
Proof.
  intros v.
  assert (0 < count (traces (trace_batch ["d4"]))) as Hcount by reflexivity.
  destruct (playback_fifo v 2) as (_ & _ & _ & _ & Hr & _ & Harrive & _).
  destruct (Harrive (trace_batch ["d4"]) Hcount) as [Hq _].
  split_and!; [exact Hcount|by rewrite Hr|by rewrite Hq].
Defined.

(** ** Activity smoothing *)

Lemma updateVisualization_activity telemetry dataType v :
  currentActivity (updateVisualization telemetry dataType v)
  = smooth (currentActivity v) (newActivity telemetry).
Proof.
  unfold updateVisualization.
  destruct (bloom_fields telemetry
    (buffer_traces telemetry dataType
       (lock_level (metricActivity telemetry) dataType
          (set_activity v (smooth (currentActivity v) (newActivity telemetry))))))
    as (_ & _ & _ & _ & -> & _).
  destruct (buffer_traces_fields telemetry dataType
       (lock_level (metricActivity telemetry) dataType
          (set_activity v (smooth (currentActivity v) (newActivity telemetry)))))
    as (-> & _).
  by destruct (lock_level_rate (metricActivity telemetry) dataType
          (set_activity v (smooth (currentActivity v) (newActivity telemetry))))
    as (_ & _ & _ & _ & ->).
Qed.

(** [smooth] is NaN exactly when one of its arguments is. *)
Lemma smooth_is_NaN (a sample : num) : smooth a sample = NaN ↔ a = NaN ∨ sample = NaN.
Proof.
  unfold smooth. rewrite !nmax_is_NaN, times_is_NaN. split; [|tauto].
  intros [[H|H]|H]; [by left|by right|done].
Qed.

(** Otherwise it is the greatest of its three arguments. *)
Lemma smooth_greatest (a sample : num) :
  a ≠ NaN → sample ≠ NaN →
  let a' := smooth a sample in
  nle (times a (95 # 100)) a' = true ∧ nle sample a' = true ∧ nle (Fin (1 # 10)) a' = true
  ∧ (a' = times a (95 # 100) ∨ a' = sample ∨ a' = Fin (1 # 10)).
Proof.
  intros Ha Hs. cbn zeta. unfold smooth.
  assert (times a (95 # 100) ≠ NaN) as Ht by (by rewrite times_is_NaN).
  assert (nmax (times a (95 # 100)) sample ≠ NaN) as Hm by (rewrite nmax_is_NaN; tauto).
  split_and!.
  - apply (nle_trans _ (nmax (times a (95 # 100)) sample)); by apply nmax_le_l.
  - apply (nle_trans _ (nmax (times a (95 # 100)) sample));
      [by apply nmax_le_r|by apply nmax_le_l].
  - by apply nmax_le_r.
  - destruct (nmax_cases (nmax (times a (95 # 100)) sample) (Fin (1 # 10)) Hm)
      as [[-> _]|[-> _]]; [done|by right; right|].
    destruct (nmax_cases (times a (95 # 100)) sample Ht Hs) as [[-> _]|[-> _]];
      [by right; left|by left].
Qed.

(** ** Level quantizer *)

Lemma detectedLevel_bins (sample : num) :
  detectedLevel sample ∈ [(1 # 10)%Q; (3 # 10)%Q; (6 # 10)%Q; 1%Q].
Proof.
  unfold detectedLevel.
  destruct (nlt sample (Fin (2 # 10))); [set_solver|].
  destruct (nlt sample (Fin (45 # 100))); [set_solver|].
  destruct (nlt sample (Fin (8 # 10))); set_solver.
Qed.

(** The sky state after [updateVisualization] is the one [lock_level]
    leaves. *)
Lemma updateVisualization_sky telemetry dataType v :
  let w := lock_level (metricActivity telemetry) dataType v in
  let v' := updateVisualization telemetry dataType v in
  targetMetricLevel v' = targetMetricLevel w
  ∧ currentSkyId v' = currentSkyId w
  ∧ skyTransitions v' = skyTransitions w.
Proof.
  cbn zeta. unfold updateVisualization.
  destruct (bloom_fields telemetry
    (buffer_traces telemetry dataType
       (lock_level (metricActivity telemetry) dataType
          (set_activity v (smooth (currentActivity v) (newActivity telemetry))))))
    as (_ & _ & _ & _ & _ & -> & -> & ->).
  destruct (buffer_traces_fields telemetry dataType
       (lock_level (metricActivity telemetry) dataType
          (set_activity v (smooth (currentActivity v) (newActivity telemetry)))))
    as (_ & -> & -> & -> & _).
  unfold lock_level, updateSkyGradient, set_activity.
  cbn [targetMetricLevel currentSkyId skyTransitions].
  destruct (String.eqb dataType "metrics" && ngt (metricActivity telemetry) (Fin 0)); [|done].
  destruct (negb (Qeq_bool _ _)); [|done].
  cbn [targetMetricLevel currentSkyId skyTransitions].
  by destruct (negb (String.eqb _ _)).
Qed.

(** A sample in the bin of the stored level changes nothing. *)
Lemma lock_level_same_bin sample dataType v :
  (detectedLevel sample == targetMetricLevel v)%Q → lock_level sample dataType v = v.
Proof.
  intros Heq. unfold lock_level.
  destruct (String.eqb dataType "metrics" && ngt sample (Fin 0)); [|done].
  apply Qeq_bool_iff in Heq. by rewrite Heq.
Qed.


Lemma lock_level_stores sample v :
  ngt sample (Fin 0) = true →
  (targetMetricLevel (lock_level sample "metrics" v) == detectedLevel sample)%Q.
Proof.
  intros Hpos.
  destruct (Qeq_dec (detectedLevel sample) (targetMetricLevel v)) as [Heq|Hne].
  - rewrite lock_level_same_bin by done. by symmetry.
  - unfold lock_level. cbn [String.eqb Ascii.eqb Bool.eqb andb].
    rewrite Hpos.
    destruct (Qeq_bool _ _) eqn:Heq; [by apply Qeq_bool_iff in Heq|].
    cbn [negb]. unfold updateSkyGradient. cbn [currentSkyId].
    by destruct (negb (String.eqb _ _)).
Qed.



End VisualizerFacts.

(** * Properties of the websocket endpoint and of whole runs *)

Module HubFacts.

Import Extension Hub ExtensionFacts.

Section Runs.

Context {codecs : Codecs} {transport : Transport}.

(** ** One ingestion *)

Lemma accepted_post r body :
  accepted (Telemetry r) = Some body → r = post body.
Proof.
  destruct r as [method payload]. cbn.
  destruct (String.eqb method MethodPost) eqn:Hm; [|done].
  apply String.eqb_eq in Hm as ->. by intros ->.
Qed.

Lemma rejected_unchanged s r :
  accepted (Telemetry r) = None →
  (Method r ≠ MethodPost
   ∧ handleTelemetry s r = (s, http_Error "Method not allowed" StatusMethodNotAllowed))
  ∨ (Method r = MethodPost ∧ Body r = None
     ∧ handleTelemetry s r
       = (s, http_Error "Error reading request body" StatusInternalServerError)).
Proof.
  destruct r as [method payload]. unfold handleTelemetry. cbn.
  destruct (String.eqb method MethodPost) eqn:Hm; cbn.
  - intros ->. right. by apply String.eqb_eq in Hm.
  - intros _. left. by apply String.eqb_neq in Hm.
Qed.

(** An accepted ingestion stores the snapshot, then publishes the
    envelope if it can be encoded. *)
Lemma handleTelemetry_publish s body :
  (handleTelemetry s (post body)).1
  = match broadcast_message body with
    | Some message => broadcastToWebSockets message (store_snapshot body s)
    | None => store_snapshot body s
    end.
Proof.
  unfold handleTelemetry, broadcast_message, snapshot_envelope, store_snapshot, post.
  cbn [Method Body]. rewrite String.eqb_refl. cbn [negb].
  destruct (classify body) as [dataType jsonData]. cbn [fst snd].
  by destruct (json_Marshal_response _).
Qed.

(** The writes of one publication, whatever the visiting order. *)
Lemma broadcast_writes message (l : list Conn) s :
  writes (foldl (broadcast_one message) s l) = writes s ++ (attempt message <$> l).
Proof.
  revert s. induction l as [|conn l IH]; intros s; [by rewrite app_nil_r|].
  cbn [foldl]. rewrite IH, fmap_cons. unfold broadcast_one, attempt at 2.
  destruct (WriteMessage conn message); cbn [writes]; by rewrite <- app_assoc.
Qed.

Lemma filter_eq_NoDup (c : Conn) (l : list Conn) :
  NoDup l → filter (λ x, x = c) l = if bool_decide (c ∈ l) then [c] else [].
Proof.
  induction 1 as [|x l Hx _ IH]; [done|].
  rewrite filter_cons, IH. destruct (decide (x = c)) as [->|Hne].
  - rewrite bool_decide_eq_false_2 by done.
    by rewrite bool_decide_eq_true_2 by set_solver.
  - case_bool_decide as Hin.
    + by rewrite bool_decide_eq_true_2 by set_solver.
    + by rewrite bool_decide_eq_false_2 by set_solver.
Qed.

Lemma writes_on_app c s (new : list WriteCall) s' :
  writes s' = writes s ++ new →
  writes_on c s' = writes_on c s ++ filter (λ w, w_conn w = c) new.
Proof. unfold writes_on. intros ->. by rewrite filter_app. Qed.

Lemma attempts_on c message (order : list Conn) :
  filter (λ w, w_conn w = c) (attempt message <$> order)
  = attempt message <$> filter (λ x, x = c) order.
Proof.
  induction order as [|x order IH]; [done|].
  rewrite fmap_cons, !filter_cons, IH. cbn [w_conn attempt].
  by destruct (decide (x = c)).
Qed.

End Runs.

Section Subscribers.

Context {codecs : Codecs} {transport : Transport}.

(** Go: a [range] over a map from which only the current key is
    deleted visits every key exactly once. *)
Hypothesis range_visits_each_key_once :
  ∀ m : gmap Conn bool, range_order m ≡ₚ (map_to_list m).*1.

Lemma range_order_NoDup (m : gmap Conn bool) : NoDup (range_order m).
Proof using range_visits_each_key_once.
  rewrite range_visits_each_key_once. apply NoDup_fst_map_to_list.
Qed.

Lemma range_order_elem (m : gmap Conn bool) c : c ∈ range_order m ↔ is_Some (m !! c).
Proof using range_visits_each_key_once.
  rewrite range_visits_each_key_once, list_elem_of_fmap. split.
  - intros ([c' b] & -> & Hin). exists b. by apply elem_of_map_to_list.
  - intros [b Hb]. exists (c, b). split; [done|]. by apply elem_of_map_to_list.
Qed.

(** One publication, seen from one connection: a registered connection
    gets exactly one write, an unregistered one none, and it stays
    registered exactly when it was and the write succeeded. *)
Lemma broadcast_on c message s :
  let s' := broadcastToWebSockets message s in
  writes_on c s'
  = writes_on c s ++ (if bool_decide (is_Some (wsConnections s !! c))
                      then [attempt message c] else [])
  ∧ wsConnections s' !! c
    = if WriteMessage c message then wsConnections s !! c else None.
Proof using range_visits_each_key_once.
  cbn zeta. unfold broadcastToWebSockets.
  destruct (broadcast_fold range_visits_each_key_once message
              (range_order (wsConnections s)) s) as (Hw & _ & Hm).
  cbn zeta in *. split.
  - rewrite (writes_on_app c s _ _ Hw), attempts_on.
    rewrite filter_eq_NoDup by apply range_order_NoDup.
    rewrite (bool_decide_ext _ _ (range_order_elem (wsConnections s) c)).
    by case_bool_decide.
  - rewrite Hm. destruct (WriteMessage c message) eqn:Hok.
    + rewrite decide_False; [done|]. by intros [_ ?].
    + case_decide as Hin; [done|]. apply eq_None_not_Some. intros Hsome.
      apply Hin. split; [|done]. by apply range_order_elem.
Qed.

(** One event, seen from one connection that is not registered and is
    not being opened. *)
Lemma handle_unregistered c s e :
  wsConnections s !! c = None → e ≠ Open c true →
  writes_on c (handle s e) = writes_on c s ∧ wsConnections (handle s e) !! c = None.
Proof using range_visits_each_key_once.
  intros Hc He. destruct e as [r| |conn upgraded|conn]; cbn [handle].
  - destruct (accepted (Telemetry r)) as [body|] eqn:Hacc.
    + apply accepted_post in Hacc as ->. rewrite handleTelemetry_publish.
      destruct (broadcast_message body) as [message|]; [|done].
      destruct (broadcast_on c message (store_snapshot body s)) as [-> ->].
      cbn [wsConnections store_snapshot]. rewrite Hc.
      rewrite bool_decide_eq_false_2 by (by intros [? ?]).
      rewrite app_nil_r. split; [done|]. by destruct (WriteMessage c message).
    + by destruct (rejected_unchanged s r Hacc) as [(_ & ->)|(_ & _ & ->)].
  - done.
  - destruct upgraded; [|done]. unfold register, writes_on. cbn.
    split; [done|]. rewrite lookup_insert_ne; [done|]. by intros ->.
  - unfold unregister, writes_on. cbn. split; [done|].
    destruct (decide (conn = c)) as [->|Hne];
      [by rewrite lookup_delete_eq|by rewrite lookup_delete_ne].
Qed.

Lemma run_unregistered c es s :
  wsConnections s !! c = None → Open c true ∉ es →
  writes_on c (run s es) = writes_on c s ∧ wsConnections (run s es) !! c = None.
Proof using range_visits_each_key_once.
  revert s. induction es as [|e es IH]; intros s Hc Hes; [done|].
  unfold run in *. cbn [foldl].
  destruct (handle_unregistered c s e Hc) as [Hw Hm]; [set_solver|].
  destruct (IH (handle s e) Hm) as [-> ->]; [set_solver|]. done.
Qed.

(** X1. A connection that is not registered is never written to: as
    long as it does not (re)connect, no event of a run makes the server
    call [WriteMessage] on it, and it stays unregistered.  In
    particular, once a write on a subscriber has failed, that write is
    the last one it gets. *)
Theorem unregistered_never_written (c : Conn) (s : sonifierExtension) (es : list Event) :
  Open c true ∉ es →
  (wsConnections s !! c = None →
   writes_on c (run s es) = writes_on c s ∧ wsConnections (run s es) !! c = None)
  ∧ (∀ message,
       is_Some (wsConnections s !! c) → WriteMessage c message = false →
       writes_on c (run (broadcastToWebSockets message s) es)
       = writes_on c s ++ [{| w_conn := c; w_message := message; w_ok := false |}]).
Proof using range_visits_each_key_once.
  intros Hes. split; [intros Hc; by apply run_unregistered|].
  intros message Hreg Hfail.
  destruct (broadcast_on c message s) as [Hw Hm]. cbn zeta in *.
  rewrite Hfail in Hm. rewrite bool_decide_eq_true_2 in Hw by done.
  destruct (run_unregistered c es _ Hm Hes) as [-> _].
  rewrite Hw. unfold attempt. by rewrite Hfail.
Qed.

(** One event, seen from a registered connection whose read loop goes
    on and whose writes succeed. *)
Lemma handle_healthy c s e :
  is_Some (wsConnections s !! c) → e ≠ ReadEnds c →
  (∀ message, accepted e ≫= broadcast_message = Some message →
              WriteMessage c message = true) →
  delivered_to c (handle s e)
  = delivered_to c s ++ option_list (accepted e ≫= broadcast_message)
  ∧ is_Some (wsConnections (handle s e) !! c).
Proof using range_visits_each_key_once.
  intros Hc He Hok. destruct e as [r| |conn upgraded|conn]; cbn [handle].
  - destruct (accepted (Telemetry r)) as [body|] eqn:Hacc; cbn [mbind option_bind] in *.
    + apply accepted_post in Hacc as ->. rewrite handleTelemetry_publish.
      destruct (broadcast_message body) as [message|]; cbn [option_list].
      * destruct (broadcast_on c message (store_snapshot body s)) as [Hw Hm].
        cbn zeta in *. cbn [wsConnections store_snapshot] in *.
        rewrite bool_decide_eq_true_2 in Hw by done.
        rewrite (Hok message eq_refl) in Hm. split; [|by rewrite Hm].
        unfold delivered_to. rewrite Hw, filter_app, fmap_app. f_equal.
        unfold attempt. rewrite (Hok message eq_refl).
        by rewrite filter_cons, decide_True.
      * by rewrite app_nil_r.
    + rewrite app_nil_r.
      by destruct (rejected_unchanged s r Hacc) as [(_ & ->)|(_ & _ & ->)].
  - by rewrite app_nil_r.
  - rewrite app_nil_r. destruct upgraded; [|done]. unfold register, delivered_to, writes_on.
    cbn. split; [done|]. destruct (decide (conn = c)) as [->|Hne].
    + by rewrite lookup_insert_eq.
    + by rewrite lookup_insert_ne.
  - rewrite app_nil_r. unfold unregister, delivered_to, writes_on. cbn. split; [done|].
    rewrite lookup_delete_ne; [done|]. by intros ->.
Qed.

(** X2. A subscriber receives every envelope published after it
    registered, once each and in publication order, for as long as its
    read loop goes on and the writes on it succeed; and it stays
    registered. Other connections may come and go meanwhile. *)
Theorem healthy_subscriber_receives_all (c : Conn) (s : sonifierExtension)
    (es : list Event) :
  is_Some (wsConnections s !! c) →
  ReadEnds c ∉ es →
  Forall (λ message, WriteMessage c message = true) (published es) →
  delivered_to c (run s es) = delivered_to c s ++ published es
  ∧ is_Some (wsConnections (run s es) !! c).
Proof using range_visits_each_key_once.
  revert s. induction es as [|e es IH]; intros s Hc Hes Hok.
  - by rewrite app_nil_r.
  - unfold run, published in *. cbn [foldl omap list_omap] in *.
    destruct (handle_healthy c s e Hc) as [Hd Hreg]; [set_solver| |].
    { intros message Hm. rewrite Hm in Hok. by apply Forall_cons in Hok as [? _]. }
    destruct (IH (handle s e) Hreg) as [-> Hreg']; [set_solver| |].
    { destruct (accepted e ≫= broadcast_message); [|done]. by apply Forall_cons in Hok as [_ ?]. }
    split; [|done]. rewrite Hd, <- app_assoc. f_equal.
    by destruct (accepted e ≫= broadcast_message).
Qed.

(** X3. A subscriber whose write fails is closed twice: once by the
    publication that fails, and once more by the cleanup of its own
    handler when its read loop ends. *)
Theorem failed_subscriber_closed_twice (c : Conn) (s : sonifierExtension)
    (message : bytes) :
  is_Some (wsConnections s !! c) →
  WriteMessage c message = false →
  let s' := run (broadcastToWebSockets message s) [ReadEnds c] in
  filter (λ x, x = c) (closed s') = filter (λ x, x = c) (closed s) ++ [c; c]
  ∧ wsConnections s' !! c = None.
Proof using range_visits_each_key_once.
  intros Hreg Hfail s'. subst s'. unfold run. cbn [foldl handle unregister closed].
  unfold broadcastToWebSockets.
  destruct (broadcast_fold range_visits_each_key_once message
              (range_order (wsConnections s)) s) as (_ & Hc & _).
  cbn zeta in Hc. rewrite Hc. split; [|unfold unregister; cbn; by rewrite lookup_delete_eq].
  rewrite !filter_app, <- app_assoc. f_equal.
  rewrite list_filter_filter.
  rewrite (list_filter_iff _ (λ x, x = c)) by (intros x; split; [by intros []|by intros ->]).
  rewrite filter_eq_NoDup by apply range_order_NoDup.
  rewrite bool_decide_eq_true_2 by (by apply range_order_elem).
  by rewrite filter_cons, decide_True.
Qed.

End Subscribers.

Section Requests.

Context {codecs : Codecs} {transport : Transport}.

(** X4. Requests that are rejected change nothing.  A request with a
    method other than POST is answered 405 and a POST whose body cannot
    be read 500, each with its message and a newline as body, both
    leaving the extension as it was; so the state
    after a run is the state after its effective events alone
    (accepted ingestions, successful upgrades, ends of read loops), and
    a pull answers the same with or without the others. *)
Theorem rejected_requests_change_nothing (s : sonifierExtension) (es : list Event) :
  run s es = run s (filter (λ e, effective e = true) es)
  ∧ handleGetTelemetryData (run s es)
    = handleGetTelemetryData (run s (filter (λ e, effective e = true) es))
  ∧ (∀ r, Method r ≠ MethodPost →
          handleTelemetry s r
          = (s, {| StatusCode := 405;
                   Written := String.list_byte_of_string "Method not allowed"
                              ++ [Byte.x0a] |}))
  ∧ (∀ r, Method r = MethodPost → Body r = None →
          handleTelemetry s r
          = (s, {| StatusCode := 500;
                   Written := String.list_byte_of_string "Error reading request body"
                              ++ [Byte.x0a] |})).
Proof.
  assert (run s es = run s (filter (λ e, effective e = true) es)) as Hrun.
  { revert s. induction es as [|e es IH]; intros s; [done|].
    rewrite filter_cons. unfold run in *. destruct (effective e) eqn:Heff.
    - rewrite decide_True by done. cbn [foldl]. apply IH.
    - rewrite decide_False by done. cbn [foldl]. rewrite <- IH. f_equal.
      destruct e as [r| |conn upgraded|conn]; cbn [handle effective] in *; try done.
      + destruct (accepted (Telemetry r)) as [body|] eqn:Hacc.
        * apply accepted_post in Hacc as ->. unfold post in Heff. cbn [Method Body] in Heff.
          rewrite String.eqb_refl, bool_decide_eq_true_2 in Heff; done.
        * by destruct (rejected_unchanged s r Hacc) as [(_ & ->)|(_ & _ & ->)].
      + by rewrite Heff. }
  split_and!; [done|by rewrite <- Hrun|..].
  - intros r Hm. destruct (rejected_unchanged s r) as [(_ & ->)|(Hpost & _)]; try done.
    destruct r as [method payload]. cbn in *.
    apply String.eqb_neq in Hm. by rewrite Hm.
  - intros r Hm Hb. destruct (rejected_unchanged s r) as [(Hne & _)|(_ & _ & ->)]; try done.
    destruct r as [method payload]. cbn in *.
    apply String.eqb_eq in Hm. by rewrite Hm.
Qed.

(** X5. Push and pull agree. The messages written to the subscribers
    during the ingestion of a non-empty body are all the same document,
    and that document, followed by a newline, is what the pull endpoint
    answers with status 200 until the next ingestion.  When the envelope
    cannot be encoded nothing is written to any subscriber. *)
Theorem push_pull_agreement (s : sonifierExtension) (body : bytes) :
  body ≠ [] →
  let s' := (handleTelemetry s (post body)).1 in
  ∃ new,
    writes s' = writes s ++ new
    ∧ Forall (λ w, Some (w_message w) = broadcast_message body
                   ∧ handleGetTelemetryData s'
                     = {| StatusCode := StatusOK;
                          Written := w_message w ++ [Byte.x0a] |}) new
    ∧ (broadcast_message body = None → new = []).
Proof.
  intros Hbody s'.
  assert (handleGetTelemetryData s' = write_envelope (snapshot_envelope body)) as Hpull.
  { subst s'. destruct (handleTelemetry_post s body) as (s1 & Hrun & Hty & Hdata).
    rewrite Hrun. cbn [fst]. unfold handleGetTelemetryData, snapshot_envelope.
    rewrite Hty, Hdata.
    pose proof (stored_nonempty_body body Hbody) as Hne.
    by destruct (stored_data body (classify body).2). }
  subst s'. rewrite handleTelemetry_publish in *.
  unfold write_envelope in Hpull. fold (broadcast_message body) in Hpull.
  destruct (broadcast_message body) as [message|] eqn:Hmsg.
  - unfold broadcastToWebSockets in *.
    pose proof (broadcast_writes message
                  (range_order (wsConnections (store_snapshot body s)))
                  (store_snapshot body s)) as Hw.
    eexists. split; [exact Hw|]. split; [|done].
    apply Forall_fmap, Forall_forall. intros c _. split; [done|exact Hpull].
  - exists []. by rewrite app_nil_r.
Qed.

(** X6. Opening and closing a connection touches nothing else: the
    snapshot, the writes made so far and the registration of every
    other connection stay as they are, and a failed upgrade changes
    nothing at all.  Registering a fresh connection and ending its read
    loop restores the subscriber set, and ending a read loop twice
    removes no more than ending it once. *)
Theorem connection_lifecycle (c : Conn) (s : sonifierExtension) (upgraded : bool) :
  (wsConnections s !! c = None →
   wsConnections (run s [Open c true; ReadEnds c]) = wsConnections s)
  ∧ wsConnections (run s [ReadEnds c; ReadEnds c]) = wsConnections (run s [ReadEnds c])
  ∧ is_Some (wsConnections (run s [Open c true]) !! c)
  ∧ wsConnections (run s [ReadEnds c]) !! c = None
  ∧ handle s (Open c false) = s
  ∧ (∀ e c', e = Open c upgraded ∨ e = ReadEnds c → c' ≠ c →
             wsConnections (handle s e) !! c' = wsConnections s !! c')
  ∧ (∀ e, e = Open c upgraded ∨ e = ReadEnds c →
          handleGetTelemetryData (handle s e) = handleGetTelemetryData s
          ∧ writes (handle s e) = writes s).
Proof.
  unfold run. cbn [foldl handle register unregister wsConnections].
  split_and!.
  - intros Hc. rewrite delete_insert_eq. by apply delete_id.
  - by rewrite delete_delete_eq.
  - by rewrite lookup_insert_eq.
  - by rewrite lookup_delete_eq.
  - done.
  - intros e c' [->| ->] Hne; cbn [handle].
    + destruct upgraded; [|done]. cbn. by rewrite lookup_insert_ne.
    + cbn. by rewrite lookup_delete_ne.
  - intros e [->| ->]; cbn [handle]; [by destruct upgraded|done].
Qed.

End Requests.

(** *** The theorems at work on the executable instance *)

Lemma unregistered_never_written_witness :
  (∀ m : gmap Conn bool,
      range_order (Transport := RefLib.transport [2%positive]) m ≡ₚ (map_to_list m).*1)
  ∧ (Open 2%positive true ∉ [Telemetry (post (RefLib.text "again")); ReadEnds 2%positive])
  ∧ length
      (writes_on 2%positive
         (run (codecs := RefLib.codecs) (transport := RefLib.transport [2%positive])
            (broadcastToWebSockets (transport := RefLib.transport [2%positive])
               (RefLib.text "{}") RefLib.hub)
            [Telemetry (post (RefLib.text "again")); ReadEnds 2%positive])) = 1%nat.
Proof.
  assert (∀ m : gmap Conn bool,
            range_order (Transport := RefLib.transport [2%positive]) m ≡ₚ (map_to_list m).*1)
    as H by (intros m; reflexivity).
  assert (Open 2%positive true
          ∉ [Telemetry (post (RefLib.text "again")); ReadEnds 2%positive]) as Hes.
  { intros Hin. repeat (apply elem_of_cons in Hin as [Hin|Hin]; [discriminate Hin|]).
    by apply elem_of_nil in Hin. }
  split_and!; [exact H|exact Hes|].
  destruct (unregistered_never_written (codecs := RefLib.codecs)
              (transport := RefLib.transport [2%positive]) H 2%positive RefLib.hub _ Hes)
    as [_ Hlast].
  rewrite (Hlast (RefLib.text "{}")); [reflexivity|by eexists|reflexivity].
Defined.

Lemma healthy_subscriber_receives_all_witness :
  let es := [Telemetry (post (RefLib.text "hello")); Open 4%positive true;
             Telemetry {| Method := "GET"; Body := None |};
             Telemetry (post (RefLib.text "{'resourceLogs':[]}"))] in
  (∀ m : gmap Conn bool,
      range_order (Transport := RefLib.transport [2%positive]) m ≡ₚ (map_to_list m).*1)
  ∧ delivered_to 1%positive
      (run (codecs := RefLib.codecs) (transport := RefLib.transport [2%positive])
         RefLib.hub es)
    = [RefLib.text "{'type':'unknown','payload':'hello'}";
       RefLib.text "{'type':'logs','payload':{'resourceLogs':[]}}"].
Proof.
  intros es.
  assert (∀ m : gmap Conn bool,
            range_order (Transport := RefLib.transport [2%positive]) m ≡ₚ (map_to_list m).*1)
    as H by (intros m; reflexivity).
  split; [exact H|].
  destruct (healthy_subscriber_receives_all (codecs := RefLib.codecs)
              (transport := RefLib.transport [2%positive]) H 1%positive RefLib.hub es)
    as [-> _].
  - by eexists.
  - intros Hin. subst es.
    repeat (apply elem_of_cons in Hin as [Hin|Hin]; [discriminate Hin|]).
    by apply elem_of_nil in Hin.
  - subst es. vm_compute. repeat constructor.
  - vm_compute. reflexivity.
Defined.

Lemma rejected_requests_change_nothing_witness :
  Method {| Method := "GET"; Body := Some (RefLib.text "{}") |} ≠ MethodPost
  ∧ handleTelemetry (codecs := RefLib.codecs) (transport := RefLib.transport [])
      RefLib.hub {| Method := "GET"; Body := Some (RefLib.text "{}") |}
    = (RefLib.hub, {| StatusCode := 405;
                      Written := String.list_byte_of_string "Method not allowed"
                                 ++ [Byte.x0a] |}).
Proof.
  assert (Method {| Method := "GET"; Body := Some (RefLib.text "{}") |} ≠ MethodPost)
    as Hm by discriminate.
  split; [exact Hm|].
  destruct (rejected_requests_change_nothing (codecs := RefLib.codecs)
              (transport := RefLib.transport []) RefLib.hub []) as (_ & _ & Hreject & _).
  by apply Hreject.
Defined.

Lemma push_pull_agreement_witness :
  RefLib.text "hello" ≠ []
  ∧ ∃ new,
      writes (handleTelemetry (codecs := RefLib.codecs)
                (transport := RefLib.transport [2%positive]) RefLib.hub
                (post (RefLib.text "hello"))).1 = writes RefLib.hub ++ new
      ∧ length new = 3%nat.
Proof.
  assert (RefLib.text "hello" ≠ []) as Hbody by discriminate.
  split; [exact Hbody|].
  destruct (push_pull_agreement (codecs := RefLib.codecs)
              (transport := RefLib.transport [2%positive]) RefLib.hub _ Hbody)
    as (new & Hw & _).
  exists new. split; [exact Hw|].
  apply (f_equal length) in Hw. vm_compute in Hw. by symmetry.
Defined.

Lemma failed_subscriber_closed_twice_witness :
  (∀ m : gmap Conn bool,
      range_order (Transport := RefLib.transport [2%positive]) m ≡ₚ (map_to_list m).*1)
  ∧ WriteMessage (Transport := RefLib.transport [2%positive]) 2%positive (RefLib.text "{}")
    = false
  ∧ closed (run (codecs := RefLib.codecs) (transport := RefLib.transport [2%positive])
              (broadcastToWebSockets (transport := RefLib.transport [2%positive])
                 (RefLib.text "{}") RefLib.hub) [ReadEnds 2%positive])
    = [2%positive; 2%positive].
Proof.
  assert (∀ m : gmap Conn bool,
            range_order (Transport := RefLib.transport [2%positive]) m ≡ₚ (map_to_list m).*1)
    as H by (intros m; reflexivity).
  assert (WriteMessage (Transport := RefLib.transport [2%positive]) 2%positive
            (RefLib.text "{}") = false) as Hfail by reflexivity.
  split_and!; [exact H|exact Hfail|].
  destruct (failed_subscriber_closed_twice (codecs := RefLib.codecs)
              (transport := RefLib.transport [2%positive]) H 2%positive RefLib.hub
              (RefLib.text "{}")) as [_ _]; [by eexists|exact Hfail|].
  vm_compute. reflexivity.
Defined.

Lemma connection_lifecycle_witness :
  wsConnections RefLib.hub !! 7%positive = None
  ∧ wsConnections (run (codecs := RefLib.codecs) (transport := RefLib.transport [])
                     RefLib.hub [Open 7%positive true; ReadEnds 7%positive])
    = wsConnections RefLib.hub.
Proof.
  assert (wsConnections RefLib.hub !! 7%positive = None) as Hc by reflexivity.
  split; [exact Hc|].
  destruct (connection_lifecycle (codecs := RefLib.codecs) (transport := RefLib.transport [])
              7%positive RefLib.hub true) as (Hround & _).
  by apply Hround.
Defined.

End HubFacts.

(** * Further properties of the analyzer *)

Module AnalyzerMore.

Import Num NumFacts Analyzer Page AnalyzerFacts.

Lemma all_spans_absent (raw : RawTelemetry) : resourceSpans raw = None → all_spans raw = [].
Proof. unfold all_spans. by intros ->. Qed.

Lemma omap_length_le {A B : Type} (f : A → option B) (l : list A) :
  (length (omap f l) ≤ length l)%nat.
Proof.
  induction l as [|x l IH]; [done|]. cbn. destruct (f x); cbn; lia.
Qed.

Lemma substring_prefix_length (n : nat) (s : string) :
  String.length (String.substring 0 n s) = Nat.min n (String.length s).
Proof.
  revert n. induction s as [|c s IH]; intros [|n]; cbn; try done.
  by rewrite IH.
Qed.

Lemma span_item_shape (span : Span) (item : TraceItem) :
  span_item span = Some item →
  traceId span = Some (id item) ∧ id item ≠ ""
  ∧ shortId item = String.substring 0 8 (id item)
  ∧ String.length (shortId item) = Nat.min 8 (String.length (id item))
  ∧ isError item = is_error_span span.
Proof.
  unfold span_item, JS.truthy_string.
  destruct (traceId span) as [tid|]; [|done].
  destruct (String.eqb tid "") eqn:Hempty; [done|]. cbn. intros [= <-]. cbn.
  split_and!; try done.
  - by apply String.eqb_neq in Hempty.
  - apply substring_prefix_length.
Qed.

Lemma analyzeLogs_summary (raw : RawTelemetry) :
  totalCount (analyzeLogs raw) = Z.of_nat (length (all_logs raw))
  ∧ logErrorRate (analyzeLogs raw)
    = ratio (flagged is_error_log (all_logs raw)) (Z.of_nat (length (all_logs raw))).
Proof.
  unfold analyzeLogs, all_logs.
  destruct (resourceLogs raw) as [rl|] eqn:Hrl; cbn [totalCount logErrorRate default];
    [|done].
  pose proof (visit_all_logs raw) as Hflat. rewrite Hrl in Hflat. cbn [default] in Hflat.
  rewrite Hflat. unfold all_logs. rewrite Hrl. cbn [default].
  match goal with |- context [foldl visit_log ?a ?l] =>
    destruct (log_counters l a) as [-> ->] end.
  cbn. by rewrite !Z.add_0_l.
Qed.

Lemma keep_last_100_drop (l : list num) : keep_last_100 l = drop (length l - 100) l.
Proof.
  unfold keep_last_100. destruct (Nat.ltb_spec 100 (length l)) as [Hlt|Hle]; [done|].
  by replace (length l - 100)%nat with 0%nat by lia.
Qed.

(** ** What one pass over the spans accumulates *)

Section Spans.

Context {doubles : Doubles}.

Lemma visit_span_fields (a : TraceAcc) (span : Span) :
  acc_traceIds (visit_span a span) = acc_traceIds a ++ option_list (span_item span)
  ∧ traceDurations (visit_span a span)
    = traceDurations a ++ option_list (span_duration span)
  ∧ totalDuration (visit_span a span)
    = foldl nadd (totalDuration a) (option_list (span_duration span))
  ∧ traceCount (visit_span a span)
    = traceCount a + Z.of_nat (length (option_list (span_duration span))).
Proof.
  unfold visit_span, span_item, span_duration.
  destruct (JS.truthy_string (traceId span)),
    (endTimeUnixNano span) as [e|], (startTimeUnixNano span) as [b|];
    cbn; rewrite ?app_nil_r; split_and!; try done; lia.
Qed.

Lemma span_accumulators (l : list Span) (a : TraceAcc) :
  acc_traceIds (foldl visit_span a l) = acc_traceIds a ++ omap span_item l
  ∧ traceDurations (foldl visit_span a l) = traceDurations a ++ omap span_duration l
  ∧ totalDuration (foldl visit_span a l)
    = foldl nadd (totalDuration a) (omap span_duration l)
  ∧ traceCount (foldl visit_span a l)
    = traceCount a + Z.of_nat (length (omap span_duration l)).
Proof.
  revert a. induction l as [|span l IH]; intros a.
  - cbn. rewrite !app_nil_r. split_and!; [done..|lia].
  - cbn [foldl]. destruct (IH (visit_span a span)) as (-> & -> & -> & ->).
    destruct (visit_span_fields a span) as (-> & -> & -> & ->).
    cbn [omap list_omap].
    destruct (span_item span), (span_duration span);
      cbn; rewrite <- ?app_assoc, ?app_nil_r; split_and!; try done; lia.
Qed.

(** [analyzeTraces] in terms of the spans of the payload. *)
Lemma analyzeTraces_spans (durations : list num) (raw : RawTelemetry) :
  let a := foldl visit_span (fresh_locals durations) (all_spans raw) in
  analyzeTraces durations raw
  = match resourceSpans raw with
    | Some _ =>
        ({| count := totalTraces a;
            errorRate := ratio (errorTraces a) (totalTraces a);
            averageLength := if 0 <? traceCount a
                             then div_by (totalDuration a) (inject_Z (traceCount a))
                             else Fin 0;
            traceIds := acc_traceIds a |},
         keep_last_100 (traceDurations a))
    | None =>
        ({| count := 0; errorRate := 0; averageLength := Fin 0; traceIds := [] |}, durations)
    end.
Proof.
  cbn zeta. unfold analyzeTraces.
  pose proof (visit_all_spans raw) as Hflat.
  destruct (resourceSpans raw) as [rs|] eqn:Hrs; [|done].
  cbn [default] in Hflat. by rewrite Hflat.
Qed.

(** The result of [analyzeTraces] in terms of the spans of the payload. *)
Lemma analyzeTraces_summary (durations : list num) (raw : RawTelemetry) :
  let t := (analyzeTraces durations raw).1 in
  traceIds t = omap span_item (all_spans raw)
  ∧ count t = Z.of_nat (length (all_spans raw))
  ∧ errorRate t = ratio (flagged is_error_span (all_spans raw))
                    (Z.of_nat (length (all_spans raw))).
Proof.
  cbn zeta. rewrite analyzeTraces_spans. unfold all_spans.
  destruct (resourceSpans raw) as [rs|] eqn:Hrs; cbn [fst traceIds count errorRate default];
    [|done].
  match goal with |- context [foldl visit_span ?a ?l] =>
    destruct (span_accumulators l a) as (-> & _);
    destruct (span_counters l a) as (-> & ->) end.
  cbn. by rewrite !Z.add_0_l.
Qed.

(** X7. The trace items follow the spans: [traceIds] holds one item
    for each span that has a trace id, in payload order, each with the
    first eight characters of the id as short id and flagged exactly
    when the span has status code 2.  So there are at most [count]
    items, exactly [count] when every span has a trace id, and no more
    flagged items than error spans. *)
Theorem trace_items_follow_spans (durations : list num) (raw : RawTelemetry) :
  let t := (analyzeTraces durations raw).1 in
  traceIds t = omap span_item (all_spans raw)
  ∧ Z.of_nat (length (traceIds t)) <= count t
  ∧ (Forall (λ span, JS.truthy_string (traceId span) = true) (all_spans raw) →
     Z.of_nat (length (traceIds t)) = count t)
  ∧ Forall (λ item, id item ≠ ""
                    ∧ shortId item = String.substring 0 8 (id item)
                    ∧ (String.length (shortId item) ≤ 8)%nat) (traceIds t)
  ∧ flagged isError (traceIds t) <= flagged is_error_span (all_spans raw).
Proof.
  intros t.
  assert (traceIds t = omap span_item (all_spans raw)
          ∧ count t = Z.of_nat (length (all_spans raw))) as [Hids Hcount].
  { subst t. rewrite analyzeTraces_spans.
    destruct (resourceSpans raw) eqn:Hrs; cbn [fst traceIds count].
    - match goal with |- context [foldl visit_span ?a ?l] =>
        destruct (span_accumulators l a) as (-> & _);
        destruct (span_counters l a) as (-> & _) end.
      cbn. split; [done|lia].
    - by rewrite (all_spans_absent raw Hrs). }
  rewrite Hids, Hcount. clear Hids Hcount. split_and!; [done|..].
  - pose proof (omap_length_le span_item (all_spans raw)). lia.
  - intros Hall. f_equal. induction Hall as [|span l Hspan _ IH]; [done|].
    cbn [omap list_omap]. unfold span_item at 1. rewrite Hspan. cbn. by rewrite IH.
  - apply Forall_forall. intros item Hin.
    apply list_elem_of_omap in Hin as (span & _ & Hitem).
    destruct (span_item_shape span item Hitem) as (_ & Hid & Hshort & Hlen & _).
    split_and!; [done..|]. rewrite Hlen. lia.
  - induction (all_spans raw) as [|span l IH]; [done|].
    cbn [omap list_omap]. rewrite (flagged_cons is_error_span).
    destruct (span_item span) as [item|] eqn:Hitem.
    + rewrite (flagged_cons isError).
      destruct (span_item_shape span item Hitem) as (_ & _ & _ & _ & ->).
      destruct (is_error_span span); lia.
    + destruct (is_error_span span); lia.
Qed.

(** ** The window of durations *)

Lemma analyzeTraces_durations (durations : list num) (raw : RawTelemetry) :
  (analyzeTraces durations raw).2
  = match resourceSpans raw with
    | Some _ => keep_last_100 (durations ++ omap span_duration (all_spans raw))
    | None => durations
    end.
Proof.
  rewrite analyzeTraces_spans. destruct (resourceSpans raw); [|done]. cbn [snd].
  match goal with |- context [foldl visit_span ?a ?l] =>
    destruct (span_accumulators l a) as (_ & -> & _) end.
  done.
Qed.

Lemma durations_stay_bounded (durations : list num) (raw : RawTelemetry) :
  (length durations ≤ 100)%nat → (length (analyzeTraces durations raw).2 ≤ 100)%nat.
Proof.
  intros Hlen. rewrite analyzeTraces_durations. destruct (resourceSpans raw); [|done].
  rewrite keep_last_100_drop, length_drop. lia.
Qed.

(** X8. [traceDurations] is a sliding window: when [analyzeTraces]
    returns on a traces payload, the array holds the last 100 of the
    durations it held followed by those of the timed spans of the
    payload, in order; a payload without [resourceSpans] leaves it alone.
    When [analyzeTraces] throws in its loops, the array keeps what it
    held followed by the durations of the spans dealt with, untrimmed.
    So the array never holds more than 100 durations as long as no
    analysis of traces throws, whatever messages and timer ticks the page
    sees. *)
Theorem durations_window (durations : list num) (raw : RawTelemetry)
    (es : list PageEvent) :
  let after := (analyzeTraces durations raw).2 in
  let all := durations ++ omap span_duration (all_spans raw) in
  after `suffix_of` all
  ∧ (is_Some (resourceSpans raw) →
     after = drop (length all - 100) all ∧ (length after ≤ 100)%nat)
  ∧ (resourceSpans raw = None → after = durations)
  ∧ (∀ visited dataType p,
       traceDurationsOf (onmessage (FailsInTraces visited) dataType p)
       = traceDurationsOf p ++ omap span_duration visited)
  ∧ (Forall reaches_trim es →
     (length (traceDurationsOf (page_run new_Page es)) ≤ 100)%nat).
Proof.
  intros after all. subst after. rewrite analyzeTraces_durations. fold all.
  split_and!.
  - destruct (resourceSpans raw) eqn:Hrs.
    + rewrite keep_last_100_drop. apply suffix_drop.
    + subst all. rewrite (all_spans_absent raw Hrs). by rewrite app_nil_r.
  - intros [rs ->]. rewrite keep_last_100_drop. split; [done|]. rewrite length_drop. lia.
  - by intros ->.
  - intros visited dataType p. cbn [onmessage traceDurationsOf].
    by destruct (span_accumulators visited (fresh_locals (traceDurationsOf p)))
      as (_ & -> & _).
  - intros Htrim.
    assert (∀ p, (length (traceDurationsOf p) ≤ 100)%nat →
                 (length (traceDurationsOf (page_run p es)) ≤ 100)%nat) as Hinv.
    { induction Htrim as [|e es He _ IH]; intros p Hp; [done|].
      unfold page_run in *. cbn [foldl]. apply IH.
      destruct e as [[|raw'|visited|raw'] dataType|];
        cbn [page_step onmessage traceDurationsOf]; try done.
      - unfold analyzeTelemetry.
        pose proof (durations_stay_bounded (traceDurationsOf p) raw' Hp) as Hstep.
        by destruct (analyzeTraces (traceDurationsOf p) raw').
      - by apply durations_stay_bounded. }
    apply Hinv. cbn. lia.
Qed.

(** ** The average duration *)

Lemma average_as_quotient (durations : list num) (raw : RawTelemetry) :
  let ds := omap span_duration (all_spans raw) in
  averageLength (analyzeTraces durations raw).1
  = if bool_decide (ds = []) then Fin 0
    else div_by (total_of ds) (inject_Z (Z.of_nat (length ds))).
Proof.
  cbn zeta. rewrite analyzeTraces_spans.
  destruct (resourceSpans raw) eqn:Hrs; cbn [fst averageLength].
  - match goal with |- context [foldl visit_span ?a ?l] =>
      destruct (span_accumulators l a) as (_ & _ & -> & ->) end.
    cbn [traceCount totalDuration fresh_locals]. rewrite Z.add_0_l.
    destruct (omap span_duration (all_spans raw)) as [|d ds] eqn:Hds.
    + by rewrite bool_decide_eq_true_2.
    + rewrite bool_decide_eq_false_2 by done.
      by replace (0 <? Z.of_nat (length (d :: ds))) with true
        by (symmetry; apply Z.ltb_lt; cbn [length]; lia).
  - by rewrite (all_spans_absent raw Hrs).
Qed.

End Spans.

Lemma trace_items_follow_spans_witness :
  let t := (analyzeTraces (doubles := no_rounding) [] three_spans).1 in
  Forall (λ span, JS.truthy_string (traceId span) = true) (all_spans three_spans)
  ∧ Z.of_nat (length (traceIds t)) = count t.
Proof.
  intros t.
  assert (Forall (λ span, JS.truthy_string (traceId span) = true) (all_spans three_spans))
    as Hall by (repeat constructor).
  split; [exact Hall|].
  destruct (trace_items_follow_spans (doubles := no_rounding) [] three_spans)
    as (_ & _ & Hfull & _).
  by apply Hfull.
Defined.

Lemma durations_window_witness :
  let es := [Message (Document three_spans) "traces"; Timer;
             Message NoPayload "unknown"; Message (FailsAfterTraces three_spans) "traces"] in
  is_Some (resourceSpans three_spans)
  ∧ Forall reaches_trim es
  ∧ length (analyzeTraces (doubles := no_rounding) (replicate 99 (Fin 1)) three_spans).2
    = 100%nat
  ∧ take 97 (analyzeTraces (doubles := no_rounding) (replicate 99 (Fin 1)) three_spans).2
    = replicate 97 (Fin 1)
  ∧ (length (traceDurationsOf (page_run (doubles := no_rounding) new_Page es)) ≤ 100)%nat.
Proof.
  intros es.
  assert (is_Some (resourceSpans three_spans)) as Hrs by (by eexists).
  assert (Forall reaches_trim es) as Htrim by (repeat constructor).
  destruct (durations_window (doubles := no_rounding) (replicate 99 (Fin 1)) three_spans es)
    as (_ & Hwin & _ & _ & Hbound).
  destruct (Hwin Hrs) as [Heq _].
  split_and!; [exact Hrs|exact Htrim|by rewrite Heq|by rewrite Heq|exact (Hbound Htrim)].
Defined.

(** An analysis that throws after 101 timed spans leaves 101
    durations. *)
Lemma exception_skips_trim :
  let span := {| traceId := None; status_code := None; kind := None;
                 startTimeUnixNano := Some (Fin 1000000);
                 endTimeUnixNano := Some (Fin 3000000) |} in
  length (traceDurationsOf
            (page_run (doubles := no_rounding) new_Page
               [Message (FailsInTraces (replicate 101 span)) "traces"])) = 101%nat.
Proof. by vm_compute. Qed.

Section Averages.

Context {doubles : Doubles} {nearest : Nearest doubles}.

(** X9. [averageLength] is the sum of the durations of the spans that
    carry both timestamps, added up in order, divided by their number,
    each operation rounded; it is 0 when there is no such span.  It is
    NaN as soon as one duration is, and it is not negative when no
    duration is, which is the case of every span with finite timestamps
    that does not end before it starts. *)
Theorem average_is_the_mean (durations : list num) (raw : RawTelemetry) :
  let t := (analyzeTraces durations raw).1 in
  let ds := omap span_duration (all_spans raw) in
  averageLength t
  = (if bool_decide (ds = []) then Fin 0
     else div_by (total_of ds) (inject_Z (Z.of_nat (length ds))))
  ∧ (NaN ∈ ds → averageLength t = NaN)
  ∧ (Forall (λ d, nle (Fin 0) d = true) ds → nle (Fin 0) (averageLength t) = true)
  ∧ (∀ span e b,
       endTimeUnixNano span = Some (Fin e) → startTimeUnixNano span = Some (Fin b) →
       (b <= e)%Q →
       ∃ d, span_duration span = Some d ∧ nle (Fin 0) d = true).
Proof.
  intros t ds. subst t. rewrite average_as_quotient. fold ds. split_and!; [done|..].
  - intros Hin. rewrite bool_decide_eq_false_2 by (intros Hnil; rewrite Hnil in Hin; set_solver).
    unfold total_of. by rewrite foldl_nadd_has_NaN.
  - intros Hpos. destruct (decide (ds = [])) as [Hnil|Hne].
    + by rewrite bool_decide_eq_true_2.
    + rewrite bool_decide_eq_false_2 by done. apply div_by_nonneg.
      * destruct ds; [done|]. unfold Qlt. cbn. lia.
      * by apply foldl_nadd_nonneg.
  - intros span e b He Hb Hbe. unfold span_duration. rewrite He, Hb.
    eexists. split; [done|]. unfold duration_of. apply div_by_nonneg; [done|].
    cbn. apply round_nonneg. lra.
Qed.

End Averages.

Lemma average_is_the_mean_witness :
  let ds := omap (span_duration (doubles := no_rounding)) (all_spans three_spans) in
  Forall (λ d, nle (Fin 0) d = true) ds
  ∧ nle (Fin 0) (averageLength (analyzeTraces (doubles := no_rounding) [] three_spans).1)
    = true
  ∧ same (averageLength (analyzeTraces (doubles := no_rounding) [] three_spans).1) (Fin 2).
Proof.
  intros ds.
  assert (Forall (λ d, nle (Fin 0) d = true) ds) as Hpos by (repeat constructor).
  destruct (average_is_the_mean (doubles := no_rounding) [] three_spans)
    as (Hmean & _ & Hsign & _).
  split_and!; [exact Hpos|exact (Hsign Hpos)|by rewrite Hmean].
Defined.

(** ** Metrics do not depend on grouping or order *)

Lemma greatest_or_zero_unique (x y : num) (vs ws : list num) :
  greatest_or_zero x vs → greatest_or_zero y ws → (∀ v, v ∈ vs ↔ v ∈ ws) → same x y.
Proof.
  intros [Hxnan Hx] [Hynan Hy] Hsame.
  destruct (NaN_in_or_not vs) as [Hin|Hnot].
  - rewrite (Hxnan Hin), (Hynan (proj1 (Hsame _) Hin)). done.
  - destruct (Hx Hnot) as (Hx0 & Hxub & Hxin).
    destruct Hy as (Hy0 & Hyub & Hyin); [by rewrite <- Hsame|].
    apply nle_antisym.
    + destruct Hxin as [Hz|(v & Hv & Heq)].
      * by rewrite (nle_proper _ _ Hz _ _ (reflexivity _)).
      * rewrite (nle_proper _ _ Heq _ _ (reflexivity _)). apply Hyub. by apply Hsame.
    + destruct Hyin as [Hz|(v & Hv & Heq)].
      * by rewrite (nle_proper _ _ Hz _ _ (reflexivity _)).
      * rewrite (nle_proper _ _ Heq _ _ (reflexivity _)). apply Hxub. by apply Hsame.
Qed.

(** X10. The metric levels depend only on which metrics the payload
    holds, not on how they are grouped into resources and scopes nor on
    their order: two payloads with the same metrics up to a permutation
    get equal cpu, memory and disk levels and the same critical flag. *)
Theorem metrics_ignore_grouping (raw1 raw2 : RawTelemetry) :
  all_metrics raw1 ≡ₚ all_metrics raw2 →
  same (cpu (analyzeMetrics raw1)) (cpu (analyzeMetrics raw2))
  ∧ same (memory (analyzeMetrics raw1)) (memory (analyzeMetrics raw2))
  ∧ same (disk (analyzeMetrics raw1)) (disk (analyzeMetrics raw2))
  ∧ critical (analyzeMetrics raw1) = critical (analyzeMetrics raw2).
Proof.
  intros Hperm.
  destruct (levels_as_folds raw1) as (Hc1 & Hm1 & Hd1 & Hk1).
  destruct (levels_as_folds raw2) as (Hc2 & Hm2 & Hd2 & Hk2).
  cbn zeta in *.
  assert (same (cpu (analyzeMetrics raw1)) (cpu (analyzeMetrics raw2))) as Hcpu.
  { rewrite Hc1, Hc2.
    eapply greatest_or_zero_unique; [apply foldl_nmax_from_zero..|].
    intros v. by rewrite Hperm. }
  assert (same (memory (analyzeMetrics raw1)) (memory (analyzeMetrics raw2))) as Hmem.
  { rewrite Hm1, Hm2.
    eapply greatest_or_zero_unique; [apply foldl_nmax_from_zero..|].
    intros v. by rewrite Hperm. }
  assert (same (disk (analyzeMetrics raw1)) (disk (analyzeMetrics raw2))) as Hdisk.
  { rewrite Hd1, Hd2.
    eapply greatest_or_zero_unique; [apply foldl_nmax_from_zero..|].
    intros v. by rewrite Hperm. }
  split_and!; [done..|].
  rewrite Hk1, Hk2.
  by rewrite (ngt_proper _ _ Hcpu _ _ (reflexivity _)),
    (ngt_proper _ _ Hmem _ _ (reflexivity _)), (ngt_proper _ _ Hdisk _ _ (reflexivity _)).
Qed.

Lemma metrics_ignore_grouping_witness :
  let point (d : Q) := {| asDouble := Some (Fin d); asInt := None |} in
  let cpu_gauge (d : Q) :=
    {| name := "system.cpu.utilization"; gauge := Some (Some [point d]); sum := None |} in
  let one_scope :=
    {| resourceSpans := None;
       resourceMetrics :=
         Some [ {| scopeMetrics :=
                     Some [ {| metrics := Some [cpu_gauge (3 # 10); cpu_gauge (9 # 10)] |} ] |} ];
       resourceLogs := None |} in
  let two_resources :=
    {| resourceSpans := None;
       resourceMetrics :=
         Some [ {| scopeMetrics := Some [ {| metrics := Some [cpu_gauge (9 # 10)] |} ] |};
                {| scopeMetrics := Some [ {| metrics := Some [cpu_gauge (3 # 10)] |} ] |} ];
       resourceLogs := None |} in
  all_metrics one_scope ≡ₚ all_metrics two_resources
  ∧ critical (analyzeMetrics one_scope) = critical (analyzeMetrics two_resources).
Proof.
  intros point cpu_gauge one_scope two_resources.
  assert (all_metrics one_scope ≡ₚ all_metrics two_resources) as Hperm
    by apply Permutation_swap.
  split; [exact Hperm|].
  by apply (metrics_ignore_grouping one_scope two_resources).
Defined.

End AnalyzerMore.

(** * Further properties of the page *)

Module PageFacts.

Import Num NumFacts Analyzer Visualizer Page AnalyzerFacts VisualizerFacts AnalyzerMore.

(** ** What a message and a tick do to each part of the visualizer *)

Lemma updateVisualization_fields telemetry dataType v :
  let v' := updateVisualization telemetry dataType v in
  presented v' = presented v
  ∧ basePlaybackRate v' = basePlaybackRate v
  ∧ bloomCount v' = (bloomCount v + if blooms telemetry then 1 else 0)%nat.
Proof.
  cbn zeta. unfold updateVisualization.
  set (v1 := set_activity v _).
  set (v2 := lock_level _ dataType v1).
  set (v3 := buffer_traces telemetry dataType v2).
  assert (presented v3 = presented v ∧ basePlaybackRate v3 = basePlaybackRate v
          ∧ bloomCount v3 = bloomCount v) as (H1 & H2 & H3).
  { subst v3. destruct (buffer_traces_fields telemetry dataType v2) as (_ & _ & _ & _ & -> & ->).
    assert (bloomCount (buffer_traces telemetry dataType v2) = bloomCount v2) as ->.
    { unfold buffer_traces. by destruct (_ && _). }
    subst v2. destruct (lock_level_rate (metricActivity telemetry) dataType v1)
      as (_ & _ & -> & -> & _).
    assert (bloomCount (lock_level (metricActivity telemetry) dataType v1) = bloomCount v1)
      as ->.
    { unfold lock_level, updateSkyGradient.
      destruct (_ && _); [|done]. destruct (negb (Qeq_bool _ _)); [|done].
      cbn [currentSkyId]. by destruct (negb (String.eqb _ _)). }
    done. }
  destruct (bloom_fields telemetry v3) as (_ & _ & -> & -> & _).
  rewrite H1, H2. split_and!; [done..|].
  unfold bloom. fold (blooms telemetry). destruct (blooms telemetry); cbn; lia.
Qed.

Lemma playNextTrace_activity (v : TelemetryVisualizer) :
  currentActivity (playNextTrace v).1 = currentActivity v.
Proof. unfold playNextTrace. by destruct (traceQueue v). Qed.

Lemma rate_for_queue_delays (n : nat) : rate_for_queue 20 (Z.of_nat n) ∈ delays.
Proof.
  rewrite rate_for_queue_bands. unfold delays.
  repeat match goal with
         | |- context [(?a <=? ?b)%nat] => destruct (Nat.leb_spec a b)
         end; set_solver.
Qed.

(** ** The sky *)

Lemma le_proper (x y c : Q) : (x == y)%Q → JS.le x c = JS.le y c.
Proof.
  intros Heq. unfold JS.le. apply eq_true_iff_eq. rewrite !Qle_bool_iff. by rewrite Heq.
Qed.

Lemma sky_for_level_proper (x y : Q) : (x == y)%Q → sky_for_level x = sky_for_level y.
Proof.
  intros Heq. unfold sky_for_level.
  by rewrite (le_proper x y (1 # 10)), (le_proper x y (3 # 10)), (le_proper x y (6 # 10)).
Qed.

(** The layer of the level of a sample. *)
Lemma sky_of_detectedLevel (sample : num) :
  sky_for_level (detectedLevel sample) = sky_of_sample sample.
Proof.
  unfold detectedLevel, sky_of_sample.
  destruct (nlt sample (Fin (2 # 10))); [done|].
  destruct (nlt sample (Fin (45 # 100))); [done|].
  by destruct (nlt sample (Fin (8 # 10))).
Qed.

(** [lock_level] keeps the layer in step with the level. *)
Lemma lock_level_sky sample dataType v :
  currentSkyId v = sky_for_level (targetMetricLevel v) →
  currentSkyId (lock_level sample dataType v)
  = sky_for_level (targetMetricLevel (lock_level sample dataType v)).
Proof.
  intros Hinv. unfold lock_level.
  destruct (String.eqb dataType "metrics" && ngt sample (Fin 0)); [|done].
  destruct (negb (Qeq_bool _ _)); [|done].
  unfold updateSkyGradient. cbn [currentSkyId].
  destruct (String.eqb (sky_for_level (detectedLevel sample)) (currentSkyId v)) eqn:Hsame;
    cbn [negb currentSkyId targetMetricLevel]; [|done].
  by apply String.eqb_eq in Hsame.
Qed.

Lemma updateVisualization_keeps_sky telemetry dataType v :
  currentSkyId v = sky_for_level (targetMetricLevel v) →
  currentSkyId (updateVisualization telemetry dataType v)
  = sky_for_level (targetMetricLevel (updateVisualization telemetry dataType v)).
Proof.
  intros Hinv.
  destruct (updateVisualization_sky telemetry dataType v) as (-> & -> & _).
  by apply lock_level_sky.
Qed.

(** ** The activity value *)

Lemma smooth_within (a sample : num) :
  nle (Fin 0) a = true → nle a (Fin 1) = true → nle sample (Fin 1) = true →
  nle (Fin (1 # 10)) (smooth a sample) = true ∧ nle (smooth a sample) (Fin 1) = true.
Proof.
  intros Ha0 Ha1 Hs.
  destruct (nle_not_NaN _ _ Ha1) as [Ha _], (nle_not_NaN _ _ Hs) as [Hsn _].
  destruct (smooth_greatest a sample Ha Hsn) as (_ & _ & Hfloor & Hone). cbn zeta in *.
  split; [done|]. destruct Hone as [->|[->| ->]]; [|done..].
  destruct a as [| |q|]; cbn in *; try done. to_Q. lra.
Qed.

Lemma newActivity_at_most_1 telemetry :
  nle (cpu (metricsOf telemetry)) (Fin 100) = true →
  nle (memory (metricsOf telemetry)) (Fin 100) = true →
  nle (disk (metricsOf telemetry)) (Fin 100) = true →
  nle (newActivity telemetry) (Fin 1) = true.
Proof.
  intros Hcpu Hmem Hdisk. unfold newActivity, traceActivity, metricActivity, logActivity.
  assert (∀ x, nle x (Fin 100) = true → nle (over x 100) (Fin 1) = true) as Hover.
  { intros [| |q|] H; cbn in *; try done. to_Q. apply Qle_shift_div_r; [done|]. lra. }
  repeat apply nmax_lub; try (by apply Hover); apply Qle_bool_iff, Q.le_min_r.
Qed.

Lemma levels_at_most_100 (raw : RawTelemetry) :
  (∀ d, d ∈ all_metrics raw ≫= gauge_values "system.cpu.utilization"
        ∨ d ∈ all_metrics raw ≫= gauge_values "system.memory.utilization" →
        nle d (Fin 1) = true) →
  NaN ∉ all_metrics raw ≫= counter_values "system.disk.io" →
  nle (cpu (analyzeMetrics raw)) (Fin 100) = true
  ∧ nle (memory (analyzeMetrics raw)) (Fin 100) = true
  ∧ nle (disk (analyzeMetrics raw)) (Fin 100) = true.
Proof.
  intros Hfrac Hdisk. destruct (levels_as_folds raw) as (-> & -> & -> & _).
  split_and!.
  - eapply gauge_level_within; [apply foldl_nmax_from_zero|].
    intros d Hd. apply Hfrac. by left.
  - eapply gauge_level_within; [apply foldl_nmax_from_zero|].
    intros d Hd. apply Hfrac. by right.
  - eapply counter_level_within; [apply foldl_nmax_from_zero|done].
Qed.

(** The sample is NaN exactly for an unreadable document. *)
Lemma newActivity_is_NaN (t : TracesResult) (raw : RawTelemetry) :
  newActivity {| traces := t; metricsOf := analyzeMetrics raw; logs := analyzeLogs raw |}
  = NaN ↔ unreadable raw.
Proof.
  unfold newActivity, metricActivity, unreadable. cbn [metricsOf].
  destruct (levels_NaN raw) as (Hcpu & Hmem & Hdisk). cbn zeta in *.
  rewrite !nmax_is_NaN, !over_is_NaN, Hcpu, Hmem, Hdisk. split; [|tauto].
  intros [[H|[[H|H]|H]]|H]; try done; tauto.
Qed.



Lemma smooth_zero (a z : num) :
  same z (Fin 0) → same (smooth a z) (nmax (times a (95 # 100)) (Fin (1 # 10))).
Proof. intros Hz. unfold smooth, times. num_solve. Qed.



(** ** Error blooms *)

Lemma rate_above_30 (e t : Z) :
  0 <= e <= t → JS.gt (ratio e t) (3 # 10) = true ↔ 3 * t < 10 * e.
Proof.
  intros Het. unfold JS.gt. rewrite negb_true_iff, <- not_true_iff_false, Qle_bool_iff.
  unfold ratio. destruct (Z.ltb_spec 0 t) as [Ht|Ht].
  - assert (0 < inject_Z t)%Q as Hpos by (unfold Qlt; cbn; lia). split.
    + intros Hlt. apply Z.nle_gt. intros Hle. apply Hlt.
      apply Qle_shift_div_r; [done|]. unfold Qle. cbn. lia.
    + intros Hlt. apply Qlt_not_le. apply Qlt_shift_div_l; [done|]. unfold Qlt. cbn. lia.
  - split; [intros Hlt; by destruct Hlt|lia].
Qed.

Lemma rate_above_half (e t : Z) :
  0 <= e <= t → JS.gt (ratio e t) (5 # 10) = true ↔ t < 2 * e.
Proof.
  intros Het. unfold JS.gt. rewrite negb_true_iff, <- not_true_iff_false, Qle_bool_iff.
  unfold ratio. destruct (Z.ltb_spec 0 t) as [Ht|Ht].
  - assert (0 < inject_Z t)%Q as Hpos by (unfold Qlt; cbn; lia). split.
    + intros Hlt. apply Z.nle_gt. intros Hle. apply Hlt.
      apply Qle_shift_div_r; [done|]. unfold Qle. cbn. lia.
    + intros Hlt. apply Qlt_not_le. apply Qlt_shift_div_l; [done|]. unfold Qlt. cbn. lia.
  - split; [intros Hlt; by destruct Hlt|lia].
Qed.

Section Messages.

Context {doubles : Doubles}.

(** What a message appends to the queue. *)
Lemma onmessage_queue payload dataType p :
  traceQueue (visualizer (onmessage payload dataType p))
  = traceQueue (visualizer p) ++ queued_by (Message payload dataType)
  ∧ presented (visualizer (onmessage payload dataType p)) = presented (visualizer p).
Proof.
  destruct payload as [|raw|visited|raw]; cbn [queued_by onmessage visualizer];
    try (by rewrite app_nil_r).
  unfold analyzeTelemetry.
  destruct (analyzeTraces_summary (traceDurationsOf p) raw) as (Hids & Hcount & _).
  destruct (analyzeTraces (traceDurationsOf p) raw) as [t durations]. cbn [fst] in *.
  cbn [visualizer].
  set (telemetry := {| traces := t; metricsOf := analyzeMetrics raw;
                       logs := analyzeLogs raw |}).
  destruct (updateVisualization_fields telemetry dataType (visualizer p)) as (-> & _).
  split; [|done].
  destruct (String.eqb dataType "traces") eqn:Hty.
  - apply String.eqb_eq in Hty as ->.
    destruct (decide (0 < count t)) as [Hpos|Hzero].
    + destruct (traces_arrival telemetry (visualizer p) Hpos) as [-> _].
      cbn [traces telemetry]. by rewrite Hids.
    + destruct (other_arrival telemetry "traces" (visualizer p)) as [-> _];
        [right; cbn; lia|].
      destruct (all_spans raw); [by rewrite app_nil_r|]. cbn [length] in Hcount. lia.
  - apply String.eqb_neq in Hty.
    destruct (other_arrival telemetry dataType (visualizer p)) as [-> _]; [by left|].
    by rewrite app_nil_r.
Qed.

(** Only a message that is analysed to the end acts on the visualizer. *)
Lemma onmessage_visualizer payload dataType p :
  visualizer (onmessage payload dataType p)
  = match payload with
    | Document raw =>
        updateVisualization (analyzeTelemetry (traceDurationsOf p) raw).1 dataType
          (visualizer p)
    | _ => visualizer p
    end.
Proof.
  destruct payload as [|raw|visited|raw]; cbn [onmessage visualizer]; try done.
  unfold analyzeTelemetry. by destruct (analyzeTraces _ raw).
Qed.

Lemma analyzeTelemetry_parts durations raw :
  (analyzeTelemetry durations raw).1
  = {| traces := (analyzeTraces durations raw).1; metricsOf := analyzeMetrics raw;
       logs := analyzeLogs raw |}.
Proof. unfold analyzeTelemetry. by destruct (analyzeTraces durations raw). Qed.

(** X11. No trace is lost, duplicated or reordered on the page: at any
    time, the items presented so far followed by the items still queued
    are the items that were there at the start followed by one item for
    every span with a trace id of every traces message analysed to the
    end, in the order of arrival; a message without payload, or one on
    which the analysis throws, adds none.  Once messages stop, as many
    ticks as there are queued items present them all and empty the
    queue. *)
Theorem no_trace_lost (p : Page) (es : list PageEvent) :
  let v := visualizer p in
  let v' := visualizer (page_run p es) in
  presented v' ++ traceQueue v' = presented v ++ traceQueue v ++ (es ≫= queued_by)
  ∧ (∀ dataType raw visited,
       queued_by (Message NoPayload dataType) = []
       ∧ queued_by (Message (FailsInTraces visited) dataType) = []
       ∧ queued_by (Message (FailsAfterTraces raw) dataType) = []
       ∧ queued_by (Message (Document raw) dataType)
         = if String.eqb dataType "traces" then omap span_item (all_spans raw) else [])
  ∧ traceQueue (visualizer (page_run p (replicate (length (traceQueue v)) Timer))) = []
  ∧ presented (visualizer (page_run p (replicate (length (traceQueue v)) Timer)))
    = presented v ++ traceQueue v.
Proof.
  cbn zeta. split; [|split; [done|]].
  - revert p. induction es as [|e es IH]; intros p.
    + cbn. by rewrite app_nil_r.
    + unfold page_run in *. cbn [foldl]. rewrite IH, bind_cons. clear IH.
      destruct e as [payload dataType|]; cbn [page_step].
      * destruct (onmessage_queue payload dataType p) as [-> ->].
        by rewrite <- !app_assoc.
      * cbn [visualizer queued_by].
        destruct (playNextTrace_step (visualizer p)) as (-> & -> & _).
        rewrite <- !app_assoc. f_equal. by rewrite app_assoc, take_drop.
  - assert (∀ n p, visualizer (page_run p (replicate n Timer))
                   = (ticks n (visualizer p)).1) as Hticks.
    { induction n as [|n IH]; intros q; [done|].
      unfold page_run in *. cbn [replicate foldl ticks page_step]. rewrite IH.
      cbn [visualizer]. destruct (playNextTrace (visualizer q)) as [v1 d].
      cbn [fst]. by destruct (ticks n v1). }
    rewrite Hticks.
    destruct (ticks_run (length (traceQueue (visualizer p))) (visualizer p))
      as (-> & -> & _).
    by rewrite drop_all, firstn_all.
Qed.

(** ** The stored delay *)

(** X12. The delay passed to the timer is always one of 1, 2, 5, 10,
    20 and 40 milliseconds, hence positive, and the base delay stays 20,
    whatever messages and ticks the page sees from its construction
    on. *)
Theorem delay_always_valid (es : list PageEvent) :
  let v := visualizer (page_run new_Page es) in
  basePlaybackRate v = 20
  ∧ currentPlaybackRate v ∈ delays
  ∧ 0 < (playNextTrace v).2 <= 40.
Proof.
  cbn zeta.
  assert (∀ p, basePlaybackRate (visualizer p) = 20 →
               currentPlaybackRate (visualizer p) ∈ delays →
               basePlaybackRate (visualizer (page_run p es)) = 20
               ∧ currentPlaybackRate (visualizer (page_run p es)) ∈ delays) as Hinv.
  { induction es as [|e es IH]; intros p Hbase Hrate; [done|].
    unfold page_run in *. cbn [foldl]. apply IH; clear IH.
    - destruct e as [payload dataType|]; cbn [page_step visualizer].
      + rewrite onmessage_visualizer. destruct payload as [|raw|visited|raw]; try done.
        match goal with |- context [updateVisualization ?telemetry _ _] =>
          by destruct (updateVisualization_fields telemetry dataType (visualizer p))
            as (_ & -> & _) end.
      + by destruct (playNextTrace_step (visualizer p)) as (_ & _ & _ & -> & _).
    - destruct e as [payload dataType|]; cbn [page_step visualizer].
      + rewrite onmessage_visualizer. destruct payload as [|raw|visited|raw]; try done.
        set (telemetry := (analyzeTelemetry (traceDurationsOf p) raw).1).
        destruct (decide (dataType = "traces" ∧ 0 < count (traces telemetry)))
          as [[-> Hpos]|Hother].
        * destruct (traces_arrival telemetry (visualizer p) Hpos) as [_ ->].
          rewrite Hbase. apply rate_for_queue_delays.
        * destruct (other_arrival telemetry dataType (visualizer p)) as [_ ->]; [|done].
          destruct (decide (dataType = "traces")); [right|by left].
          apply Z.nlt_ge. naive_solver.
      + by destruct (playNextTrace_step (visualizer p)) as (_ & _ & -> & _). }
  destruct (Hinv new_Page) as [Hbase Hrate]; [done|unfold delays; set_solver|].
  split_and!; [done..| |];
    destruct (playNextTrace_step (visualizer (page_run new_Page es))) as (_ & _ & _ & _ & ->);
    unfold delays in Hrate; set_unfold; lia.
Qed.

(** ** The sky *)

Lemma page_run_keeps_sky (es : list PageEvent) (p : Page) :
  currentSkyId (visualizer p) = sky_for_level (targetMetricLevel (visualizer p)) →
  currentSkyId (visualizer (page_run p es))
  = sky_for_level (targetMetricLevel (visualizer (page_run p es))).
Proof.
  revert p. induction es as [|e es IH]; intros p Hinv; [done|].
  unfold page_run in *. cbn [foldl]. apply IH.
  destruct e as [payload dataType|]; cbn [page_step visualizer].
  - rewrite onmessage_visualizer. destruct payload as [|raw|visited|raw]; try done.
    by apply updateVisualization_keeps_sky.
  - unfold playNextTrace. by destruct (traceQueue (visualizer p)).
Qed.

(** X13. The sky layer always matches the stored level.  From the
    construction of the page on, whatever it receives, the active layer
    is the one of the stored level; a positive metrics sample below 0.2
    shows the low sky, below 0.45 the medium one, below 0.8 the high one
    and the stress sky otherwise; any other message leaves the sky
    alone.  Quantizing a level again gives the same level. *)
Theorem sky_follows_metrics (es : list PageEvent) :
  let v := visualizer (page_run new_Page es) in
  currentSkyId v = sky_for_level (targetMetricLevel v)
  ∧ (∀ telemetry,
       ngt (metricActivity telemetry) (Fin 0) = true →
       currentSkyId (updateVisualization telemetry "metrics" v)
       = sky_of_sample (metricActivity telemetry))
  ∧ (∀ telemetry dataType,
       dataType ≠ "metrics" ∨ ngt (metricActivity telemetry) (Fin 0) = false →
       currentSkyId (updateVisualization telemetry dataType v) = currentSkyId v
       ∧ targetMetricLevel (updateVisualization telemetry dataType v) = targetMetricLevel v)
  ∧ (∀ sample, detectedLevel (Fin (detectedLevel sample)) = detectedLevel sample).
Proof.
  intros v.
  assert (currentSkyId v = sky_for_level (targetMetricLevel v)) as Hinv
    by (by apply page_run_keeps_sky).
  split_and!; [done|..].
  - intros telemetry Hpos.
    rewrite (updateVisualization_keeps_sky telemetry "metrics" v Hinv).
    destruct (updateVisualization_sky telemetry "metrics" v) as (-> & _).
    rewrite <- sky_of_detectedLevel. apply sky_for_level_proper.
    by apply lock_level_stores.
  - intros telemetry dataType Hother.
    destruct (updateVisualization_sky telemetry dataType v) as (-> & -> & _).
    assert (lock_level (metricActivity telemetry) dataType v = v) as ->; [|done].
    unfold lock_level.
    assert (String.eqb dataType "metrics" && ngt (metricActivity telemetry) (Fin 0) = false)
      as ->; [|done].
    apply andb_false_iff. destruct Hother as [Hty|Hzero].
    + left. by apply String.eqb_neq.
    + by right.
  - intros sample. pose proof (detectedLevel_bins sample) as Hbin.
    repeat (apply elem_of_cons in Hbin as [->|Hbin]; [reflexivity|]).
    by apply elem_of_nil in Hbin.
Qed.

(** ** The activity value *)

Lemma page_step_activity (e : PageEvent) (p : Page) :
  currentActivity (visualizer (page_step p e))
  = match e with
    | Message (Document raw) dataType =>
        smooth (currentActivity (visualizer p))
          (newActivity (analyzeTelemetry (traceDurationsOf p) raw).1)
    | _ => currentActivity (visualizer p)
    end.
Proof.
  destruct e as [payload dataType|]; cbn [page_step visualizer].
  - rewrite onmessage_visualizer. destruct payload; try done.
    apply updateVisualization_activity.
  - apply playNextTrace_activity.
Qed.

(** Once NaN, the activity stays NaN. *)
Lemma activity_stays_NaN (es : list PageEvent) (p : Page) :
  currentActivity (visualizer p) = NaN →
  currentActivity (visualizer (page_run p es)) = NaN.
Proof.
  revert p. induction es as [|e es IH]; intros p Hp; [done|].
  unfold page_run in *. cbn [foldl]. apply IH. rewrite page_step_activity.
  destruct e as [[|raw|visited|raw] dataType|]; try done.
  apply smooth_is_NaN. by left.
Qed.

(** C8, as the code has it.  A message whose payload is truthy and on
    which the analysis does not throw sets the activity to the greatest
    of the previous activity times 0.95, the new sample and the floor
    0.1, which is NaN when one of the first two is; the sample is NaN
    exactly when a utilization gauge or a disk counter of the payload is
    not a number.  Any other message, and a tick of the timer, leave the
    activity as it is.  So, from the construction of the page on, the
    activity is 0 until the first such message; from then on it is at
    least the positive floor 0.1, hence not 0, as long as every payload
    is readable; and it is NaN for good once one is not. *)
Theorem activity_decay_with_floor (e : PageEvent) (p : Page) (es : list PageEvent) :
  let a := currentActivity (visualizer p) in
  let a' := currentActivity (visualizer (page_step p e)) in
  match e with
  | Message (Document raw) dataType =>
      let sample := newActivity (analyzeTelemetry (traceDurationsOf p) raw).1 in
      a' = nmax (nmax (times a (95 # 100)) sample) (Fin (1 # 10))
      ∧ (sample = NaN ↔ unreadable raw)
      ∧ (a ≠ NaN → ¬ unreadable raw →
         nle (times a (95 # 100)) a' = true ∧ nle sample a' = true
         ∧ nle (Fin (1 # 10)) a' = true
         ∧ (a' = times a (95 # 100) ∨ a' = sample ∨ a' = Fin (1 # 10)))
      ∧ (a = NaN ∨ unreadable raw → a' = NaN)
  | _ => a' = a
  end
  ∧ nlt (Fin 0) (Fin (1 # 10)) = true
  ∧ (let final := currentActivity (visualizer (page_run new_Page es)) in
     (Forall (λ e, ¬ analysed e) es → final = Fin 0)
     ∧ (Exists analysed es →
        (∀ raw dataType, Message (Document raw) dataType ∈ es → ¬ unreadable raw) →
        nle (Fin (1 # 10)) final = true ∧ ¬ same final (Fin 0))
     ∧ ((∃ raw dataType, Message (Document raw) dataType ∈ es ∧ unreadable raw) →
        final = NaN)).
Proof.
  cbn zeta. split_and!; [|done|..].
  - rewrite page_step_activity. destruct e as [[|raw|visited|raw] dataType|]; try done.
    assert (newActivity (analyzeTelemetry (traceDurationsOf p) raw).1 = NaN ↔ unreadable raw)
      as Hsample by (rewrite analyzeTelemetry_parts; apply newActivity_is_NaN).
    split_and!; [done|done|..].
    + intros Ha Hraw. apply smooth_greatest; [done|by rewrite Hsample].
    + intros Hnan. apply smooth_is_NaN. rewrite Hsample. tauto.
  - intros Hnone.
    assert (∀ p, currentActivity (visualizer (page_run p es)) = currentActivity (visualizer p))
      as Hkeep.
    { induction Hnone as [|e' es' He' _ IH]; intros q; [done|].
      unfold page_run in *. cbn [foldl]. rewrite IH, page_step_activity.
      by destruct e' as [[|raw|visited|raw] dataType|]. }
    by rewrite Hkeep.
  - intros Hsome Hread.
    assert (∀ p, currentActivity (visualizer p) ≠ NaN →
                 (Exists analysed es ∨ nle (Fin (1 # 10)) (currentActivity (visualizer p)) = true) →
                 nle (Fin (1 # 10)) (currentActivity (visualizer (page_run p es))) = true)
      as Hinv.
    { clear Hsome. induction es as [|e' es' IH]; intros q Hq Hstart.
      - destruct Hstart as [Hex|Hfloor]; [by apply Exists_nil in Hex|done].
      - unfold page_run in *. cbn [foldl].
        assert (∀ raw dataType, Message (Document raw) dataType ∈ es' → ¬ unreadable raw)
          as Hread' by (intros raw dataType Hin; apply (Hread raw dataType); by right).
        pose proof (page_step_activity e' q) as Hstep.
        destruct e' as [[|raw|visited|raw] dataType|];
          try (apply (IH Hread'); [by rewrite Hstep|];
               destruct Hstart as [Hex|Hfloor]; [|right; by rewrite Hstep];
               apply Exists_cons in Hex as [Hex|Hex]; [done|by left]).
        assert (newActivity (analyzeTelemetry (traceDurationsOf q) raw).1 ≠ NaN) as Hsample.
        { rewrite analyzeTelemetry_parts, newActivity_is_NaN.
          apply (Hread raw dataType). by left. }
        destruct (smooth_greatest _ _ Hq Hsample) as (_ & _ & Hfloor & _). cbn zeta in Hfloor.
        apply (IH Hread'); rewrite Hstep.
        + intros Hnan. by rewrite Hnan in Hfloor.
        + by right. }
    assert (nle (Fin (1 # 10)) (currentActivity (visualizer (page_run new_Page es))) = true)
      as Hfloor by (apply Hinv; [done|by left]).
    split; [done|]. intros Hzero.
    by rewrite (nle_proper _ _ (reflexivity _) _ _ Hzero) in Hfloor.
  - intros (raw & dataType & Hin & Hraw).
    apply list_elem_of_split in Hin as (before & after & ->).
    unfold page_run. rewrite foldl_app. cbn [foldl].
    apply activity_stays_NaN. rewrite page_step_activity.
    apply smooth_is_NaN. right. by rewrite analyzeTelemetry_parts, newActivity_is_NaN.
Qed.

(** X14. The activity shown is a fraction: as long as the utilization
    gauges received are at most one and the disk counters received are
    numbers, the activity of the page stays between 0 and 1, so the
    percentage displayed never exceeds 100, whatever the counts of spans
    and log records are. *)
Theorem activity_is_a_fraction (es : list PageEvent) :
  fractions_only es →
  nle (Fin 0) (currentActivity (visualizer (page_run new_Page es))) = true
  ∧ nle (currentActivity (visualizer (page_run new_Page es))) (Fin 1) = true.
Proof.
  assert (∀ p, fractions_only es →
               nle (Fin 0) (currentActivity (visualizer p)) = true
               ∧ nle (currentActivity (visualizer p)) (Fin 1) = true →
               nle (Fin 0) (currentActivity (visualizer (page_run p es))) = true
               ∧ nle (currentActivity (visualizer (page_run p es))) (Fin 1) = true) as Hinv.
  { induction es as [|e es IH]; intros p Hfrac Ha; [done|].
    unfold page_run in *. cbn [foldl]. apply IH.
    - intros raw dataType Hin. apply (Hfrac raw dataType). by right.
    - rewrite page_step_activity. destruct e as [[|raw|visited|raw] dataType|]; try done.
      destruct (Hfrac raw dataType) as [Hgauges Hdisk]; [by left|].
      destruct (levels_at_most_100 raw Hgauges Hdisk) as (Hcpu & Hmem & Hd).
      destruct Ha as [Ha0 Ha1].
      destruct (smooth_within (currentActivity (visualizer p))
                  (newActivity (analyzeTelemetry (traceDurationsOf p) raw).1) Ha0 Ha1)
        as [Hlo Hhi].
      { rewrite analyzeTelemetry_parts. by apply newActivity_at_most_1. }
      split; [|done]. by apply (nle_trans _ (Fin (1 # 10))). }
  intros Hfrac. by apply Hinv.
Qed.

(** ** Error blooms *)

(** X16. An error bloom appears exactly for a payload in which more
    than 3 spans in 10 have the error status or more than half of the
    log records are errors; each message creates at most one bloom, and
    a message without payload, a message on which the analysis throws
    and a tick create none. *)
Theorem bloom_threshold (raw : RawTelemetry) (dataType : string) (p : Page) :
  let spans := Z.of_nat (length (all_spans raw)) in
  let errors := flagged is_error_span (all_spans raw) in
  let records := Z.of_nat (length (all_logs raw)) in
  let bad := flagged is_error_log (all_logs raw) in
  bloomCount (visualizer (onmessage (Document raw) dataType p))
  = (bloomCount (visualizer p)
     + if bool_decide ((3 * spans < 10 * errors)%Z ∨ (records < 2 * bad)%Z)
       then 1 else 0)%nat
  ∧ bloomCount (visualizer (onmessage NoPayload dataType p)) = bloomCount (visualizer p)
  ∧ (∀ visited,
       bloomCount (visualizer (onmessage (FailsInTraces visited) dataType p))
       = bloomCount (visualizer p))
  ∧ (∀ raw',
       bloomCount (visualizer (onmessage (FailsAfterTraces raw') dataType p))
       = bloomCount (visualizer p))
  ∧ bloomCount (visualizer (page_step p Timer)) = bloomCount (visualizer p).
Proof.
  intros spans errors records bad. split_and!; [|done..|].
  - rewrite onmessage_visualizer, analyzeTelemetry_parts.
    destruct (analyzeTraces_summary (traceDurationsOf p) raw) as (_ & _ & Hrate).
    destruct (analyzeLogs_summary raw) as (_ & Hlog).
    match goal with |- context [updateVisualization ?telemetry _ _] =>
      destruct (updateVisualization_fields telemetry dataType (visualizer p))
        as (_ & _ & ->); f_equal; unfold blooms; cbn [traces logs errorRate logErrorRate] end.
    cbn zeta in Hrate. rewrite Hrate, Hlog. fold spans errors records bad.
    pose proof (flagged_bounds is_error_span (all_spans raw)) as Hb.
    pose proof (flagged_bounds is_error_log (all_logs raw)) as Hlb.
    match goal with |- (if ?a then _ else _) = (if ?b then _ else _) =>
      replace a with b; [done|symmetry; apply eq_true_iff_eq] end.
    rewrite orb_true_iff, bool_decide_eq_true, rate_above_30, rate_above_half; done.
  - cbn [page_step visualizer]. unfold playNextTrace.
    by destruct (traceQueue (visualizer p)).
Qed.

(** ** Payloads without telemetry *)

(** X17. A truthy payload with none of the three OTLP fields, such as
    the text the collector sends for a body it could not classify, only
    lets the activity decay: the durations, the queue, the delay, the
    locked level, the sky, the drops and the blooms stay as they are. *)
Theorem fieldless_payload_only_decays (dataType : string) (p : Page) :
  let p' := onmessage (Document no_fields) dataType p in
  traceDurationsOf p' = traceDurationsOf p
  ∧ visualizer p'
    = set_activity (visualizer p) (currentActivity (visualizer p'))
  ∧ same (currentActivity (visualizer p'))
      (nmax (times (currentActivity (visualizer p)) (95 # 100)) (Fin (1 # 10))).
Proof.
  cbn zeta. cbn [onmessage]. unfold analyzeTelemetry, analyzeTraces.
  cbn [no_fields resourceSpans traceDurationsOf visualizer].
  split_and!; [done|..].
  - unfold updateVisualization.
    set (telemetry := Build_AnalyzedTelemetry _ _ _).
    set (v1 := set_activity _ _).
    assert (lock_level (metricActivity telemetry) dataType v1 = v1) as ->.
    { unfold lock_level.
      by assert (String.eqb dataType "metrics" && ngt (metricActivity telemetry) (Fin 0)
                 = false)
        as -> by (by destruct (String.eqb dataType "metrics")). }
    assert (buffer_traces telemetry dataType v1 = v1) as ->.
    { unfold buffer_traces.
      by assert (String.eqb dataType "traces" && (0 <? count (traces telemetry)) = false)
        as -> by (by destruct (String.eqb dataType "traces")). }
    assert (bloom telemetry v1 = v1) as -> by done.
    done.
  - rewrite updateVisualization_activity. by apply smooth_zero.
Qed.

End Messages.

Lemma sky_follows_metrics_witness :
  let es := [Message (Document three_spans) "traces"; Timer] in
  ngt (metricActivity (cpu_sample 50)) (Fin 0) = true
  ∧ currentSkyId
      (updateVisualization (cpu_sample 50) "metrics"
         (visualizer (page_run (doubles := no_rounding) new_Page es)))
    = "sky-high".
Proof.
  intros es.
  assert (ngt (metricActivity (cpu_sample 50)) (Fin 0) = true) as Hpos by reflexivity.
  split; [exact Hpos|].
  destruct (sky_follows_metrics (doubles := no_rounding) es) as (_ & Hsample & _).
  by rewrite (Hsample (cpu_sample 50) Hpos).
Defined.

Lemma activity_decay_with_floor_witness :
  let es := [Message NoPayload "unknown"; Message (Document busy_host) "metrics"; Timer;
             Message (FailsInTraces []) "traces"] in
  let bad := [Message (Document busy_host) "metrics";
              Message (Document unreadable_counter) "metrics";
              Message (Document busy_host) "metrics"] in
  Forall (λ e, ¬ analysed e) [Message NoPayload "unknown"; Timer]
  ∧ Exists analysed es
  ∧ (∀ raw dataType, Message (Document raw) dataType ∈ es → ¬ unreadable raw)
  ∧ (∃ raw dataType, Message (Document raw) dataType ∈ bad ∧ unreadable raw)
  ∧ currentActivity (visualizer (page_run (doubles := no_rounding) new_Page
                                   [Message NoPayload "unknown"; Timer])) = Fin 0
  ∧ nle (Fin (1 # 10))
      (currentActivity (visualizer (page_run (doubles := no_rounding) new_Page es))) = true
  ∧ currentActivity (visualizer (page_run (doubles := no_rounding) new_Page bad)) = NaN.
Proof.
  intros es bad.
  assert (Forall (λ e, ¬ analysed e) [Message NoPayload "unknown"; Timer]) as Hnone
    by (repeat constructor; by intros []).
  assert (Exists analysed es) as Hsome by (apply Exists_cons_tl, Exists_cons_hd; exact I).
  assert (¬ unreadable busy_host) as Hbusy.
  { intros [H|[H|H]]; vm_compute in H; by apply list_elem_of_singleton in H. }
  assert (∀ raw dataType, Message (Document raw) dataType ∈ es → ¬ unreadable raw) as Hread.
  { intros raw dataType Hin.
    repeat (apply elem_of_cons in Hin as [Hin|Hin]; [by (discriminate Hin || injection Hin as -> _)|]).
    by apply elem_of_nil in Hin. }
  assert (∃ raw dataType, Message (Document raw) dataType ∈ bad ∧ unreadable raw) as Hbad.
  { exists unreadable_counter, "metrics". split; [apply elem_of_cons; right; apply elem_of_cons; by left|].
    right. right. vm_compute. by apply list_elem_of_singleton. }
  destruct (activity_decay_with_floor (doubles := no_rounding) Timer new_Page
              [Message NoPayload "unknown"; Timer]) as (_ & _ & Hzero & _).
  destruct (activity_decay_with_floor (doubles := no_rounding) Timer new_Page es)
    as (_ & _ & _ & Hfloor & _).
  destruct (activity_decay_with_floor (doubles := no_rounding) Timer new_Page bad)
    as (_ & _ & _ & _ & Hnan).
  exact (conj Hnone (conj Hsome (conj Hread (conj Hbad
           (conj (Hzero Hnone) (conj (proj1 (Hfloor Hsome Hread)) (Hnan Hbad))))))).
Defined.

(** C8 as stated fails.  The message the collector sends for the body
    [0] has a falsy payload: the page receives it and leaves the
    activity at its initial 0, below the floor.  A metrics document
    whose disk counter is not numeric makes the activity NaN, which is
    not at least the floor either. *)
Lemma envelope_without_update :
  let quiet := page_run (doubles := no_rounding) new_Page [Message NoPayload "unknown"] in
  let broken := page_run (doubles := no_rounding) new_Page
                  [Message (Document unreadable_counter) "metrics"] in
  currentActivity (visualizer quiet) = Fin 0
  ∧ nle (Fin (1 # 10)) (currentActivity (visualizer quiet)) = false
  ∧ currentActivity (visualizer broken) = NaN
  ∧ nle (Fin (1 # 10)) (currentActivity (visualizer broken)) = false.
Proof. by vm_compute. Qed.

Lemma activity_is_a_fraction_witness :
  let es := [Message (Document busy_host) "metrics"; Timer;
             Message (Document three_spans) "traces"; Message NoPayload "unknown"] in
  fractions_only es
  ∧ nle (currentActivity (visualizer (page_run (doubles := no_rounding) new_Page es))) (Fin 1)
    = true
  ∧ same (currentActivity (visualizer (page_run (doubles := no_rounding) new_Page es)))
      (Fin (95 # 100)).
Proof.
  intros es.
  assert (fractions_only es) as Hfrac.
  { intros raw dataType Hin.
    apply elem_of_cons in Hin as [Hin|Hin].
    { injection Hin as -> _. split.
      - intros d [Hd|Hd]; vm_compute in Hd; by apply list_elem_of_singleton in Hd as ->.
      - intros Hd. vm_compute in Hd. by apply list_elem_of_singleton in Hd. }
    apply elem_of_cons in Hin as [Hin|Hin]; [discriminate Hin|].
    apply elem_of_cons in Hin as [Hin|Hin].
    { injection Hin as -> _. split.
      - intros d [Hd|Hd]; vm_compute in Hd; by apply elem_of_nil in Hd.
      - intros Hd. vm_compute in Hd. by apply elem_of_nil in Hd. }
    apply elem_of_cons in Hin as [Hin|Hin]; [discriminate Hin|].
    by apply elem_of_nil in Hin. }
  split_and!; [exact Hfrac|by apply (activity_is_a_fraction (doubles := no_rounding) _ Hfrac)|].
  by vm_compute.
Defined.

End PageFacts.

(** * Raindrops and their sound *)

Module RainFacts.

Import Num NumFacts Analyzer Visualizer Page RainEngine AnalyzerMore.

Lemma get_shift (a : ascii) (s : string) (k n : nat) :
  omap (λ i, String.get i (String a s)) (seq (S k) n)
  = omap (λ i, String.get i s) (seq k n).
Proof.
  revert k. induction n as [|n IH]; intros k; [done|].
  cbn [seq]. unfold omap in *. cbn [list_omap String.get]. by rewrite IH.
Qed.

Lemma get_prefix (s : string) (n : nat) :
  (n ≤ String.length s)%nat →
  omap (λ i, String.get i s) (seq 0 n) = take n (list_ascii_of_string s).
Proof.
  revert n. induction s as [|a s IH]; intros [|n] Hn; cbn in *; try done; [lia|].
  f_equal. rewrite <- IH by lia. apply (get_shift a s 0 n).
Qed.

Lemma take_all_chars (s : string) (n : nat) :
  take (Nat.min (String.length s) n) (list_ascii_of_string s)
  = take n (list_ascii_of_string s).
Proof.
  assert (length (list_ascii_of_string s) = String.length s) as Hlen.
  { induction s as [|a s IH]; cbn; [done|by rewrite IH]. }
  destruct (Nat.le_ge_cases n (String.length s)) as [Hle|Hge].
  - by rewrite Nat.min_r.
  - rewrite Nat.min_l by done. rewrite !take_ge by lia. done.
Qed.

(** ** The audio switch *)

Lemma toggle_off_closes (a : Audio) (fresh : option nat) :
  audioContext (rainEngine (audio_toggle a (false, fresh))) = None.
Proof.
  unfold audio_toggle, stop. cbn.
  by destruct (audioContext (rainEngine a)) eqn:Hctx.
Qed.

Lemma audio_invariant (changes : list (bool * option nat)) :
  let a := foldl audio_toggle new_Audio changes in
  (isAudioEnabled a = false → audioContext (rainEngine a) = None)
  ∧ isInitialized (rainEngine a) = bool_decide (is_Some (audioContext (rainEngine a))).
Proof.
  cbn zeta. induction changes as [|[[|] fresh] changes IH] using rev_ind; [done|..];
    rewrite foldl_snoc; set (a := foldl audio_toggle new_Audio changes) in *.
  - destruct IH as [IH1 IH2]. split; [done|].
    unfold audio_toggle. cbn. by destruct fresh as [ctx|].
  - split; [intros _; apply toggle_off_closes|].
    destruct IH as [IH1 IH2]. unfold audio_toggle, stop. cbn.
    destruct (audioContext (rainEngine a)) eqn:Hctx; [done|].
    by rewrite IH2, Hctx.
Qed.

Section Sounds.

Context {doubles : Doubles}.

(** X19. Sound needs a live context behind a checked box: after any
    sequence of changes of the audio switch, a landing drop plays a
    sound exactly when the changes end with a run of checks during
    which some context was created; while the box is unchecked the
    engine holds no context, and [isInitialized] tells whether it holds
    one. *)
Theorem sound_needs_a_context (changes : list (bool * option nat)) (random : nat → Q) :
  let a := foldl audio_toggle new_Audio changes in
  (is_Some (landing_sound a random)
   ↔ ∃ before checks, changes = before ++ checks
       ∧ Forall (λ c, c.1 = true) checks ∧ Exists (λ c, is_Some c.2) checks)
  ∧ (isAudioEnabled a = false → audioContext (rainEngine a) = None)
  ∧ isInitialized (rainEngine a) = bool_decide (is_Some (audioContext (rainEngine a))).
Proof.
  cbn zeta. split; [|apply audio_invariant].
  assert (∀ a, (isAudioEnabled a = false → audioContext (rainEngine a) = None) →
            is_Some (landing_sound a random) ↔ is_Some (audioContext (rainEngine a)))
    as Hsound.
  { intros a Hoff. unfold landing_sound, playRaindropSound.
    destruct (isAudioEnabled a); [by destruct (audioContext (rainEngine a))|].
    rewrite Hoff by done. done. }
  rewrite Hsound by apply audio_invariant. clear Hsound.
  induction changes as [|[checked fresh] changes IH] using rev_ind.
  - cbn. split; [by intros [? [=]]|].
    intros (before & checks & Heq & _ & Hsome). symmetry in Heq.
    apply app_eq_nil in Heq as [_ ->]. by apply Exists_nil in Hsome.
  - rewrite foldl_snoc. destruct checked.
    + destruct fresh as [ctx|].
      * split; [intros _|by eexists].
        exists changes, [(true, Some ctx)]. split_and!; [done|by constructor|].
        apply Exists_cons_hd. by eexists.
      * assert (audioContext (rainEngine (audio_toggle (foldl audio_toggle new_Audio changes)
                                            (true, None)))
                = audioContext (rainEngine (foldl audio_toggle new_Audio changes))) as ->
          by done.
        rewrite IH. split.
        -- intros (before & checks & -> & Hall & Hsome).
           exists before, (checks ++ [(true, None)]). split_and!.
           ++ by rewrite app_assoc.
           ++ apply Forall_app. split; [done|by constructor].
           ++ apply Exists_app. by left.
        -- intros (before & checks & Heq & Hall & Hsome).
           destruct checks as [|c checks _] using rev_ind; [by apply Exists_nil in Hsome|].
           rewrite app_assoc in Heq. apply app_inj_tail in Heq as [-> <-].
           exists before, checks. split_and!; [done|..].
           ++ by apply Forall_app in Hall as [Hall _].
           ++ apply Exists_app in Hsome as [Hsome|Hsome]; [done|].
              apply Exists_cons in Hsome as [[? [=]]|Hsome]. by apply Exists_nil in Hsome.
    + rewrite toggle_off_closes. split; [by intros [? [=]]|].
      intros (before & checks & Heq & Hall & Hsome).
      destruct checks as [|c checks _] using rev_ind; [by apply Exists_nil in Hsome|].
      rewrite app_assoc in Heq. apply app_inj_tail in Heq as [_ <-].
      apply Forall_app in Hall as [_ Hall]. by apply Forall_inv in Hall.
Qed.

Context {nearest : Nearest doubles}.

(** A multiple of 1/1024 with a small numerator is a double and a
    single. *)
Lemma dyadic_fixed (k : Z) (q : Q) :
  Z.abs k <= 2 ^ 24 → (q == inject_Z k / 1024)%Q →
  same (round q) (Fin q) ∧ same (round_single q) (Fin q).
Proof.
  intros Hk Hq. split.
  - rewrite (round_proper _ _ Hq), (Fin_proper _ _ Hq). apply round_small. lia.
  - rewrite (single_proper _ _ Hq), (Fin_proper _ _ Hq). by apply single_small.
Qed.

Lemma integer_fixed (n : Z) : Z.abs n <= 2 ^ 14 → same (round (inject_Z n)) (Fin (inject_Z n)).
Proof. intros Hn. apply round_integer. lia. Qed.

(** X18. A drop shows the trace id of its span: for an item the
    analyzer made, the characters are the first twelve of the span's
    trace id (the short id is never used), the class carries the error
    mark exactly for an error span, and the drop starts within the left
    95 percent of the page, between 50 and 150 pixels above it. *)
Theorem raindrop_shows_trace_id (span : Span) (item : TraceItem) (r1 r2 : Q) :
  span_item span = Some item →
  (0 <= r1 < 1)%Q → (0 <= r2 < 1)%Q →
  let drop := createRaindrop item r1 r2 in
  chars drop = take 12 (list_ascii_of_string (default "" (traceId span)))
  ∧ className drop = (if is_error_span span then "raindrop error" else "raindrop ")
  ∧ nle (Fin 0) (leftPercent drop) = true ∧ nle (leftPercent drop) (Fin 95) = true
  ∧ nle (Fin (- (150))) (startY drop) = true ∧ nle (startY drop) (Fin (- (50))) = true.
Proof.
  intros Hitem Hr1 Hr2.
  destruct (span_item_shape span item Hitem) as (Hid & Hne & _ & _ & Herr).
  cbn zeta. unfold createRaindrop. cbn [chars className leftPercent startY].
  assert (String.eqb (id item) "" = false) as -> by (by apply String.eqb_neq).
  rewrite Hid, Herr. cbn [default].
  destruct (round_within 0 95 (r1 * 95)) as (x & Hx & Hx0 & Hx1);
    [by apply (integer_fixed 0)|by apply (integer_fixed 95)|lra|].
  destruct (round_within 0 100 (r2 * 100)) as (y & Hy & Hy0 & Hy1);
    [by apply (integer_fixed 0)|by apply (integer_fixed 100)|lra|].
  destruct (round_within (- (150)) (- (50)) (- (50) + - y)) as (z & Hz & Hz0 & Hz1);
    [by apply (integer_fixed (-150))|by apply (integer_fixed (-50))|lra|].
  unfold nsub. cbn [nmul nadd nopp]. rewrite Hx, Hy. cbn [nadd nopp]. rewrite Hz.
  split_and!; [|done|by apply Qle_bool_iff..].
  rewrite get_prefix by lia. apply take_all_chars.
Qed.

(** The envelope of the i-th sample is exactly 1 - i/1024. *)
Lemma envelope_exact (i : nat) :
  (i < 1024)%nat →
  ∃ E, envelope i = Fin E ∧ (E == 1 - inject_Z (Z.of_nat i) / 1024)%Q.
Proof.
  intros Hi. unfold envelope, nsub, div_by.
  destruct (dyadic_fixed (Z.of_nat i) (inject_Z (Z.of_nat i) / 1024)) as [Ht _];
    [lia|reflexivity|].
  destruct (round (inject_Z (Z.of_nat i) / 1024)) as [| |y|]; cbn in Ht; try done.
  cbn [nopp nadd].
  assert (1 + - y == inject_Z (1024 - Z.of_nat i) / 1024)%Q as Heq.
  { rewrite Ht. unfold Zminus. rewrite inject_Z_plus, inject_Z_opp. field. }
  destruct (dyadic_fixed (1024 - Z.of_nat i) (1 + - y)) as [HE _]; [lia|done|].
  destruct (round (1 + - y)) as [| |E|]; cbn in HE; try done.
  exists E. split; [done|]. rewrite HE, Ht. ring.
Qed.

(** X20. The burst of a raindrop decays to silence: with every random
    value in the unit interval, an engine that holds a context plays
    1024 samples, the i-th within plus or minus 1 - i/1024, through a
    filter cut off between 2000 and 5000 hertz, at a peak gain between
    the double [c] nearest to 0.05 and [c + c]; an engine without a
    context plays nothing. *)
Theorem raindrop_sound_envelope (e : RainEngine) (random : nat → Q) :
  (∀ k, (0 <= random k < 1)%Q) →
  match playRaindropSound e random with
  | Some s =>
      is_Some (audioContext e)
      ∧ length (samples s) = 1024%nat
      ∧ (∀ i x, samples s !! i = Some x →
           let bound := (1 - inject_Z (Z.of_nat i) / 1024)%Q in
           (0 < bound)%Q ∧ nle (Fin (- bound)) x = true ∧ nle x (Fin bound) = true)
      ∧ nle (Fin 2000) (frequency s) = true ∧ nle (frequency s) (Fin 5000) = true
      ∧ nle (round (5 # 100)) (volume s) = true
      ∧ nle (volume s) (nadd (round (5 # 100)) (round (5 # 100))) = true
  | None => audioContext e = None
  end.
Proof.
  intros Hrandom. unfold playRaindropSound.
  destruct (audioContext e) as [ctx|]; [|done].
  cbn [samples frequency volume].
  assert (same (round 0) (Fin 0)) as R0 by apply (integer_fixed 0 ltac:(done)).
  split_and!.
  - by eexists.
  - by rewrite length_fmap, length_seq.
  - intros i x Hx. apply list_lookup_fmap_Some in Hx as (j & -> & Hj).
    apply lookup_seq in Hj as [-> Hlt]. cbn zeta. cbn [Nat.add].
    assert (0 <= inject_Z (Z.of_nat i) /\ inject_Z (Z.of_nat i) < 1024)%Q as [Hi0 Hi1].
    { unfold Qle, Qlt. cbn. lia. }
    destruct (envelope_exact i Hlt) as (E & HE & HEq).
    set (t := inject_Z (Z.of_nat i)) in *.
    assert (0 < 1 - t / 1024)%Q as Hpos.
    { assert (t / 1024 < 1)%Q; [|lra]. apply Qlt_shift_div_r; lra. }
    split; [done|].
    destruct (Hrandom i) as [H0 H1].
    destruct (round_within 0 2 (random i * 2)) as (z & Hz & Hz0 & Hz1);
      [done|by apply (integer_fixed 2)|lra|].
    destruct (round_within (- (1)) 1 (z + - (1))) as (w & Hw & Hw0 & Hw1);
      [by apply (integer_fixed (-1))|by apply (integer_fixed 1)|lra|].
    assert (E == inject_Z (1024 - Z.of_nat i) / 1024)%Q as HEk.
    { rewrite HEq. subst t. unfold Zminus. rewrite inject_Z_plus, inject_Z_opp. field. }
    assert (- E == inject_Z (Z.of_nat i - 1024) / 1024)%Q as HEn.
    { rewrite HEq. subst t. unfold Zminus. rewrite inject_Z_plus, inject_Z_opp. field. }
    destruct (dyadic_fixed (1024 - Z.of_nat i) E) as [RE SE]; [lia|done|].
    destruct (dyadic_fixed (Z.of_nat i - 1024) (- E)) as [RN SN]; [lia|done|].
    assert (- E <= w * E <= E)%Q as Hprod.
    { assert (0 <= E)%Q as HE0 by lra. split.
      - assert (- E == (- (1)) * E)%Q as -> by ring. by apply Qmult_le_compat_r.
      - assert (w * E <= 1 * E)%Q as Hle by (by apply Qmult_le_compat_r). lra. }
    destruct (round_within (- E) E (w * E) RN RE Hprod) as (u & Hu & Hu0 & Hu1).
    destruct (single_within (- E) E u SN SE (conj Hu0 Hu1)) as (s & Hs & Hs0 & Hs1).
    unfold noise_sample, nsub. cbn [nmul nadd nopp]. rewrite Hz. cbn [nadd nopp].
    rewrite Hw, HE. cbn [nmul]. rewrite Hu. cbn [to_single]. rewrite Hs.
    split; apply Qle_bool_iff; lra.
  - destruct (Hrandom 1024%nat) as [H0 H1].
    destruct (round_within 0 3000 (random 1024%nat * 3000)) as (y & Hy & Hy0 & Hy1);
      [done|by apply (integer_fixed 3000)|lra|].
    destruct (round_within 2000 5000 (2000 + y)) as (f & Hf & Hf0 & Hf1);
      [by apply (integer_fixed 2000)|by apply (integer_fixed 5000)|lra|].
    cbn [nmul nadd]. rewrite Hy. cbn [nadd]. rewrite Hf. by apply Qle_bool_iff.
  - destruct (Hrandom 1024%nat) as [H0 H1].
    destruct (round_within 0 3000 (random 1024%nat * 3000)) as (y & Hy & Hy0 & Hy1);
      [done|by apply (integer_fixed 3000)|lra|].
    destruct (round_within 2000 5000 (2000 + y)) as (f & Hf & Hf0 & Hf1);
      [by apply (integer_fixed 2000)|by apply (integer_fixed 5000)|lra|].
    cbn [nmul nadd]. rewrite Hy. cbn [nadd]. rewrite Hf. by apply Qle_bool_iff.
  - destruct (Hrandom 1025%nat) as [H0 H1].
    destruct (round_within 0 1 (5 # 100)) as (c & Hc & Hc0 & Hc1);
      [done|by apply (integer_fixed 1)|lra|].
    pose proof (round_twice _ _ Hc) as Rc.
    destruct (round_within 0 c (random 1025%nat * c) R0 Rc) as (y & Hy & Hy0 & Hy1).
    { split; [apply Qmult_le_0_compat; lra|].
      assert (random 1025%nat * c <= 1 * c)%Q by (apply Qmult_le_compat_r; lra). lra. }
    rewrite Hc. cbn [nmul nadd]. rewrite Hy. cbn [nadd].
    rewrite <- (nle_proper _ _ Rc _ _ (reflexivity _)). apply round_mono. lra.
  - destruct (Hrandom 1025%nat) as [H0 H1].
    destruct (round_within 0 1 (5 # 100)) as (c & Hc & Hc0 & Hc1);
      [done|by apply (integer_fixed 1)|lra|].
    pose proof (round_twice _ _ Hc) as Rc.
    destruct (round_within 0 c (random 1025%nat * c) R0 Rc) as (y & Hy & Hy0 & Hy1).
    { split; [apply Qmult_le_0_compat; lra|].
      assert (random 1025%nat * c <= 1 * c)%Q by (apply Qmult_le_compat_r; lra). lra. }
    rewrite Hc. cbn [nmul nadd]. rewrite Hy. cbn [nadd]. apply round_mono. lra.
Qed.

End Sounds.

Lemma raindrop_shows_trace_id_witness :
  let span := {| traceId := Some "4bf92f3577b34da6a3ce929d0e0e4736";
                 status_code := Some 2; kind := None;
                 startTimeUnixNano := None; endTimeUnixNano := None |} in
  let item := {| id := "4bf92f3577b34da6a3ce929d0e0e4736"; shortId := "4bf92f35";
                 isError := true |} in
  let drop := createRaindrop (doubles := no_rounding) item (1 # 2) (1 # 4) in
  span_item span = Some item
  ∧ (0 <= 1 # 2 < 1)%Q ∧ (0 <= 1 # 4 < 1)%Q
  ∧ chars drop = list_ascii_of_string "4bf92f3577b3"
  ∧ className drop = "raindrop error"
  ∧ nle (leftPercent drop) (Fin 95) = true
  ∧ nle (Fin (- (150))) (startY drop) = true.
Proof.
  intros span item drop.
  assert (span_item span = Some item) as Hitem by reflexivity.
  assert (0 <= 1 # 2 < 1)%Q as Hr1 by (split; by vm_compute).
  assert (0 <= 1 # 4 < 1)%Q as Hr2 by (split; by vm_compute).
  destruct (raindrop_shows_trace_id (doubles := no_rounding) span item (1 # 2) (1 # 4)
              Hitem Hr1 Hr2) as (H1 & H2 & _ & H4 & H5 & _).
  split_and!; [exact Hitem|apply Hr1|apply Hr1|apply Hr2|apply Hr2| | |exact H4|exact H5].
  - subst drop. by rewrite H1.
  - subst drop. by rewrite H2.
Defined.

Lemma raindrop_sound_envelope_witness :
  (∀ k : nat, (0 <= (λ _, 1 # 2) k < 1)%Q)
  ∧ match playRaindropSound (doubles := no_rounding)
            {| audioContext := Some 0%nat; isInitialized := true |} (λ _, 1 # 2) with
    | Some s =>
        length (samples s) = 1024%nat
        ∧ nle (Fin 2000) (frequency s) = true ∧ nle (frequency s) (Fin 5000) = true
        ∧ nle (Fin (5 # 100)) (volume s) = true ∧ nle (volume s) (Fin (1 # 10)) = true
    | None => False
    end.
Proof.
  assert (∀ k : nat, (0 <= (λ _, 1 # 2) k < 1)%Q) as Hrandom by (intros k; split; by vm_compute).
  split; [exact Hrandom|].
  pose proof (raindrop_sound_envelope (doubles := no_rounding)
                {| audioContext := Some 0%nat; isInitialized := true |}
                (λ _, 1 # 2) Hrandom) as Henv.
  destruct (playRaindropSound _ _); [|discriminate Henv].
  destruct Henv as (_ & Hlen & _ & Hf0 & Hf1 & Hv0 & Hv1).
  split_and!; [exact Hlen|exact Hf0|exact Hf1|exact Hv0|].
  apply (nle_trans _ _ (Fin (1 # 10)) Hv1). reflexivity.
Defined.

End RainFacts.

(** * The load generator *)

Module OtelgenFacts.

Import Otelgen.

Lemma less_spec (x y : Q) : less x y = true ↔ (x < y)%Q.
Proof.
  unfold less. rewrite negb_true_iff, <- not_true_iff_false, Qle_bool_iff.
  split; [apply Qnot_le_lt|apply Qlt_not_le].
Qed.

Lemma substring_whole (s : string) : String.substring 0 (String.length s) s = s.
Proof. induction s as [|a s IH]; cbn; [done|by rewrite IH]. Qed.

Lemma substring_one (s : string) (i : nat) (c : ascii) :
  String.substring i 1 s = String c "" → String.get i s = Some c.
Proof.
  revert i. induction s as [|a s IH]; intros [|i]; cbn; try done.
  - destruct s; by intros [= ->].
  - apply IH.
Qed.

Lemma split_at_char (s : string) (i : nat) (c : ascii) :
  String.get i s = Some c →
  s = (String.substring 0 i s
       ++ String c (String.substring (i + 1) (String.length s - (i + 1)) s))%string.
Proof.
  revert i. induction s as [|a s IH]; intros [|i]; cbn; try done.
  - intros [= ->]. by rewrite Nat.sub_0_r, substring_whole.
  - intros Hget. etrans; [exact (f_equal (String a) (IH i Hget))|reflexivity].
Qed.

Lemma substring_of_prefix (s : string) (i j : nat) :
  (j < i)%nat →
  String.substring j 1 (String.substring 0 i s) = String.substring j 1 s.
Proof.
  revert i j. induction s as [|a s IH]; intros [|i] [|j] Hlt; cbn; try done; try lia.
  - by destruct i, s.
  - apply IH. lia.
Qed.

Lemma substring_one_in_range (s : string) (j : nat) (c : ascii) :
  String.substring j 1 s = String c "" → (j < String.length s)%nat.
Proof.
  revert j. induction s as [|a s IH]; intros [|j]; cbn; try done; [lia|].
  intros Hsub. apply IH in Hsub. lia.
Qed.

(** X21. Method and route recombine to the operation: when the
    operation has a space, the generator's two slices are the text
    before the first space, which holds no space, and the text after it;
    every operation of the generator has one. *)
Theorem operation_split_round_trip (operation method route : string) :
  split_operation operation = Some (method, route) →
  operation = (method ++ " " ++ route)%string
  ∧ String.index 0 " " method = None
  ∧ Forall (λ o, is_Some (split_operation o)) operations.
Proof.
  unfold split_operation. destruct (String.index 0 " " operation) as [i|] eqn:Hidx; [|done].
  cbn. intros [= <- <-]. split_and!.
  - apply split_at_char, substring_one. by apply String.index_correct1 in Hidx.
  - destruct (String.index 0 " " (String.substring 0 i operation)) as [j|] eqn:Hj; [|done].
    exfalso. apply String.index_correct1 in Hj. cbn [String.length] in Hj.
    assert (j < i)%nat as Hlt.
    { apply substring_one_in_range in Hj. rewrite AnalyzerMore.substring_prefix_length in Hj.
      lia. }
    rewrite substring_of_prefix in Hj by done.
    apply (String.index_correct2 _ _ _ _ Hidx j); [lia|done|done].
  - unfold operations.
    repeat (apply Forall_cons; split; [eexists; vm_compute; reflexivity|]).
    apply Forall_nil_2.
Qed.

Lemma operation_split_round_trip_witness :
  split_operation "DELETE /api/sessions/{id}" = Some ("DELETE", "/api/sessions/{id}")
  ∧ String.index 0 " " "DELETE" = None.
Proof.
  assert (split_operation "DELETE /api/sessions/{id}" = Some ("DELETE", "/api/sessions/{id}"))
    as Hsplit by reflexivity.
  split; [exact Hsplit|].
  by destruct (operation_split_round_trip _ _ _ Hsplit) as (_ & ? & _).
Defined.

Lemma getStatusCode_class (errorRate float64 : Q) (intn : nat → nat) :
  (∀ n, (0 < n)%nat → (intn n < n)%nat) →
  ∃ code, getStatusCode errorRate float64 intn = Some code
    ∧ (400 <= code < 600 ↔ (float64 < errorRate)%Q)
    ∧ (200 <= code < 300 ↔ (errorRate <= float64)%Q).
Proof.
  intros Hintn. unfold getStatusCode.
  destruct (less float64 errorRate) eqn:Hless.
  - apply less_spec in Hless. cbn [length].
    pose proof (Hintn 7%nat ltac:(lia)) as Hk.
    destruct (intn 7%nat) as [|[|[|[|[|[|[|k]]]]]]]; [..|lia]; cbn;
      (eexists; split; [done|]; split; split; try lia; try done;
       intros Hle; by apply Qle_not_lt in Hle).
  - apply not_true_iff_false in Hless. rewrite less_spec in Hless.
    apply Qnot_lt_le in Hless. cbn [length].
    pose proof (Hintn 4%nat ltac:(lia)) as Hk.
    destruct (intn 4%nat) as [|[|[|[|k]]]]; [..|lia]; cbn;
      (eexists; split; [done|]; split; split; try lia; try done;
       intros Hlt; by apply Qle_not_lt in Hless).
Qed.

(** X22. An iteration of the trace generator always ends a span: with
    random values in their documented ranges no index or slice is out of
    range; the span is named by one of the operations, its method and
    route recombine to that name, its status code attribute is a 4xx or
    5xx code exactly when the first draw falls below the error rate, and
    its status is the error status, with a recorded error, exactly when
    the second draw does. *)
Theorem trace_iteration_ends_a_span (config : Config) (r : Rand) :
  in_range r →
  ∃ span, trace_iteration config r = Some span
    ∧ name span ∈ operations
    ∧ name span = (http_method span ++ " " ++ http_route span)%string
    ∧ http_method span ∈ ["GET"; "POST"; "PUT"; "DELETE"]
    ∧ (user_id span < 1000)%nat
    ∧ (400 <= http_status_code span < 600 ↔ (Float64 r 0 < ErrorRate config)%Q)
    ∧ (200 <= http_status_code span < 300 ↔ (ErrorRate config <= Float64 r 0)%Q)
    ∧ (status span = codes_Error ↔ (Float64 r 1 < ErrorRate config)%Q)
    ∧ (is_Some (recordedError span) ↔ status span = codes_Error).
Proof.
  intros [Hfloat Hintn]. unfold trace_iteration.
  destruct (getStatusCode_class (ErrorRate config) (Float64 r 0) (Intn r 2) (Hintn 2%nat))
    as (code & -> & Herr & Hok).
  assert (∀ b : bool, (if b then codes_Error else codes_Ok) = codes_Error ↔ b = true)
    as Hstatus by (by intros []).
  assert (∀ (b : bool) (e : string),
            is_Some (if b then Some e else None)
            ↔ (if b then codes_Error else codes_Ok) = codes_Error) as Hrec.
  { intros [] e; rewrite is_Some_alt; naive_solver. }
  pose proof (Hintn 0%nat (length operations) ltac:(cbn; lia)) as Hop.
  pose proof (Hintn 1%nat 1000%nat ltac:(lia)) as Huser.
  cbn [length operations] in Hop |- *.
  destruct (Intn r 0 8) as [|[|[|[|[|[|[|[|k]]]]]]]]; [..|lia];
    (eexists; split; [reflexivity|]; cbn [name http_method http_route user_id
       http_status_code recordedError status fst snd];
     split_and!; [set_solver|done|set_solver|done|done|done| |apply Hrec];
     by rewrite Hstatus, less_spec).
Qed.

Lemma trace_iteration_ends_a_span_witness :
  in_range (fixed_rand (λ k, if k is O then 1 # 10 else 9 # 10))
  ∧ ∃ span,
      trace_iteration {| ErrorRate := 1 # 2; HighSeverity := 1 # 2 |}
        (fixed_rand (λ k, if k is O then 1 # 10 else 9 # 10)) = Some span
      ∧ status span = codes_Ok.
Proof.
  assert (in_range (fixed_rand (λ k, if k is O then 1 # 10 else 9 # 10))) as Hrange.
  { split; [intros [|k]; split; by vm_compute|intros k n Hn; exact Hn]. }
  split; [exact Hrange|].
  destruct (trace_iteration_ends_a_span {| ErrorRate := 1 # 2; HighSeverity := 1 # 2 |} _ Hrange)
    as (span & Hspan & _).
  exists span. split; [exact Hspan|].
  vm_compute in Hspan. by injection Hspan as <-.
Defined.

(** X23. An iteration of the log generator always emits a record: with
    random values in their documented ranges the severity is drawn and
    its message list is not empty; the record is informational exactly
    when the draw is not below the high-severity rate, never otherwise,
    and its body is one of the messages of its severity. *)
Theorem log_iteration_emits_a_record (config : Config) (r : Rand) :
  in_range r →
  ∃ record, log_iteration config r = Some record
    ∧ (severity record = SeverityInfo ↔ (HighSeverity config <= Float64 r 0)%Q)
    ∧ body record ∈ messages (severity record)
    ∧ (∀ other, other ≠ severity record → body record ∉ messages other)
    ∧ (log_user_id record < 1000)%nat.
Proof.
  intros [Hfloat Hintn]. unfold log_iteration, getSeverity.
  pose proof (Hintn 2%nat 1000%nat ltac:(lia)) as Huser.
  assert (∀ severity i message,
            messages severity !! i = Some message →
            ∀ other, other ≠ severity → message ∉ messages other) as Hown.
  { intros severity i message Hi other Hne.
    assert (Forall (λ m, m ∉ messages other) (messages severity)) as Hdisjoint
      by (destruct severity, other; try done; by apply (bool_decide_unpack _)).
    by apply (Forall_lookup_1 _ _ _ _ Hdisjoint Hi). }
  destruct (less (Float64 r 0) (HighSeverity config)) eqn:Hless.
  - apply less_spec in Hless. cbn [length].
    pose proof (Hintn 0%nat 3%nat ltac:(lia)) as Hk.
    destruct (Intn r 0 3) as [|[|[|k]]]; [..|lia]; cbn [lookup list_lookup mbind option_bind].
    all: match goal with |- context [messages ?s] =>
           pose proof (Hintn 1%nat (length (messages s)) ltac:(cbn; lia)) as Hm;
           destruct (messages s !! Intn r 1 (length (messages s))) as [message|] eqn:Hmsg;
             [|apply lookup_ge_None in Hmsg; lia] end.
    all: eexists; split; [reflexivity|]; cbn [severity body log_user_id].
    all: split_and!; [split; [done|intros Hle; by apply Qle_not_lt in Hle]
                     |by eapply list_elem_of_lookup_2|by eapply Hown|done].
  - apply not_true_iff_false in Hless. rewrite less_spec in Hless.
    apply Qnot_lt_le in Hless. cbn [mbind option_bind].
    pose proof (Hintn 1%nat (length (messages SeverityInfo)) ltac:(cbn; lia)) as Hm.
    destruct (messages SeverityInfo !! Intn r 1 (length (messages SeverityInfo)))
      as [message|] eqn:Hmsg; [|apply lookup_ge_None in Hmsg; lia].
    eexists; split; [reflexivity|]; cbn [severity body log_user_id].
    split_and!; [done|by eapply list_elem_of_lookup_2|by eapply Hown|done].
Qed.

Lemma log_iteration_emits_a_record_witness :
  in_range (fixed_rand (λ _, 1 # 10))
  ∧ ∃ record,
      log_iteration {| ErrorRate := 1 # 2; HighSeverity := 1 # 2 |}
        (fixed_rand (λ _, 1 # 10)) = Some record
      ∧ severity record = SeverityWarn.
Proof.
  assert (in_range (fixed_rand (λ _, 1 # 10))) as Hrange.
  { split; [intros k; split; by vm_compute|intros k n Hn; exact Hn]. }
  split; [exact Hrange|].
  destruct (log_iteration_emits_a_record {| ErrorRate := 1 # 2; HighSeverity := 1 # 2 |} _ Hrange)
    as (record & Hrecord & _).
  exists record. split; [exact Hrecord|].
  vm_compute in Hrecord. by injection Hrecord as <-.
Defined.

End OtelgenFacts.
